(** * DeepSeaGuard Insight Engine: subscriber registry, ingestion loop and
      insights query engine

    A shallow embedding of [app/main.py] (the [ConnectionManager] and the
    [monitor_telemetry] loop) and of [app/services/insights.py]
    ([_parse_point_wkt] and [fetch_insights]).

    Conventions.
    - A Python [str] is a [string] whose characters are the code points
      below 256, one [ascii] each; texts with other code points are outside
      the model.
    - A coroutine is its sequential body: asyncio is cooperative, and every
      registry operation holds the registry lock over its awaits, so registry
      operations are linearised.
    - Raising is explicit: a computation returns a value or the exception it
      raised; a task that waits for something that can never happen is
      [Blocked]. *)

From Stdlib Require Import ZArith Ascii String List Bool Lia.
From Stdlib Require Import DecimalString DecimalZ.
From stdpp Require Import base option list strings gmap.

(** ** Python exceptions *)

(** The exception classes that the two source files raise, catch or let
    through.  [CancelledError] derives from [BaseException] only (it is what a
    task receives at process shutdown); all others derive from [Exception]. *)
Inductive exn : Type :=
  | AttributeError (msg : string)
  | ValueError (msg : string)
  | OverflowError (msg : string)
  | RuntimeError (msg : string)
  | JSONDecodeError (msg : string)
  | ClientError (msg : string)
  | WebSocketDisconnect
  | CancelledError.

(** [isinstance(e, Exception)]. *)
Definition is_Exception (e : exn) : bool :=
  match e with
  | CancelledError => false
  | _ => true
  end.

(** [isinstance(e, aiohttp.ClientError)]. *)
Definition is_ClientError (e : exn) : bool :=
  match e with
  | ClientError _ => true
  | _ => false
  end.

(** ** The subscriber registry ([ConnectionManager], main.py 33-64) *)

(** [starlette.websockets.WebSocketState]. *)
Inductive WebSocketState : Type := CONNECTING | CONNECTED | DISCONNECTED | RESPONSE.

Global Instance WebSocketState_eq_dec : EqDecision WebSocketState.
Proof. solve_decision. Defined.

(** A [WebSocket] object.  Starlette compares connections by identity, so a
    connection is its identity. *)
Definition WebSocket : Type := nat.

Section Registry.

(** The payload handed to [send_json]. *)
Variable Message : Type.

(** What the transport answers during one call: the state each connection
    reports and whether [send_json] on it raises. *)
Record Transport : Type := {
  client_state : WebSocket -> WebSocketState;
  send_json : WebSocket -> Message -> option exn
}.

(** The manager object together with what left the process: the frames
    delivered so far, oldest first. *)
Record Registry : Type := {
  active_connections : list WebSocket;
  lock_held : bool;
  delivered : list (WebSocket * Message)
}.

Definition ConnectionManager_init : Registry :=
  {| active_connections := []; lock_held := false; delivered := [] |}.

(** Result of running a coroutine to its end. *)
Inductive outcome (A : Type) : Type :=
  | Returned (a : A) (r : Registry)
  | Raised (e : exn) (r : Registry)
  | Blocked (r : Registry).

Arguments Returned {A} a r.
Arguments Raised {A} e r.
Arguments Blocked {A} r.

Definition final_registry {A} (o : outcome A) : Registry :=
  match o with
  | Returned _ r => r
  | Raised _ r => r
  | Blocked r => r
  end.

Definition set_lock (b : bool) (r : Registry) : Registry :=
  {| active_connections := active_connections r;
     lock_held := b;
     delivered := delivered r |}.

Definition set_connections (l : list WebSocket) (r : Registry) : Registry :=
  {| active_connections := l;
     lock_held := lock_held r;
     delivered := delivered r |}.

Definition deliver (ws : WebSocket) (m : Message) (r : Registry) : Registry :=
  {| active_connections := active_connections r;
     lock_held := lock_held r;
     delivered := delivered r ++ [(ws, m)] |}.

(** [async with self._lock: body].  [asyncio.Lock] is not reentrant: when
    the lock is held, [acquire] suspends the caller until the holder
    releases it.  Operations are linearised, so a lock found held is held by
    the caller's own call chain or by a call that never returned; in both
    cases no release can follow and the caller waits forever.  The lock is
    released on normal and on exceptional exit of the body. *)
Definition with_lock {A} (body : Registry -> outcome A) (r : Registry) : outcome A :=
  if lock_held r then Blocked r
  else match body (set_lock true r) with
       | Returned a r' => Returned a (set_lock false r')
       | Raised e r' => Raised e (set_lock false r')
       | Blocked r' => Blocked r'
       end.

(** [list.remove(x)]: drops the first occurrence. *)
Fixpoint list_remove (x : WebSocket) (l : list WebSocket) : list WebSocket :=
  match l with
  | [] => []
  | y :: l' => if decide (x = y) then l' else y :: list_remove x l'
  end.

(** [connect] (main.py 39-43).  [accept] is the result of
    [await websocket.accept()]: [None] when the handshake went through,
    the exception otherwise (raised before the lock is taken).  The body
    appends; it does not look for the connection in the list. *)
Definition connect (websocket : WebSocket) (accept : option exn) (r : Registry)
  : outcome unit :=
  match accept with
  | Some e => Raised e r
  | None =>
      with_lock (fun r =>
        Returned tt (set_connections (active_connections r ++ [websocket]) r)) r
  end.

(** [disconnect] (main.py 45-49). *)
Definition disconnect (websocket : WebSocket) (r : Registry) : outcome unit :=
  with_lock (fun r =>
    if decide (websocket ∈ active_connections r)
    then Returned tt (set_connections (list_remove websocket (active_connections r)) r)
    else Returned tt r) r.

(** The first loop of [broadcast] (main.py 54-60).  [except Exception]
    catches what the body raises when it is an [Exception], and the
    connection is queued for removal; any other exception (a
    [CancelledError]) leaves the loop and [broadcast]. *)
Fixpoint broadcast_send (T : Transport) (message : Message)
    (conns : list WebSocket) (disconnected : list WebSocket) (r : Registry)
  : outcome (list WebSocket) :=
  match conns with
  | [] => Returned disconnected r
  | connection :: rest =>
      if decide (client_state T connection = CONNECTED) then
        match send_json T connection message with
        | None => broadcast_send T message rest disconnected (deliver connection message r)
        | Some e =>
            if is_Exception e
            then broadcast_send T message rest (disconnected ++ [connection]) r
            else Raised e r
        end
      else broadcast_send T message rest disconnected r
  end.

(** The second loop of [broadcast] (main.py 63-64):
    [for conn in disconnected: await self.disconnect(conn)]. *)
Fixpoint broadcast_cleanup (disconnected : list WebSocket) (r : Registry)
  : outcome unit :=
  match disconnected with
  | [] => Returned tt r
  | conn :: rest =>
      match disconnect conn r with
      | Returned _ r' => broadcast_cleanup rest r'
      | Raised e r' => Raised e r'
      | Blocked r' => Blocked r'
      end
  end.

(** [broadcast] (main.py 51-64): both loops run inside
    [async with self._lock]. *)
Definition broadcast (T : Transport) (message : Message) (r : Registry)
  : outcome unit :=
  with_lock (fun r =>
    match broadcast_send T message (active_connections r) [] r with
    | Returned disconnected r1 => broadcast_cleanup disconnected r1
    | Raised e r1 => Raised e r1
    | Blocked r1 => Blocked r1
    end) r.

(** [WebSocket.accept] of Starlette, from the side of the handler.  The
    handshake of a connection goes through at most once: [accept] sends the
    ASGI message [websocket.accept], which is refused with [RuntimeError]
    once the connection has been accepted.  [accepted] are the connections
    whose handshake went through, [failure] is what the transport does to
    the handshake of a connection that is not yet accepted. *)
Definition accept (accepted : gset WebSocket) (websocket : WebSocket)
    (failure : option exn) : option exn :=
  if decide (websocket ∈ accepted)
  then Some (RuntimeError "Expected ASGI message websocket.send or websocket.close")
  else failure.

(** A sequence of [connect] and [disconnect] calls; a [connect] comes with
    what the transport does to a first handshake. *)
Inductive call : Type :=
  | Connect (websocket : WebSocket) (failure : option exn)
  | Disconnect (websocket : WebSocket).

Definition call_websocket (c : call) : WebSocket :=
  match c with
  | Connect ws _ => ws
  | Disconnect ws => ws
  end.

(** The manager and the connections accepted so far. *)
Definition run_state : Type := Registry * gset WebSocket.

Definition run_call (c : call) (s : run_state) : outcome unit * gset WebSocket :=
  match c with
  | Connect ws failure =>
      let a := accept s.2 ws failure in
      (connect ws a s.1,
       match a with
       | None => {[ws]} ∪ s.2
       | Some _ => s.2
       end)
  | Disconnect ws => (disconnect ws s.1, s.2)
  end.

(** The calls run one after the other; a caller may catch what a call
    raises, so the next call starts from the registry the previous one
    left. *)
Definition step (c : call) (s : run_state) : run_state :=
  (final_registry (run_call c s).1, (run_call c s).2).

Definition run_calls (cs : list call) (s : run_state) : run_state :=
  fold_left (fun s c => step c s) cs s.

(** The call lists its connection, and the call takes an entry out of the
    list. *)
Definition appends (c : call) (s : run_state) : bool :=
  match c with
  | Connect ws failure => bool_decide (accept s.2 ws failure = None)
  | Disconnect _ => false
  end.

Definition removes (c : call) (s : run_state) : bool :=
  match c with
  | Connect _ _ => false
  | Disconnect ws => bool_decide (ws ∈ active_connections s.1)
  end.

(** Among the calls on the selected connections, run from [s]: how many
    listed their connection, and how many took an entry out. *)
Fixpoint connects (sel : WebSocket -> bool) (cs : list call) (s : run_state) : nat :=
  match cs with
  | [] => 0
  | c :: rest =>
      (if sel (call_websocket c) && appends c s then 1 else 0)
      + connects sel rest (step c s)
  end.

Fixpoint removals (sel : WebSocket -> bool) (cs : list call) (s : run_state) : nat :=
  match cs with
  | [] => 0
  | c :: rest =>
      (if sel (call_websocket c) && removes c s then 1 else 0)
      + removals sel rest (step c s)
  end.

(** What holds of the manager between two calls: the lock is free, no
    connection is listed twice, and every listed connection has been
    accepted. *)
Definition run_invariant (s : run_state) : Prop :=
  lock_held s.1 = false /\
  NoDup (active_connections s.1) /\
  forall ws, ws ∈ active_connections s.1 -> ws ∈ s.2.

(** The registry after the message went to the healthy connections of
    [conns]. *)
Definition sent_to (T : Transport) (message : Message) (conns : list WebSocket)
    (r : Registry) : Registry :=
  {| active_connections := active_connections r;
     lock_held := lock_held r;
     delivered :=
       delivered r ++
       map (fun ws => (ws, message))
           (List.filter (fun ws =>
              bool_decide (client_state T ws = CONNECTED) &&
              bool_decide (send_json T ws message = None)) conns) |}.

(** The connections that [broadcast] sends to successfully, and those on
    which the send raises an [Exception]. *)
Definition healthy (T : Transport) (message : Message) (ws : WebSocket) : bool :=
  bool_decide (client_state T ws = CONNECTED) &&
  bool_decide (send_json T ws message = None).

Definition failing (T : Transport) (message : Message) (ws : WebSocket) : bool :=
  bool_decide (client_state T ws = CONNECTED) &&
  match send_json T ws message with
  | Some e => is_Exception e
  | None => false
  end.

(** The connections on which the send raises what [except Exception] does
    not catch. *)
Definition cancelling (T : Transport) (message : Message) (ws : WebSocket) : bool :=
  bool_decide (client_state T ws = CONNECTED) &&
  match send_json T ws message with
  | Some e => negb (is_Exception e)
  | None => false
  end.

(** How many entries of the list are [ws]. *)
Fixpoint multiplicity (ws : WebSocket) (l : list WebSocket) : nat :=
  match l with
  | [] => 0
  | y :: l' => (if decide (y = ws) then 1 else 0) + multiplicity ws l'
  end.

End Registry.

Arguments Returned {Message A} a r.
Arguments Raised {Message A} e r.
Arguments Blocked {Message A} r.
Arguments active_connections {Message} _.
Arguments lock_held {Message} _.
Arguments delivered {Message} _.
Arguments client_state {Message} _ _.
Arguments send_json {Message} _ _ _.
Arguments ConnectionManager_init {Message}.
Arguments final_registry {Message A} o.
Arguments connect {Message} websocket accept r.
Arguments disconnect {Message} websocket r.
Arguments broadcast {Message} T message r.
Arguments run_state Message : clear implicits.
Arguments run_calls {Message} cs s.
Arguments run_call {Message} c s.
Arguments step {Message} c s.
Arguments appends {Message} c s.
Arguments removes {Message} c s.
Arguments connects {Message} sel cs s.
Arguments removals {Message} sel cs s.
Arguments healthy {Message} T message ws.
Arguments failing {Message} T message ws.
Arguments cancelling {Message} T message ws.
Arguments run_invariant {Message} s.
Arguments sent_to {Message} T message conns r.
Arguments Build_Registry {Message} _ _ _.
Arguments Build_Transport {Message} _ _.

(** ** Raising computations *)

Inductive result (A : Type) : Type :=
  | Ok (a : A)
  | Raise (e : exn).

Arguments Ok {A} a.
Arguments Raise {A} e.

Global Instance result_ret : MRet result := fun A a => Ok a.
Global Instance result_bind : MBind result := fun A B f m =>
  match m with
  | Ok a => f a
  | Raise e => Raise e
  end.
Global Instance result_fmap : FMap result := fun A B f m =>
  match m with
  | Ok a => Ok (f a)
  | Raise e => Raise e
  end.

(** A library call that signals failure with [ValueError]. *)
Definition or_ValueError {A} (msg : string) (o : option A) : result A :=
  match o with
  | Some a => Ok a
  | None => Raise (ValueError msg)
  end.

(** [try: body / except Exception: handler]. *)
Definition try_except_Exception {A} (body : result A) (handler : exn -> result A)
  : result A :=
  match body with
  | Ok a => Ok a
  | Raise e => if is_Exception e then handler e else Raise e
  end.

(** ** Python string methods *)

Definition ascii_in_range (lo hi : nat) (c : ascii) : bool :=
  (lo <=? nat_of_ascii c)%nat && (nat_of_ascii c <=? hi)%nat.

(** [c.isspace()] on the code points below 256: the ASCII white space,
    the separators U+001C to U+001F, NEL (U+0085) and the no-break space
    (U+00A0).  [str.strip] and [str.split] use the same test. *)
Definition is_space (c : ascii) : bool :=
  ascii_in_range 9 13 c || ascii_in_range 28 32 c
  || (nat_of_ascii c =? 133)%nat || (nat_of_ascii c =? 160)%nat.

(** U+00A0, which is white space. *)
Definition no_break_space : ascii := ascii_of_nat 160.

(** [c.upper()], exact on ASCII.  A code point from 128 to 255 is left as
    it is; Python maps it to itself, to another code point above 127 or, for
    U+00DF, to [SS].  [upper] is used for the prefix test of line 40 only,
    and none of these contributes a character of [POINT(], so the test reads
    the same. *)
Definition upper_ascii (c : ascii) : ascii :=
  if ascii_in_range 97 122 c then ascii_of_nat (nat_of_ascii c - 32) else c.

Fixpoint str_map (f : ascii -> ascii) (s : string) : string :=
  match s with
  | EmptyString => EmptyString
  | String c s' => String (f c) (str_map f s')
  end.

(** [s.upper()]. *)
Definition str_upper (s : string) : string := str_map upper_ascii s.

(** [s.lstrip()], [s.rstrip()], [s.strip()]. *)
Fixpoint str_lstrip (s : string) : string :=
  match s with
  | EmptyString => EmptyString
  | String c s' => if is_space c then str_lstrip s' else s
  end.

Definition str_rstrip (s : string) : string :=
  String.rev (str_lstrip (String.rev s)).

Definition str_strip (s : string) : string := str_rstrip (str_lstrip s).

(** [s.startswith(p)] and [s.endswith(p)]. *)
Definition str_startswith (p s : string) : bool := String.prefix p s.

Definition str_endswith (p s : string) : bool :=
  String.prefix (String.rev p) (String.rev s).

(** [s.find(c)] for a one-character needle: the first index, or [-1]. *)
Fixpoint str_find (c : ascii) (s : string) : Z :=
  match s with
  | EmptyString => (-1)%Z
  | String c' s' =>
      if decide (c = c') then 0%Z
      else let i := str_find c s' in
           if (i <? 0)%Z then (-1)%Z else (i + 1)%Z
  end.

(** [s[start:-1]] for [start >= 0]. *)
Definition str_slice_to_last (start : Z) (s : string) : string :=
  let n := String.length s in
  String.substring (Z.to_nat start) (n - 1 - Z.to_nat start) s.

(** [s.replace(a, b)] for one-character [a] and [b]. *)
Definition str_replace (a b : ascii) (s : string) : string :=
  str_map (fun c => if decide (c = a) then b else c) s.

(** [s.split()]: the maximal runs of non-space characters. *)
Fixpoint str_split_go (cur : option string) (s : string) : list string :=
  match s with
  | EmptyString => match cur with Some w => [String.rev w] | None => [] end
  | String c s' =>
      if is_space c then
        match cur with
        | Some w => String.rev w :: str_split_go None s'
        | None => str_split_go None s'
        end
      else
        str_split_go (Some (String c (default EmptyString cur))) s'
  end.

Definition str_split (s : string) : list string := str_split_go None s.

(** [a, b = s.split(sep, 1)]: the text before and after the first [sep];
    [None] when [s] has no [sep] (the unpacking raises [ValueError]). *)
Fixpoint str_split_once (sep : ascii) (s : string) : option (string * string) :=
  match s with
  | EmptyString => None
  | String c s' =>
      if decide (c = sep) then Some (EmptyString, s')
      else match str_split_once sep s' with
           | Some (a, b) => Some (String c a, b)
           | None => None
           end
  end.

(** Truth value of an [Optional[str]]: [None] and the empty string are
    false. *)
Definition str_truthy (o : option string) : bool :=
  match o with
  | Some s => negb (String.eqb s "")
  | None => false
  end.

(** Truth value of an [Optional[List[str]]]. *)
Definition list_truthy {A} (o : option (list A)) : bool :=
  match o with
  | Some (_ :: _) => true
  | _ => false
  end.

(** ** The Python runtime used by the query engine *)

(** The library types and functions that [insights.py] calls and does not
    define: [datetime] with its order, [isoformat] and [fromisoformat],
    subtraction of a [timedelta] of minutes, the [float] type with the
    [float] constructor from a string, and [int]/[str] on integers.  A
    library function that raises [ValueError] or [OverflowError] returns
    [None].  The laws are the ones the library documents: [fromisoformat]
    inverts [isoformat], an ISO timestamp has no vertical bar, and [int]
    reads back what [str] prints. *)
Class Runtime : Type := {
  datetime : Type;
  dt_compare : datetime -> datetime -> comparison;
  isoformat : datetime -> string;
  fromisoformat : string -> option datetime;
  str_datetime : datetime -> string;
  minus_minutes : datetime -> Z -> option datetime;
  float : Type;
  py_float : string -> option float;
  float_nonzero : float -> bool;
  str_float : float -> string;
  str_int : Z -> string;
  py_int : string -> option Z;
  fromisoformat_isoformat : forall t, fromisoformat (isoformat t) = Some t;
  isoformat_no_bar : forall t, str_find "|"%char (isoformat t) = (-1)%Z;
  py_int_str_int : forall z, py_int (str_int z) = Some z
}.

(** ** Values, rows and the stored tables *)

Section Insights.

Context {RT : Runtime}.

(** A Python value, as found in a result row or in the response. *)
#[warnings="-register-all"]
Inductive value : Type :=
  | VNone
  | VInt (z : Z)
  | VStr (s : string)
  | VFloat (x : float)
  | VTime (t : datetime)
  | VList (l : list value)
  | VDict (d : gmap string value).

(** [bool(v)]. *)
Definition truthy (v : value) : bool :=
  match v with
  | VNone => false
  | VInt z => negb (z =? 0)%Z
  | VStr s => negb (String.eqb s "")
  | VFloat x => float_nonzero x
  | VTime _ => true
  | VList l => match l with [] => false | _ => true end
  | VDict d => negb (bool_decide (d = ∅))
  end.

(** [format(v, "")], as used by an f-string field. *)
Definition format_value (v : value) : result string :=
  match v with
  | VNone => Ok "None"
  | VInt z => Ok (str_int z)
  | VStr s => Ok s
  | VFloat x => Ok (str_float x)
  | VTime t => Ok (str_datetime t)
  | VList _ | VDict _ => Raise (ValueError "format of a container is not modelled")
  end.

(** [v.isoformat()]. *)
Definition call_isoformat (v : value) : result string :=
  match v with
  | VTime t => Ok (isoformat t)
  | _ => Raise (AttributeError "isoformat")
  end.

Definition of_option_str (o : option string) : value :=
  match o with Some s => VStr s | None => VNone end.

Definition of_option_time (o : option datetime) : value :=
  match o with Some t => VTime t | None => VNone end.

Definition of_option_float (o : option float) : value :=
  match o with Some x => VFloat x | None => VNone end.

(** A SQLAlchemy [Row]: the selected columns, in order, by name. *)
Definition Row : Type := list (string * value).

(** [row.name]: a column that was not selected raises [AttributeError]. *)
Fixpoint getattr (r : Row) (name : string) : result value :=
  match r with
  | [] => Raise (AttributeError ("Could not locate column in row for column '" +:+ name +:+ "'"))
  | (c, v) :: r' => if String.eqb c name then Ok v else getattr r' name
  end.

(** Modelled from the spec: the [alerts] table, whose declaration is not
    among the sources.  An alert has a vehicle identifier, a type, a
    severity, a status, a message, a start timestamp and a
    storage-assigned identifier; the column names are those of the SQL
    text. *)
Record Alert : Type := {
  alert_id : Z;
  alert_auv_id : string;
  alert_type : string;
  alert_severity : value;
  alert_status : value;
  alert_message : value;
  alert_started_at : option datetime
}.

(** Modelled from the spec: the [telemetry] table, whose declaration is not
    among the sources.  A reading has a vehicle identifier, a timestamp,
    temperature, depth, velocity and an optional location stored as
    well-known text; the column names are those of the SQL text. *)
Record Telemetry : Type := {
  tm_auv_id : string;
  tm_timestamp : option datetime;
  tm_temperature_c : option float;
  tm_depth_m : option float;
  tm_velocity_knots : option float;
  tm_location_wkt : option string
}.

(** The storage behind [session_factory]: both tables in storage order,
    and where the engine sorts NULL ([true]: before all values in a
    descending sort, as PostgreSQL does). *)
Record Database : Type := {
  db_alerts : list Alert;
  db_telemetry : list Telemetry;
  db_nulls_largest : bool
}.

Definition alert_column (a : Alert) (c : string) : value :=
  if String.eqb c "id" then VInt (alert_id a)
  else if String.eqb c "auv_id" then VStr (alert_auv_id a)
  else if String.eqb c "type" then VStr (alert_type a)
  else if String.eqb c "severity" then alert_severity a
  else if String.eqb c "status" then alert_status a
  else if String.eqb c "message" then alert_message a
  else if String.eqb c "started_at" then of_option_time (alert_started_at a)
  else VNone.

Definition telemetry_column (t : Telemetry) (c : string) : value :=
  if String.eqb c "auv_id" then VStr (tm_auv_id t)
  else if String.eqb c "timestamp" then of_option_time (tm_timestamp t)
  else if String.eqb c "temperature_c" then of_option_float (tm_temperature_c t)
  else if String.eqb c "depth_m" then of_option_float (tm_depth_m t)
  else if String.eqb c "velocity_knots" then of_option_float (tm_velocity_knots t)
  else if String.eqb c "location_wkt" then of_option_str (tm_location_wkt t)
  else VNone.

(** [SELECT cols]: the row of one record. *)
Definition select_row {A} (column : A -> string -> value) (cols : list string) (a : A)
  : Row :=
  map (fun c => (c, column a c)) cols.

(** Order of two nullable timestamps in the engine. *)
Definition compare_nullable (nulls_largest : bool) (x y : option datetime) : comparison :=
  match x, y with
  | Some a, Some b => dt_compare a b
  | None, None => Eq
  | None, Some _ => if nulls_largest then Gt else Lt
  | Some _, None => if nulls_largest then Lt else Gt
  end.

(** A stable insertion sort: [before a b] says that [a] may precede [b]. *)
Fixpoint insert_by {A} (before : A -> A -> bool) (x : A) (l : list A) : list A :=
  match l with
  | [] => [x]
  | y :: l' => if before x y then x :: l else y :: insert_by before x l'
  end.

Definition sort_by {A} (before : A -> A -> bool) (l : list A) : list A :=
  foldr (insert_by before) [] l.

(** [LIMIT n]. *)
Definition sql_limit {A} (n : Z) (l : list A) : list A := take (Z.to_nat n) l.

(** ** The request ([InsightParams], insights.py 21-32) *)

Record InsightParams : Type := {
  auv_id : option string;
  type : option string;
  limit : Z;
  summary : bool;
  summary_modes : option (list string);
  window_minutes : Z;
  timeseries_limit : Z;
  timeseries_fields : option (list string);
  since : option datetime;
  cursor : option string
}.

Definition SUMMARY_MODES_ALLOWED : gset string := {[ "timeseries"; "stats" ]}.

Definition TIMESERIES_ALLOWED_FIELDS : gset string :=
  {[ "temperature_c"; "depth_m"; "velocity_knots"; "location" ]}.

(** ** [_parse_point_wkt] (insights.py 35-51) *)

(** The body once [wkt] is a non-empty [str]. *)
Definition point_of_text (wkt : string) : option (float * float) :=
  let wkt := str_strip wkt in
  if negb (str_startswith "POINT(" (str_upper wkt)) || negb (str_endswith ")" wkt)
  then None
  else
    let inner := str_slice_to_last (str_find "("%char wkt + 1) wkt in
    let parts := str_split (str_replace ","%char " "%char inner) in
    match parts with
    | [p0; p1] =>
        match py_float p0 with
        | Some lon =>
            match py_float p1 with
            | Some lat => Some (lon, lat)
            | None => None
            end
        | None => None
        end
    | _ => None
    end.

Definition _parse_point_wkt (wkt : value) : result (option (float * float)) :=
  if negb (truthy wkt) then Ok None
  else match wkt with
       | VStr s => Ok (point_of_text s)
       | _ => Raise (AttributeError "strip")
       end.

(** ** [fetch_insights] (insights.py 54-225) *)

(** Lines 61-62: both limits are clamped by assignment to the fields of
    the caller's object. *)
Definition normalize (p : InsightParams) : InsightParams :=
  {| auv_id := auv_id p;
     type := type p;
     limit := Z.max 1 (Z.min (limit p) 100);
     summary := summary p;
     summary_modes := summary_modes p;
     window_minutes := window_minutes p;
     timeseries_limit := Z.max 10 (Z.min (timeseries_limit p) 2000);
     timeseries_fields := timeseries_fields p;
     since := since p;
     cursor := cursor p |}.

(** Lines 68-70: [if m not in modes: modes.append(m)]. *)
Definition append_new (modes : list string) (m : string) : list string :=
  if bool_decide (m ∈ modes) then modes else modes ++ [m].

(** Lines 64-71: the active summary modes. *)
Definition active_modes (p : InsightParams) : list string :=
  let modes := [] in
  let modes :=
    if summary p && negb (list_truthy (summary_modes p))
    then modes ++ ["timeseries"] else modes in
  let modes :=
    if list_truthy (summary_modes p)
    then fold_left append_new (default [] (summary_modes p)) modes
    else modes in
  List.filter (fun m => bool_decide (m ∈ SUMMARY_MODES_ALLOWED)) modes.

(** The predicates of the listing's WHERE clause, each with the parameter
    the code binds for it. *)
Inductive clause : Type :=
  | auv_id_eq (auv_id : string)
  | type_eq (type : string)
  | started_after (since : datetime)
  | before_cursor (cursor_started_at : datetime) (cursor_id : Z).

Definition clause_sql (c : clause) : string :=
  match c with
  | auv_id_eq _ => "auv_id = :auv_id"
  | type_eq _ => "type = :type"
  | started_after _ => "started_at > :since"
  | before_cursor _ _ =>
      "(started_at < :cursor_started_at OR (started_at = :cursor_started_at AND id < :cursor_id))"
  end.

(** Lines 87-89: the cursor is split at its first bar and both halves are
    parsed. *)
Definition decode_cursor (cursor : string) : result (datetime * Z) :=
  '(c_time, c_id) ← or_ValueError "not enough values to unpack"
                       (str_split_once "|"%char cursor);
  c_dt ← or_ValueError "Invalid isoformat string" (fromisoformat c_time);
  c_id_int ← or_ValueError "invalid literal for int()" (py_int c_id);
  Ok (c_dt, c_id_int).

(** Lines 74-94. *)
Definition build_filters (p : InsightParams) : result (list clause) :=
  let filters := [] in
  let filters :=
    if str_truthy (auv_id p)
    then filters ++ [auv_id_eq (default "" (auv_id p))] else filters in
  let filters :=
    if str_truthy (type p)
    then filters ++ [type_eq (default "" (type p))] else filters in
  let filters :=
    match since p with
    | Some s => filters ++ [started_after s]
    | None => filters
    end in
  if str_truthy (cursor p) then
    try_except_Exception
      ('(c_dt, c_id_int) ← decode_cursor (default "" (cursor p));
       Ok (filters ++ [before_cursor c_dt c_id_int]))
      (fun _ => Ok filters)
  else Ok filters.

(** A row satisfies a predicate when the predicate is true; a comparison
    with NULL is not. *)
Definition clause_holds (c : clause) (a : Alert) : bool :=
  match c with
  | auv_id_eq v => String.eqb (alert_auv_id a) v
  | type_eq v => String.eqb (alert_type a) v
  | started_after s =>
      match alert_started_at a with
      | Some t => match dt_compare t s with Gt => true | _ => false end
      | None => false
      end
  | before_cursor ct ci =>
      match alert_started_at a with
      | Some t =>
          match dt_compare t ct with
          | Lt => true
          | Eq => (alert_id a <? ci)%Z
          | Gt => false
          end
      | None => false
      end
  end.

(** [ORDER BY started_at DESC, id DESC]. *)
Definition listing_before (nulls_largest : bool) (a b : Alert) : bool :=
  match compare_nullable nulls_largest (alert_started_at a) (alert_started_at b) with
  | Gt => true
  | Lt => false
  | Eq => (alert_id b <=? alert_id a)%Z
  end.

Definition listing_columns : list string :=
  ["auv_id"; "type"; "severity"; "status"; "message"; "started_at"].

(** The listing query (lines 96-104) run against the store. *)
Definition matching_alerts (db : Database) (filters : list clause) : list Alert :=
  sort_by (listing_before (db_nulls_largest db))
    (List.filter (fun a => forallb (fun c => clause_holds c a) filters) (db_alerts db)).

Definition execute_listing (db : Database) (filters : list clause) (limit : Z)
  : list Row :=
  map (select_row alert_column listing_columns)
      (sql_limit limit (matching_alerts db filters)).

(** [x.isoformat() if x else None]. *)
Definition isoformat_or_None (x : value) : result value :=
  if truthy x then VStr <$> call_isoformat x else Ok VNone.

(** Lines 111-120: the dictionary built for one row. *)
Definition alert_dict (r : Row) : result (gmap string value) :=
  v_auv_id ← getattr r "auv_id";
  v_type ← getattr r "type";
  v_severity ← getattr r "severity";
  v_status ← getattr r "status";
  v_message ← getattr r "message";
  v_started_at ← getattr r "started_at";
  v_iso ← isoformat_or_None v_started_at;
  Ok (<["started_at" := v_iso]>
      (<["message" := v_message]>
      (<["status" := v_status]>
      (<["severity" := v_severity]>
      (<["type" := v_type]>
      (<["auv_id" := v_auv_id]> ∅)))))).

(** Line 124: [f"{last.started_at.isoformat()}|{last.id}"]. *)
Definition cursor_fstring (last_row : Row) : result string :=
  v_started_at ← getattr last_row "started_at";
  iso ← call_isoformat v_started_at;
  v_id ← getattr last_row "id";
  id_text ← format_value v_id;
  Ok (iso +:+ "|" +:+ id_text).

(** Lines 121-124. *)
Definition next_cursor_of (rows : list Row) (limit : Z) : result (option string) :=
  if negb (bool_decide (rows = [])) && (Z.of_nat (length rows) =? limit)%Z then
    match last rows with
    | Some last_row =>
        v_started_at ← getattr last_row "started_at";
        match v_started_at with
        | VNone => Ok None
        | _ => Some <$> cursor_fstring last_row
        end
    | None => Ok None
    end
  else Ok None.

(** Line 134: [datetime.now(timezone.utc) - timedelta(minutes=...)]; [now]
    is the clock reading. *)
Definition window_start_of (now : datetime) (p : InsightParams) : result datetime :=
  match minus_minutes now (window_minutes p) with
  | Some t => Ok t
  | None => Raise (OverflowError "date value out of range")
  end.

(** Lines 140-143.  [list(TIMESERIES_ALLOWED_FIELDS)] enumerates the set in
    an order that Python leaves open; [elements] fixes one. *)
Definition requested_fields_of (p : InsightParams) : list string :=
  if list_truthy (timeseries_fields p)
  then List.filter (fun f => bool_decide (f ∈ TIMESERIES_ALLOWED_FIELDS))
                   (default [] (timeseries_fields p))
  else elements TIMESERIES_ALLOWED_FIELDS.

Definition telemetry_columns : list string :=
  ["timestamp"; "temperature_c"; "depth_m"; "velocity_knots"; "location_wkt"].

(** [WHERE auv_id = :auv_id AND timestamp >= :window_start]. *)
Definition telemetry_in_window (auv : string) (window_start : datetime) (t : Telemetry)
  : bool :=
  String.eqb (tm_auv_id t) auv &&
  match tm_timestamp t with
  | Some ts => match dt_compare ts window_start with Lt => false | _ => true end
  | None => false
  end.

(** [ORDER BY timestamp ASC]. *)
Definition timeseries_before (nulls_largest : bool) (a b : Telemetry) : bool :=
  match compare_nullable nulls_largest (tm_timestamp a) (tm_timestamp b) with
  | Gt => false
  | _ => true
  end.

(** The telemetry query (lines 144-157) run against the store. *)
Definition execute_timeseries (db : Database) (auv : string) (window_start : datetime)
    (ts_limit : Z) : list Row :=
  map (select_row telemetry_column telemetry_columns)
      (sql_limit ts_limit
         (sort_by (timeseries_before (db_nulls_largest db))
            (List.filter (telemetry_in_window auv window_start) (db_telemetry db)))).

(** Line 163: [{"lon": ll[0], "lat": ll[1]} if ll else None]. *)
Definition location_of (ll : option (float * float)) : value :=
  match ll with
  | Some (lon, lat) => VDict (<["lat" := VFloat lat]> (<["lon" := VFloat lon]> ∅))
  | None => VNone
  end.

(** [if key in requested_fields: pt[key] = v]. *)
Definition set_if_requested (requested_fields : list string) (key : string)
    (v : result value) (pt : gmap string value) : result (gmap string value) :=
  if bool_decide (key ∈ requested_fields)
  then x ← v; Ok (<[key := x]> pt)
  else Ok pt.

(** Lines 162-173: the point built for one telemetry row. *)
Definition make_point (requested_fields : list string) (row : Row)
  : result (gmap string value) :=
  v_wkt ← getattr row "location_wkt";
  ll ← _parse_point_wkt v_wkt;
  let loc := location_of ll in
  v_timestamp ← getattr row "timestamp";
  v_iso ← isoformat_or_None v_timestamp;
  let pt := <["timestamp" := v_iso]> ∅ in
  pt ← set_if_requested requested_fields "temperature_c" (getattr row "temperature_c") pt;
  pt ← set_if_requested requested_fields "depth_m" (getattr row "depth_m") pt;
  pt ← set_if_requested requested_fields "velocity_knots" (getattr row "velocity_knots") pt;
  pt ← set_if_requested requested_fields "location" (Ok loc) pt;
  Ok pt.

(** Lines 140-180: the [timeseries] block. *)
Definition timeseries_summary (db : Database) (window_start : datetime)
    (p : InsightParams) : result value :=
  let requested_fields := requested_fields_of p in
  let rows := execute_timeseries db (default "" (auv_id p)) window_start
                (timeseries_limit p) in
  points ← mapM (make_point requested_fields) rows;
  Ok (VDict (<["count" := VInt (Z.of_nat (length points))]>
            (<["points" := VList (VDict <$> points)]>
            (<["fields" := VList (VStr <$> requested_fields)]>
            (<["window_minutes" := VInt (window_minutes p)]>
            (<["auv_id" := of_option_str (auv_id p)]> ∅)))))).

(** Lines 184-192: the filters of the stats queries. *)
Definition stats_filters_of (p : InsightParams) : list clause :=
  let stats_filters := [] in
  let stats_filters :=
    if str_truthy (auv_id p)
    then stats_filters ++ [auv_id_eq (default "" (auv_id p))] else stats_filters in
  if str_truthy (type p)
  then stats_filters ++ [type_eq (default "" (type p))] else stats_filters.

(** [MAX(started_at)]: NULL is skipped; no value gives NULL. *)
Definition max_started_at (l : list Alert) : option datetime :=
  fold_left (fun acc a =>
    match acc, alert_started_at a with
    | Some m, Some t => match dt_compare t m with Gt => Some t | _ => Some m end
    | None, Some t => Some t
    | _, None => acc
    end) l None.

(** [SUM(CASE WHEN started_at >= :window_start THEN 1 ELSE 0 END)]: NULL
    over no row. *)
Definition sum_in_window (window_start : datetime) (l : list Alert) : value :=
  match l with
  | [] => VNone
  | _ =>
      VInt (Z.of_nat (length (List.filter (fun a =>
        match alert_started_at a with
        | Some t => match dt_compare t window_start with Lt => false | _ => true end
        | None => false
        end) l)))
  end.

(** The aggregate query (lines 193-202): one row. *)
Definition execute_stats (db : Database) (stats_filters : list clause)
    (window_start : datetime) : list Row :=
  let l := List.filter (fun a => forallb (fun c => clause_holds c a) stats_filters)
             (db_alerts db) in
  [[("total_alerts", VInt (Z.of_nat (length l)));
    ("latest_alert", of_option_time (max_started_at l));
    ("alerts_in_window", sum_in_window window_start l)]].

(** The grouped query (lines 203-210): one row per type. *)
Definition execute_by_type (db : Database) (stats_filters : list clause) : list Row :=
  let l := List.filter (fun a => forallb (fun c => clause_holds c a) stats_filters)
             (db_alerts db) in
  map (fun ty =>
         [("type", VStr ty);
          ("c", VInt (Z.of_nat (length (List.filter (fun a => String.eqb (alert_type a) ty) l))))])
      (remove_dups (map alert_type l)).

(** Line 215: [{r.type: r.c for r in rows}]; a key that is not a [str] is
    outside the model. *)
Definition by_type_dict (rows : list Row) : result (gmap string value) :=
  foldl (fun acc r =>
           d ← acc;
           k ← getattr r "type";
           c ← getattr r "c";
           match k with
           | VStr s => Ok (<[s := c]> d)
           | _ => Raise (ValueError "key")
           end) (Ok ∅) rows.

(** Lines 211-222: the [stats] block. *)
Definition stats_summary (db : Database) (window_start : datetime) (p : InsightParams)
  : result value :=
  let stats_filters := stats_filters_of p in
  let row_s := head (execute_stats db stats_filters window_start) in
  alerts_by_type ← by_type_dict (execute_by_type db stats_filters);
  total ← match row_s with Some r => getattr r "total_alerts" | None => Ok (VInt 0) end;
  in_window ← match row_s with Some r => getattr r "alerts_in_window" | None => Ok (VInt 0) end;
  latest ← match row_s with
           | Some r =>
               v ← getattr r "latest_alert";
               if truthy v then VStr <$> call_isoformat v else Ok VNone
           | None => Ok VNone
           end;
  Ok (VDict (<["alerts_by_type" := VDict alerts_by_type]>
            (<["latest_alert_timestamp" := latest]>
            (<["alerts_in_window" := in_window]>
            (<["total_alerts" := total]>
            (<["window_minutes" := VInt (window_minutes p)]> ∅)))))).

(** Lines 133-225: what follows [if not modes: return out]. *)
Definition add_summaries (db : Database) (now : datetime) (p : InsightParams)
    (modes : list string) (out : gmap string value) : result (gmap string value) :=
  let summaries : gmap string value := ∅ in
  window_start ← window_start_of now p;
  summaries ←
    (if bool_decide ("timeseries" ∈ modes) then
       if negb (str_truthy (auv_id p))
       then Ok (<["timeseries_error" := VStr "timeseries summary requires auv_id"]> summaries)
       else ts ← timeseries_summary db window_start p;
            Ok (<["timeseries" := ts]> summaries)
     else Ok summaries);
  summaries ←
    (if bool_decide ("stats" ∈ modes) then
       st ← stats_summary db window_start p;
       Ok (<["stats" := st]> summaries)
     else Ok summaries);
  Ok (<["summaries" := VDict summaries]> out).

(** Lines 63-225, on the object whose limits have been clamped. *)
Definition fetch_insights_body (db : Database) (now : datetime) (p : InsightParams)
  : result (gmap string value) :=
  let modes := active_modes p in
  filters ← build_filters p;
  let rows := execute_listing db filters (limit p) in
  alerts ← mapM alert_dict rows;
  next_cursor ← next_cursor_of rows (limit p);
  let out : gmap string value := <["alerts" := VList (VDict <$> alerts)]> ∅ in
  let out :=
    if str_truthy next_cursor
    then <["pagination" := VDict (<["next_cursor" := of_option_str next_cursor]> ∅)]> out
    else out in
  if bool_decide (modes = []) then Ok out
  else add_summaries db now p modes out.

(** [fetch_insights]: the caller's [insight_params] object after the call,
    and the returned dictionary or the exception raised.  The store answers
    every query; a failing query is outside the model. *)
Definition fetch_insights (db : Database) (now : datetime)
    (insight_params : InsightParams)
  : InsightParams * result (gmap string value) :=
  let insight_params := normalize insight_params in
  (insight_params, fetch_insights_body db now insight_params).

(** ** Definitions that follow the specification's wording *)

(** "The client-specified mode list, de-duplicated preserving first-seen
    order": an entry is kept when it has not been seen before. *)
Fixpoint first_seen (seen : list string) (l : list string) : list string :=
  match l with
  | [] => []
  | m :: rest =>
      if bool_decide (m ∈ seen) then first_seen seen rest
      else m :: first_seen (seen ++ [m]) rest
  end.

(** "If summary=true and no explicit mode list is given, default to
    {timeseries}; otherwise take the client-specified mode list,
    de-duplicated preserving first-seen order, intersected with the allowed
    mode set." *)
Definition spec_active_modes (p : InsightParams) : list string :=
  if summary p && negb (list_truthy (summary_modes p)) then ["timeseries"]
  else List.filter (fun m => bool_decide (m ∈ SUMMARY_MODES_ALLOWED))
                   (first_seen [] (default [] (summary_modes p))).

(** "A well-known geometric point encoding POINT(lon lat)": each of the two
    numbers is a text that is not empty and has no white space and no
    comma. *)
Fixpoint plain_chars (s : string) : bool :=
  match s with
  | EmptyString => true
  | String c s' => negb (is_space c) && negb (bool_decide (c = ","%char)) && plain_chars s'
  end.

Definition is_word (s : string) : bool :=
  negb (String.eqb s "") && plain_chars s.

(** "A structurally invalid cursor string": it has no bar, or the text
    before the first bar is not an ISO timestamp, or the text after it is
    not an integer. *)
Definition malformed_cursor (c : string) : Prop :=
  match str_split_once "|"%char c with
  | None => True
  | Some (c_time, c_id) => fromisoformat c_time = None \/ py_int c_id = None
  end.

(** The request with some fields replaced. *)
Definition with_cursor (c : option string) (p : InsightParams) : InsightParams :=
  {| auv_id := auv_id p; type := type p; limit := limit p; summary := summary p;
     summary_modes := summary_modes p; window_minutes := window_minutes p;
     timeseries_limit := timeseries_limit p;
     timeseries_fields := timeseries_fields p; since := since p; cursor := c |}.

Definition with_modes (s : bool) (ms : option (list string)) (p : InsightParams)
  : InsightParams :=
  {| auv_id := auv_id p; type := type p; limit := limit p; summary := s;
     summary_modes := ms; window_minutes := window_minutes p;
     timeseries_limit := timeseries_limit p;
     timeseries_fields := timeseries_fields p; since := since p; cursor := cursor p |}.

Definition with_limits (l tl : Z) (p : InsightParams) : InsightParams :=
  {| auv_id := auv_id p; type := type p; limit := l; summary := summary p;
     summary_modes := summary_modes p; window_minutes := window_minutes p;
     timeseries_limit := tl;
     timeseries_fields := timeseries_fields p; since := since p; cursor := cursor p |}.

(** The reading with another location encoding. *)
Definition with_location (wkt : option string) (t : Telemetry) : Telemetry :=
  {| tm_auv_id := tm_auv_id t; tm_timestamp := tm_timestamp t;
     tm_temperature_c := tm_temperature_c t; tm_depth_m := tm_depth_m t;
     tm_velocity_knots := tm_velocity_knots t; tm_location_wkt := wkt |}.

(** The rows that the two queries return for a stored record. *)
Definition telemetry_row (t : Telemetry) : Row :=
  select_row telemetry_column telemetry_columns t.

Definition alert_row (a : Alert) : Row :=
  select_row alert_column listing_columns a.

(** What [_parse_point_wkt] yields for a stored encoding. *)
Definition decoded_location (wkt : option string) : option (float * float) :=
  match wkt with
  | Some s => if String.eqb s "" then None else point_of_text s
  | None => None
  end.

(** The timestamp entry of a point or of an alert. *)
Definition iso_or_null (o : option datetime) : value :=
  match o with
  | Some t => VStr (isoformat t)
  | None => VNone
  end.

(** The point that [make_point] builds for a stored reading. *)
Definition point_of_reading (requested_fields : list string) (t : Telemetry)
  : gmap string value :=
  let pt : gmap string value := <["timestamp" := iso_or_null (tm_timestamp t)]> ∅ in
  let pt := if bool_decide ("temperature_c" ∈ requested_fields)
            then <["temperature_c" := of_option_float (tm_temperature_c t)]> pt else pt in
  let pt := if bool_decide ("depth_m" ∈ requested_fields)
            then <["depth_m" := of_option_float (tm_depth_m t)]> pt else pt in
  let pt := if bool_decide ("velocity_knots" ∈ requested_fields)
            then <["velocity_knots" := of_option_float (tm_velocity_knots t)]> pt else pt in
  if bool_decide ("location" ∈ requested_fields)
  then <["location" := location_of (decoded_location (tm_location_wkt t))]> pt else pt.

(** The dictionary that [alert_dict] builds for a stored alert. *)
Definition dict_of_alert (a : Alert) : gmap string value :=
  <["started_at" := iso_or_null (alert_started_at a)]>
  (<["message" := alert_message a]>
  (<["status" := alert_status a]>
  (<["severity" := alert_severity a]>
  (<["type" := VStr (alert_type a)]>
  (<["auv_id" := VStr (alert_auv_id a)]> ∅))))).

(** The page is full and its last row has a start timestamp: the condition
    under which lines 121-124 build a cursor. *)
Definition cursor_due (l : list Alert) (limit : Z) : bool :=
  negb (bool_decide (l = [])) && (Z.of_nat (length l) =? limit)%Z &&
  match last l with
  | Some a => bool_decide (is_Some (alert_started_at a))
  | None => false
  end.

(** The alerts of the page that the listing query selects. *)
Definition page (db : Database) (filters : list clause) (limit : Z) : list Alert :=
  sql_limit limit (matching_alerts db filters).

(** A stored alert of vehicle [auv-1] that started at [t]. *)
Definition alert_at (id : Z) (t : datetime) : Alert :=
  {| alert_id := id; alert_auv_id := "auv-1"; alert_type := "environmental";
     alert_severity := VStr "high"; alert_status := VStr "active";
     alert_message := VStr "temperature out of range";
     alert_started_at := Some t |}.

(** The message of the exception raised by [last.id]. *)
Definition no_id_column : exn :=
  AttributeError "Could not locate column in row for column 'id'".

(** The request with default values, as the dataclass builds it. *)
Definition default_params : InsightParams :=
  {| auv_id := None; type := None; limit := 20; summary := false;
     summary_modes := None; window_minutes := 20; timeseries_limit := 30;
     timeseries_fields := None; since := None; cursor := None |}.

End Insights.

(** ** The telemetry ingestion loop ([monitor_telemetry], main.py 104-151) *)

(** [aiohttp.WSMsgType]. *)
Inductive WSMsgType : Type :=
  | CONTINUATION | TEXT | BINARY | PING | PONG | CLOSE | CLOSING | CLOSED | ERROR.

Record WSMessage : Type := {
  msg_type : WSMsgType;
  msg_data : string
}.

(** What [async for msg in ws] produces next: a message, or an exception
    raised by the transport.  The end of the list ends the iteration. *)
Inductive frame : Type :=
  | Msg (m : WSMessage)
  | Fault (e : exn).

(** What the upstream does on one connection attempt. *)
Inductive upstream : Type :=
  | ConnectFails (e : exn)
  | Session (frames : list frame).

(** One round of the loop as the environment plays it: the upstream, and
    whether the task is cancelled while it sleeps. *)
Record attempt : Type := {
  att_upstream : upstream;
  att_cancelled_in_sleep : bool
}.

(** What the loop does that is visible outside: connection attempts,
    broadcasts and sleeps.  Printing is left out. *)
Inductive event (Alert : Type) : Type :=
  | EvConnect
  | EvBroadcast (alert : Alert)
  | EvSleep (seconds : Z).

Arguments EvConnect {Alert}.
Arguments EvBroadcast {Alert} alert.
Arguments EvSleep {Alert} seconds.

Section Ingestion.

(** The decoded reading, the alert and the broadcast envelope. *)
Variables Reading AlertData Message : Type.

(** [json.loads], [env_monitor.check_thresholds] (a false result is
    [None]) and the envelope [{"type": "alert", "data": alert,
    "timestamp": ...}] built at line 113. *)
Variable json_loads : string -> result Reading.
Variable check_thresholds : Reading -> result (option AlertData).
Variable envelope : AlertData -> Message.

(** The subscribers' side during the run. *)
Variable T : Transport Message.

Record loop_state : Type := {
  manager : Registry Message;
  trace : list (event AlertData)
}.

Definition record_event (e : event AlertData) (st : loop_state) : loop_state :=
  {| manager := manager st; trace := trace st ++ [e] |}.

(** How a piece of the loop body ends. *)
Inductive flow : Type :=
  | Next (st : loop_state)
  | Throw (e : exn) (st : loop_state)
  | Stuck (st : loop_state).

(** Line 108. *)
Definition reconnect_delay : Z := 5.

(** [check_for_alert] (lines 110-118). *)
Definition check_for_alert (telemetry : Reading) (st : loop_state) : flow :=
  match check_thresholds telemetry with
  | Raise e => Throw e st
  | Ok None => Next st
  | Ok (Some alert) =>
      let st := record_event (EvBroadcast alert) st in
      match broadcast T (envelope alert) (manager st) with
      | Returned _ r => Next {| manager := r; trace := trace st |}
      | Raised e r => Throw e {| manager := r; trace := trace st |}
      | Blocked r => Stuck {| manager := r; trace := trace st |}
      end
  end.

(** [isinstance(e, json.JSONDecodeError)]. *)
Definition is_JSONDecodeError (e : exn) : bool :=
  match e with
  | JSONDecodeError _ => true
  | _ => false
  end.

(** Lines 133-137: the [try] around one text message. *)
Definition handle_text (data : string) (st : loop_state) : flow :=
  let body :=
    match json_loads data with
    | Raise e => Throw e st
    | Ok telemetry => check_for_alert telemetry st
    end in
  match body with
  | Throw e st' => if is_JSONDecodeError e then Next st' else Throw e st'
  | other => other
  end.

(** Lines 130-143: the [async for] over the incoming frames. *)
Fixpoint consume (frames : list frame) (st : loop_state) : flow :=
  match frames with
  | [] => Next st
  | Fault e :: _ => Throw e st
  | Msg msg :: rest =>
      match msg_type msg with
      | TEXT =>
          match handle_text (msg_data msg) st with
          | Next st' => consume rest st'
          | other => other
          end
      | ERROR => Next st
      | CLOSED => Next st
      | _ => consume rest st
      end
  end.

(** Lines 121-148: one pass through the [try] statement.  Both handlers
    print and fall through; an exception that is not an [Exception] is not
    caught. *)
Definition iteration (u : upstream) (st : loop_state) : flow :=
  let st := record_event EvConnect st in
  let body :=
    match u with
    | ConnectFails e => Throw e st
    | Session frames => consume frames st
    end in
  match body with
  | Throw e st' =>
      if is_ClientError e then Next st'
      else if is_Exception e then Next st'
      else Throw e st'
  | other => other
  end.

(** Where the task is after some rounds. *)
Inductive loop_result : Type :=
  | Running (st : loop_state)
  | Terminated (e : exn) (st : loop_state)
  | Suspended (st : loop_state).

(** [monitor_telemetry]: the first [n] rounds of [while True], round [k]
    played against [feed k]. *)
Fixpoint monitor_telemetry (feed : nat -> attempt) (k n : nat) (st : loop_state)
  : loop_result :=
  match n with
  | 0 => Running st
  | S n' =>
      match iteration (att_upstream (feed k)) st with
      | Next st' =>
          let st' := record_event (EvSleep reconnect_delay) st' in
          if att_cancelled_in_sleep (feed k) then Terminated CancelledError st'
          else monitor_telemetry feed (S k) n' st'
      | Throw e st' => Terminated e st'
      | Stuck st' => Suspended st'
      end
  end.

(** The environment never cancels the task: every exception it raises is
    an error. *)
Definition frame_is_error (f : frame) : bool :=
  match f with
  | Msg _ => true
  | Fault e => is_Exception e
  end.

Definition errors_only (a : attempt) : bool :=
  negb (att_cancelled_in_sleep a) &&
  match att_upstream a with
  | ConnectFails e => is_Exception e
  | Session frames => forallb frame_is_error frames
  end.

(** The events of one completed round: a connection attempt, the
    broadcasts of the session, the sleep. *)
Definition round_events (alerts : list AlertData) : list (event AlertData) :=
  EvConnect :: map EvBroadcast alerts ++ [EvSleep reconnect_delay].

(** The state in which a piece of the loop body ends. *)
Definition flow_state (f : flow) : loop_state :=
  match f with
  | Next st => st
  | Throw _ st => st
  | Stuck st => st
  end.

(** The piece raised nothing but errors. *)
Definition flow_raises_errors_only (f : flow) : Prop :=
  match f with
  | Throw e _ => is_Exception e = true
  | _ => True
  end.

(** A piece of the loop body that waits forever waits for the registry
    lock. *)
Definition flow_lock (f : flow) : Prop :=
  match f with
  | Stuck st => lock_held (manager st) = true
  | _ => True
  end.

(** The piece of the loop body does not wait, and it leaves the lock
    free. *)
Definition flow_free (f : flow) : Prop :=
  match f with
  | Stuck _ => False
  | other => lock_held (manager (flow_state other)) = false
  end.

(** Every sleep among the events lasts the reconnect delay. *)
Definition sleeps_fixed (evs : list (event AlertData)) : Prop :=
  Forall (fun ev => match ev with EvSleep s => s = reconnect_delay | _ => True end) evs.

(** A frame that leads to no broadcast: a control frame, a text that is not
    JSON, or a reading for which the threshold check reports nothing. *)
Definition quiet_frame (f : frame) : Prop :=
  match f with
  | Fault _ => False
  | Msg msg =>
      match msg_type msg with
      | TEXT =>
          (exists why, json_loads (msg_data msg) = Raise (JSONDecodeError why)) \/
          (exists reading, json_loads (msg_data msg) = Ok reading /\
                           check_thresholds reading = Ok None)
      | _ => True
      end
  end.

(** The text frame that carries a reading. *)
Definition text_frame (data : string) : frame :=
  Msg {| msg_type := TEXT; msg_data := data |}.

End Ingestion.

Arguments manager {AlertData Message} _.
Arguments trace {AlertData Message} _.
Arguments Running {AlertData Message} st.
Arguments Terminated {AlertData Message} e st.
Arguments Suspended {AlertData Message} st.
Arguments Next {AlertData Message} st.
Arguments Throw {AlertData Message} e st.
Arguments Stuck {AlertData Message} st.
Arguments round_events {AlertData} alerts.
Arguments sleeps_fixed {AlertData} evs.

(** ** A runtime that satisfies the laws

    Naive datetimes with whole seconds, printed as [YYYY-MM-DDTHH:MM:SS];
    integers in decimal; decimal literals read as reduced fractions in place
    of binary floating point.  The general theorems below hold for every
    [Runtime]; this one is used to run the code on concrete requests. *)

Module PlainRuntime.

Record civil : Type := {
  year : nat; month : nat; day : nat;
  hour : nat; minute : nat; second : nat
}.

Definition is_leap (y : nat) : bool :=
  (y mod 4 =? 0)%nat && (negb (y mod 100 =? 0)%nat || (y mod 400 =? 0)%nat).

Definition days_in_month (y m : nat) : nat :=
  match m with
  | 2 => if is_leap y then 29 else 28
  | 4 | 6 | 9 | 11 => 30
  | _ => 31
  end.

Definition civil_valid (c : civil) : bool :=
  (1 <=? year c)%nat && (year c / 100 <? 100)%nat &&
  (1 <=? month c)%nat && (month c <=? 12)%nat &&
  (1 <=? day c)%nat && (day c <=? days_in_month (year c) (month c))%nat &&
  (hour c <? 24)%nat && (minute c <? 60)%nat && (second c <? 60)%nat.

Definition naive_datetime : Type := { c : civil | Is_true (civil_valid c) }.

Definition digit_char (d : nat) : ascii :=
  match d with
  | 0 => "0" | 1 => "1" | 2 => "2" | 3 => "3" | 4 => "4"
  | 5 => "5" | 6 => "6" | 7 => "7" | 8 => "8" | _ => "9"
  end%char.

Definition digit_val (c : ascii) : option nat :=
  let n := nat_of_ascii c in
  if (48 <=? n)%nat && (n <=? 57)%nat then Some (n - 48) else None.

Definition hi (n : nat) : ascii := digit_char (n / 10).
Definition lo (n : nat) : ascii := digit_char (n mod 10).

Definition civil_chars (sep : ascii) (c : civil) : list ascii :=
  [hi (year c / 100); lo (year c / 100); hi (year c mod 100); lo (year c mod 100);
   "-"%char; hi (month c); lo (month c);
   "-"%char; hi (day c); lo (day c);
   sep; hi (hour c); lo (hour c);
   ":"%char; hi (minute c); lo (minute c);
   ":"%char; hi (second c); lo (second c)].

Definition civil_isoformat (sep : ascii) (c : civil) : string :=
  string_of_list_ascii (civil_chars sep c).

Definition read2 (a b : ascii) : option nat :=
  x ← digit_val a; y ← digit_val b; Some (10 * x + y).

Definition civil_fromisoformat (s : string) : option civil :=
  match list_ascii_of_string s with
  | [y1; y2; y3; y4; s1; m1; m2; s2; d1; d2; _; h1; h2; s4; n1; n2; s5; c1; c2] =>
      if bool_decide (s1 = "-"%char ∧ s2 = "-"%char ∧ s4 = ":"%char ∧ s5 = ":"%char)
      then
        yh ← read2 y1 y2; yl ← read2 y3 y4;
        m ← read2 m1 m2; d ← read2 d1 d2;
        h ← read2 h1 h2; n ← read2 n1 n2; c ← read2 c1 c2;
        Some {| year := 100 * yh + yl; month := m; day := d;
                hour := h; minute := n; second := c |}
      else None
  | _ => None
  end.

Definition check_civil (c : civil) : option naive_datetime :=
  match decide (Is_true (civil_valid c)) with
  | left H => Some (c ↾ H)
  | right _ => None
  end.

Definition naive_isoformat (t : naive_datetime) : string :=
  civil_isoformat "T" (`t).

Definition naive_str (t : naive_datetime) : string :=
  civil_isoformat " " (`t).

Definition naive_fromisoformat (s : string) : option naive_datetime :=
  c ← civil_fromisoformat s; check_civil c.

Definition compare_then (c : comparison) (d : comparison) : comparison :=
  match c with Eq => d | _ => c end.

Definition naive_compare (a b : naive_datetime) : comparison :=
  compare_then (Nat.compare (year (`a)) (year (`b)))
 (compare_then (Nat.compare (month (`a)) (month (`b)))
 (compare_then (Nat.compare (day (`a)) (day (`b)))
 (compare_then (Nat.compare (hour (`a)) (hour (`b)))
 (compare_then (Nat.compare (minute (`a)) (minute (`b)))
               (Nat.compare (second (`a)) (second (`b))))))).

(** Days since 1970-01-01 of a date of the proleptic Gregorian calendar,
    and back. *)
Definition days_from_civil (y m d : Z) : Z :=
  let y := if (m <=? 2)%Z then (y - 1)%Z else y in
  let era := (y / 400)%Z in
  let yoe := (y - era * 400)%Z in
  let mp := if (2 <? m)%Z then (m - 3)%Z else (m + 9)%Z in
  let doy := ((153 * mp + 2) / 5 + d - 1)%Z in
  let doe := (yoe * 365 + yoe / 4 - yoe / 100 + doy)%Z in
  (era * 146097 + doe - 719468)%Z.

Definition civil_from_days (z : Z) : Z * Z * Z :=
  let z := (z + 719468)%Z in
  let era := (z / 146097)%Z in
  let doe := (z - era * 146097)%Z in
  let yoe := ((doe - doe / 1460 + doe / 36524 - doe / 146096) / 365)%Z in
  let y := (yoe + era * 400)%Z in
  let doy := (doe - (365 * yoe + yoe / 4 - yoe / 100))%Z in
  let mp := ((5 * doy + 2) / 153)%Z in
  let d := (doy - (153 * mp + 2) / 5 + 1)%Z in
  let m := if (mp <? 10)%Z then (mp + 3)%Z else (mp - 9)%Z in
  (if (m <=? 2)%Z then (y + 1)%Z else y, m, d).

Definition seconds_of (c : civil) : Z :=
  (days_from_civil (Z.of_nat (year c)) (Z.of_nat (month c)) (Z.of_nat (day c)) * 86400
   + Z.of_nat (hour c) * 3600 + Z.of_nat (minute c) * 60 + Z.of_nat (second c))%Z.

Definition civil_of_seconds (s : Z) : option civil :=
  let '(y, m, d) := civil_from_days (s / 86400) in
  let r := (s mod 86400)%Z in
  if (y <? 0)%Z then None
  else Some {| year := Z.to_nat y; month := Z.to_nat m; day := Z.to_nat d;
               hour := Z.to_nat (r / 3600);
               minute := Z.to_nat (r mod 3600 / 60);
               second := Z.to_nat (r mod 60) |}.

Definition naive_minus_minutes (t : naive_datetime) (m : Z) : option naive_datetime :=
  c ← civil_of_seconds (seconds_of (`t) - 60 * m); check_civil c.

(** A fraction in lowest terms. *)
Definition fraction : Type := Z * Z.

Definition reduce (n d : Z) : fraction :=
  let g := Z.gcd n d in (n / g, d / g)%Z.

Fixpoint read_digits (acc : Z) (l : list ascii) : option Z :=
  match l with
  | [] => Some acc
  | c :: l' =>
      match digit_val c with
      | Some d => read_digits (10 * acc + Z.of_nat d) l'
      | None => None
      end
  end.

Fixpoint split_dot (l : list ascii) : list ascii * option (list ascii) :=
  match l with
  | [] => ([], None)
  | c :: l' =>
      if decide (c = "."%char) then ([], Some l')
      else let '(w, f) := split_dot l' in (c :: w, f)
  end.

(** [digits] or [digits.digits], with an optional sign. *)
Definition read_decimal (s : string) : option fraction :=
  let l := list_ascii_of_string s in
  let '(neg, l) :=
    match l with
    | c :: l' =>
        if decide (c = "-"%char) then (true, l')
        else if decide (c = "+"%char) then (false, l') else (false, l)
    | [] => (false, l)
    end in
  let '(whole, f) := split_dot l in
  let frac := default [] f in
  if bool_decide (whole = []) then None
  else
    n ← read_digits 0 (whole ++ frac);
    let n := if neg : bool then (- n)%Z else n in
    Some (reduce n (10 ^ Z.of_nat (length frac))).

Definition fraction_nonzero (q : fraction) : bool := negb (q.1 =? 0)%Z.

Definition decimal_of_Z (z : Z) : string := NilZero.string_of_int (Z.to_int z).

Definition Z_of_decimal (s : string) : option Z :=
  Z.of_int <$> NilZero.int_of_string s.

Definition str_fraction (q : fraction) : string :=
  decimal_of_Z q.1 +:+ "/" +:+ decimal_of_Z q.2.

Lemma digit_val_digit_char d : d < 10 -> digit_val (digit_char d) = Some d.
Proof.
  intros H. do 10 (destruct d as [|d]; [reflexivity|]). lia.
Qed.

Lemma digit_char_not_bar d : digit_char d ≠ "|"%char.
Proof.
  do 9 (destruct d as [|d]; [discriminate|]). discriminate.
Qed.

Lemma read2_hi_lo n : n < 100 -> read2 (hi n) (lo n) = Some n.
Proof.
  intros H. unfold read2, hi, lo.
  rewrite (digit_val_digit_char (n / 10)) by (apply Nat.Div0.div_lt_upper_bound; lia).
  rewrite (digit_val_digit_char (n mod 10)) by (apply Nat.mod_upper_bound; lia).
  cbn [mbind option_bind]. f_equal. symmetry. apply Nat.div_mod_eq.
Qed.

Lemma days_in_month_le y m : days_in_month y m <= 31.
Proof.
  unfold days_in_month.
  do 12 (destruct m as [|m]; [try destruct (is_leap y); lia|]). lia.
Qed.

Lemma civil_valid_bounds c :
  Is_true (civil_valid c) ->
  year c / 100 < 100 /\ month c < 100 /\ day c < 100 /\
  hour c < 100 /\ minute c < 100 /\ second c < 100.
Proof.
  unfold civil_valid. rewrite !andb_True.
  rewrite !Is_true_true, !Nat.leb_le, !Nat.ltb_lt.
  pose proof (days_in_month_le (year c) (month c)). lia.
Qed.

Lemma civil_fromisoformat_isoformat sep c :
  Is_true (civil_valid c) ->
  civil_fromisoformat (civil_isoformat sep c) = Some c.
Proof.
  intros Hv. destruct (civil_valid_bounds c Hv) as (Hy & Hm & Hd & Hh & Hn & Hs).
  unfold civil_fromisoformat, civil_isoformat.
  rewrite list_ascii_of_string_of_list_ascii. unfold civil_chars.
  rewrite bool_decide_eq_true_2 by done.
  rewrite !read2_hi_lo by (try assumption; apply Nat.mod_upper_bound; lia).
  cbn [mbind option_bind]. destruct c as [y m d h n s]; cbn [year] in *.
  f_equal. f_equal. symmetry. apply Nat.div_mod_eq.
Qed.

Lemma check_civil_valid (t : naive_datetime) : check_civil (`t) = Some t.
Proof.
  destruct t as [c H]. unfold check_civil. cbn [proj1_sig].
  destruct (decide (Is_true (civil_valid c))) as [H'|H']; [|done].
  f_equal. apply (sig_eq_pi _). reflexivity.
Qed.

Lemma naive_fromisoformat_isoformat t :
  naive_fromisoformat (naive_isoformat t) = Some t.
Proof.
  unfold naive_fromisoformat, naive_isoformat.
  rewrite civil_fromisoformat_isoformat by (destruct t; assumption).
  cbn [mbind option_bind]. apply check_civil_valid.
Qed.

Lemma str_find_absent c (l : list ascii) :
  Forall (fun x => x ≠ c) l -> str_find c (string_of_list_ascii l) = (-1)%Z.
Proof.
  induction 1 as [|x l Hx Hl IH]; [reflexivity|].
  cbn [string_of_list_ascii str_find]. rewrite IH.
  destruct (decide (c = x)); [congruence|reflexivity].
Qed.

Lemma naive_isoformat_no_bar t : str_find "|"%char (naive_isoformat t) = (-1)%Z.
Proof.
  apply str_find_absent. unfold civil_chars, hi, lo.
  repeat (apply Forall_cons; split; [first [apply digit_char_not_bar | discriminate]|]).
  apply Forall_nil_2.
Qed.

Lemma Z_of_decimal_of_Z z : Z_of_decimal (decimal_of_Z z) = Some z.
Proof.
  unfold Z_of_decimal, decimal_of_Z.
  rewrite NilZero.isi.
  - cbn [fmap option_fmap option_map]. f_equal. apply DecimalZ.of_to.
  - destruct z; cbn; try discriminate.
    intros [= H]. by apply DecimalPos.Unsigned.to_uint_nonnil in H.
  - destruct z; cbn; try discriminate.
    intros [= H]. by apply DecimalPos.Unsigned.to_uint_nonnil in H.
Qed.

Global Instance runtime : Runtime := {|
  datetime := naive_datetime;
  dt_compare := naive_compare;
  isoformat := naive_isoformat;
  fromisoformat := naive_fromisoformat;
  str_datetime := naive_str;
  minus_minutes := naive_minus_minutes;
  float := fraction;
  py_float := read_decimal;
  float_nonzero := fraction_nonzero;
  str_float := str_fraction;
  str_int := decimal_of_Z;
  py_int := Z_of_decimal;
  fromisoformat_isoformat := naive_fromisoformat_isoformat;
  isoformat_no_bar := naive_isoformat_no_bar;
  py_int_str_int := Z_of_decimal_of_Z
|}.

(** Three instants of 2024-01-01, one second apart. *)
Definition T1 : naive_datetime :=
  {| year := 2024; month := 1; day := 1; hour := 0; minute := 0; second := 1 |} ↾ I.
Definition T2 : naive_datetime :=
  {| year := 2024; month := 1; day := 1; hour := 0; minute := 0; second := 2 |} ↾ I.
Definition T3 : naive_datetime :=
  {| year := 2024; month := 1; day := 1; hour := 0; minute := 0; second := 3 |} ↾ I.

End PlainRuntime.

(** ** Requests and answers of the query engine, for the properties below *)

Section InsightsRequests.

Context {RT : Runtime}.

(** The request with other paging fields. *)
Definition with_paging (l : Z) (s : option datetime) (c : option string)
    (p : InsightParams) : InsightParams :=
  {| auv_id := auv_id p; type := type p; limit := l; summary := summary p;
     summary_modes := summary_modes p; window_minutes := window_minutes p;
     timeseries_limit := timeseries_limit p;
     timeseries_fields := timeseries_fields p; since := s; cursor := c |}.

(** The request with other options of the summaries. *)
Definition with_summary_options (wm tl : Z) (tf : option (list string))
    (p : InsightParams) : InsightParams :=
  {| auv_id := auv_id p; type := type p; limit := limit p; summary := summary p;
     summary_modes := summary_modes p; window_minutes := wm;
     timeseries_limit := tl;
     timeseries_fields := tf; since := since p; cursor := cursor p |}.

(** [out["summaries"]["stats"]], when the answer has it. *)
Definition stats_block (out : gmap string value) : option value :=
  match out !! "summaries" with
  | Some (VDict summaries) => summaries !! "stats"
  | _ => None
  end.

(** The alerts that the stats queries aggregate: those of the vehicle and
    of the type of the request. *)
Definition stats_alerts (db : Database) (p : InsightParams) : list Alert :=
  List.filter (fun a => forallb (fun c => clause_holds c a) (stats_filters_of p))
              (db_alerts db).

(** The alerts of a list that have the given type. *)
Definition of_type (ty : string) (l : list Alert) : list Alert :=
  List.filter (fun a => String.eqb (alert_type a) ty) l.

(** The readings that the telemetry query selects. *)
Definition selected_readings (db : Database) (auv : string)
    (window_start : datetime) (ts_limit : Z) : list Telemetry :=
  sql_limit ts_limit
    (sort_by (timeseries_before (db_nulls_largest db))
       (List.filter (telemetry_in_window auv window_start) (db_telemetry db))).

(** The alerts that satisfy every predicate of a list. *)
Definition satisfying (db : Database) (filters : list clause) : list Alert :=
  List.filter (fun a => forallb (fun c => clause_holds c a) filters) (db_alerts db).

(** The predicates that [build_filters] adds before it looks at the
    cursor. *)
Definition base_filters (p : InsightParams) : list clause :=
  (if str_truthy (auv_id p) then [auv_id_eq (default "" (auv_id p))] else []) ++
  (if str_truthy (type p) then [type_eq (default "" (type p))] else []) ++
  (match since p with Some s => [started_after s] | None => [] end).

End InsightsRequests.

(** ** The alert control channel ([websocket_endpoint], main.py 75-102) *)

Section ControlChannel.

(** The decoded payload of a client message, and the payload of a
    broadcast. *)
Variables Payload Message : Type.

(** The frames that the endpoint sends on its connection:
    [{"type": "echo", "data": data, "timestamp": ...}] and
    [{"type": "error", "message": "Invalid JSON format"}]. *)
Inductive reply : Type :=
  | Echo (data : Payload) (timestamp : string)
  | InvalidJson.

(** What the endpoint does to its connection. *)
Inductive action : Type :=
  | Sent (r : reply)
  | Closed (code : Z).

(** One pass of the receive loop as the client side plays it: what
    [receive_json] gives, the clock reading put in the echo, and what the
    [send_json] of the echo and of the error reply do ([None]: sent). *)
Record turn : Type := {
  received : result Payload;
  clock : string;
  echo_send : option exn;
  error_send : option exn
}.

(** The client side of one connection: the handshake, the passes, and, for
    the last handler, the state the connection reports and what [close]
    does. *)
Record client : Type := {
  cl_accept : option exn;
  cl_turns : list turn;
  cl_state : WebSocketState;
  cl_close : option exn
}.

(** How the receive loop stops: it waits for a message that does not come,
    or an exception leaves it. *)
Inductive loop_stop : Type :=
  | AwaitingMessage
  | LoopRaised (e : exn).

(** Lines 82-95: [while True] with the inner [try].  A [JSONDecodeError]
    of the pass is answered with the error reply; any other exception, and
    an exception of the error reply itself, leaves the loop. *)
Fixpoint receive_loop (turns : list turn) (acts : list action)
  : list action * loop_stop :=
  match turns with
  | [] => (acts, AwaitingMessage)
  | t :: rest =>
      let pass : list action * option exn :=
        match received t with
        | Raise e => (acts, Some e)
        | Ok data =>
            match echo_send t with
            | None => (acts ++ [Sent (Echo data (clock t))], None)
            | Some e => (acts, Some e)
            end
        end in
      match pass with
      | (acts, None) => receive_loop rest acts
      | (acts, Some e) =>
          match e with
          | JSONDecodeError _ =>
              match error_send t with
              | None => receive_loop rest (acts ++ [Sent InvalidJson])
              | Some e' => (acts, LoopRaised e')
              end
          | _ => (acts, LoopRaised e)
          end
      end
  end.

(** How the endpoint coroutine ends. *)
Inductive endpoint_end : Type :=
  | Finished (r : Registry Message) (acts : list action)
  | Escaped (e : exn) (r : Registry Message) (acts : list action)
  | Pending (r : Registry Message) (acts : list action).

Definition after_disconnect (o : outcome Message unit) (acts : list action)
  : endpoint_end :=
  match o with
  | Returned _ r => Finished r acts
  | Raised e r => Escaped e r acts
  | Blocked r => Pending r acts
  end.

(** [websocket_endpoint] (lines 76-102): [connect] runs before the [try];
    [WebSocketDisconnect] deregisters; any other [Exception] closes the
    connection with code 1011 when it reports [CONNECTED], then
    deregisters; what is not an [Exception] passes through. *)
Definition websocket_endpoint (websocket : WebSocket) (c : client)
    (r : Registry Message) : endpoint_end :=
  match connect websocket (cl_accept c) r with
  | Raised e r => Escaped e r []
  | Blocked r => Pending r []
  | Returned _ r =>
      match receive_loop (cl_turns c) [] with
      | (acts, AwaitingMessage) => Pending r acts
      | (acts, LoopRaised WebSocketDisconnect) =>
          after_disconnect (disconnect websocket r) acts
      | (acts, LoopRaised e) =>
          if is_Exception e then
            if decide (cl_state c = CONNECTED) then
              match cl_close c with
              | None => after_disconnect (disconnect websocket r) (acts ++ [Closed 1011])
              | Some e' => Escaped e' r acts
              end
            else after_disconnect (disconnect websocket r) acts
          else Escaped e r acts
      end
  end.

(** The reply to a client message that arrives and is answered. *)
Definition reply_to (t : turn) : option reply :=
  match received t with
  | Ok data => Some (Echo data (clock t))
  | Raise (JSONDecodeError _) => Some InvalidJson
  | Raise _ => None
  end.

(** The pass receives a message, JSON or not, and its reply is sent. *)
Definition answered (t : turn) : bool :=
  match received t with
  | Ok _ => bool_decide (echo_send t = None)
  | Raise (JSONDecodeError _) => bool_decide (error_send t = None)
  | Raise _ => false
  end.

(** The pass in which [receive_json] raises [e]. *)
Definition raising_turn (e : exn) : turn :=
  {| received := Raise e; clock := ""; echo_send := None; error_send := None |}.

End ControlChannel.

Arguments Echo {Payload} data timestamp.
Arguments InvalidJson {Payload}.
Arguments Sent {Payload} r.
Arguments Closed {Payload} code.
Arguments received {Payload} _.
Arguments clock {Payload} _.
Arguments echo_send {Payload} _.
Arguments error_send {Payload} _.
Arguments cl_accept {Payload} _.
Arguments cl_turns {Payload} _.
Arguments cl_state {Payload} _.
Arguments cl_close {Payload} _.
Arguments Build_turn {Payload} _ _ _ _.
Arguments Build_client {Payload} _ _ _ _.
Arguments receive_loop {Payload} turns acts.
Arguments Finished {Payload Message} r acts.
Arguments Escaped {Payload Message} e r acts.
Arguments Pending {Payload Message} r acts.
Arguments websocket_endpoint {Payload Message} websocket c r.
Arguments reply_to {Payload} t.
Arguments answered {Payload} t.
Arguments raising_turn {Payload} e.

(** ** Scenarios used by the examples and the counterexamples *)

(** The transport of the two-subscriber scenario: connection [1] raises on
    send, every other connection takes the message. *)
Definition one_failing (Message : Type) (state_of_1 : WebSocketState) : Transport Message :=
  {| client_state := fun ws => if decide (ws = 1) then state_of_1 else CONNECTED;
     send_json := fun ws _ =>
       if decide (ws = 1) then Some (RuntimeError "send after close") else None |}.

(** The alerts of the listing example, in storage order: identifiers 10, 20,
    30 and 40 started at [T1], [T2], [T2] and [T3]. *)
Definition example_db : Database (RT := PlainRuntime.runtime) :=
  {| db_alerts := [alert_at 10 PlainRuntime.T1; alert_at 20 PlainRuntime.T2;
                   alert_at 30 PlainRuntime.T2; alert_at 40 PlainRuntime.T3];
     db_telemetry := [];
     db_nulls_largest := true |}.

Definition empty_db : Database (RT := PlainRuntime.runtime) :=
  {| db_alerts := []; db_telemetry := []; db_nulls_largest := true |}.

(** A feed that refuses every connection, and subscribers that all take
    what is sent to them. *)
Definition refusing_feed : nat -> attempt :=
  fun _ => {| att_upstream := ConnectFails (ClientError "connection refused");
              att_cancelled_in_sleep := false |}.

Definition all_healthy : Transport unit :=
  {| client_state := fun _ => CONNECTED; send_json := fun _ _ => None |}.

(** A free registry that lists the connections [1] and [2]. *)
Definition two_listed : Registry unit :=
  {| active_connections := [1; 2]; lock_held := false; delivered := [] |}.

(** A feed whose first round is refused and cancelled during the sleep. *)
Definition cancelled_feed : nat -> attempt :=
  fun _ => {| att_upstream := ConnectFails (ClientError "connection refused");
              att_cancelled_in_sleep := true |}.

(** A decoder that reads the length of the text as the reading and rejects
    the empty text, a check that reports odd readings, and subscribers of
    which [2] is not connected. *)
Definition length_loads (data : string) : result nat :=
  if String.eqb data "" then Raise (JSONDecodeError "Expecting value")
  else Ok (String.length data).

Definition odd_alerts (reading : nat) : result (option nat) :=
  Ok (if Nat.odd reading then Some reading else None).

Definition two_not_connected : Transport nat :=
  {| client_state := fun ws => if decide (ws = 2) then DISCONNECTED else CONNECTED;
     send_json := fun _ _ => None |}.

Definition three_listed : loop_state nat nat :=
  {| manager := {| active_connections := [1; 2; 3]; lock_held := false; delivered := [] |};
     trace := [] |}.

(** Passes of the control channel: a JSON message, a message that is not
    JSON, and a client that sends both and then leaves, or whose third
    [receive_json] fails. *)
Definition json_turn : turn string :=
  {| received := Ok "ping"; clock := "2024-01-01T00:00:01+00:00";
     echo_send := None; error_send := None |}.

Definition text_turn : turn string :=
  {| received := Raise (JSONDecodeError "Expecting value"); clock := "";
     echo_send := None; error_send := None |}.

Definition leaving_client : client string :=
  {| cl_accept := None;
     cl_turns := [json_turn; text_turn] ++ [raising_turn WebSocketDisconnect];
     cl_state := DISCONNECTED; cl_close := None |}.

Definition broken_client : client string :=
  {| cl_accept := None;
     cl_turns := [json_turn; text_turn]
                 ++ raising_turn (RuntimeError "receive failed") :: [json_turn];
     cl_state := CONNECTED; cl_close := None |}.

Definition waiting_client : client string :=
  {| cl_accept := None; cl_turns := [json_turn; text_turn];
     cl_state := CONNECTED; cl_close := None |}.

(** A feed whose session is closed by the upstream before an odd reading,
    a feed whose session starts with an odd reading, and subscribers of
    which [3] raises on send: [CancelledError], or an error. *)
Definition closing_feed : nat -> attempt :=
  fun _ => {| att_upstream :=
                Session ([text_frame ""] ++
                         Msg {| msg_type := CLOSED; msg_data := "" |} :: [text_frame "a"]);
              att_cancelled_in_sleep := false |}.

Definition alerting_feed : nat -> attempt :=
  fun _ => {| att_upstream := Session (text_frame "a" :: [text_frame "abc"]);
              att_cancelled_in_sleep := false |}.

(** A feed whose first connection is refused, whose second session has an
    odd reading, a text that is not JSON and a connection error, and whose
    later sessions are closed by the upstream behind an even reading. *)
Definition mixed_feed : nat -> attempt :=
  fun j =>
    {| att_upstream :=
         match j with
         | 0 => ConnectFails (ClientError "connection refused")
         | 1 => Session [text_frame "a"; text_frame "";
                         Fault (ClientError "connection lost")]
         | _ => Session [text_frame "ab";
                         Msg {| msg_type := CLOSED; msg_data := "" |};
                         text_frame "abc"]
         end;
       att_cancelled_in_sleep := false |}.

Definition three_cancels : Transport nat :=
  {| client_state := fun _ => CONNECTED;
     send_json := fun ws _ => if decide (ws = 3) then Some CancelledError else None |}.

(** Subscribers of which [2] raises [CancelledError] on send. *)
Definition two_cancels : Transport unit :=
  {| client_state := fun _ => CONNECTED;
     send_json := fun ws _ => if decide (ws = 2) then Some CancelledError else None |}.

Definition three_fails : Transport nat :=
  {| client_state := fun _ => CONNECTED;
     send_json := fun ws _ =>
       if decide (ws = 3) then Some (RuntimeError "send after close") else None |}.

(** Requests on the default parameters: the stats mode, both modes, and
    the stats mode with other paging options. *)
Definition stats_request : InsightParams (RT := PlainRuntime.runtime) :=
  with_modes false (Some ["stats"]) default_params.

Definition both_modes_request : InsightParams (RT := PlainRuntime.runtime) :=
  with_modes false (Some ["stats"; "timeseries"]) default_params.

Definition paged_stats_request : InsightParams (RT := PlainRuntime.runtime) :=
  with_paging 50 (Some PlainRuntime.T2) (Some "GARBAGE") stats_request.

(** * Properties of the subscriber registry *)

Section RegistryFacts.

Context {Message : Type}.
Implicit Types (r : Registry Message) (ws : WebSocket) (l : list WebSocket).

#[local] Arguments connect : simpl never.
#[local] Arguments disconnect : simpl never.
#[local] Arguments broadcast : simpl never.

Lemma multiplicity_app ws l l' :
  multiplicity ws (l ++ l') = multiplicity ws l + multiplicity ws l'.
Proof. induction l as [|y l IH]; cbn; [done|]. rewrite IH. lia. Qed.

Lemma multiplicity_absent ws l : ws ∉ l -> multiplicity ws l = 0.
Proof.
  induction l as [|y l IH]; cbn; [done|]. intros H.
  apply not_elem_of_cons in H as [Hne Hnin].
  destruct (decide (y = ws)); [congruence|]. by rewrite IH.
Qed.

Lemma multiplicity_remove ws ws' l :
  multiplicity ws (list_remove ws' l) =
  if decide (ws' = ws) then pred (multiplicity ws l) else multiplicity ws l.
Proof.
  induction l as [|y l IH]; cbn.
  - by destruct (decide (ws' = ws)).
  - destruct (decide (ws' = y)) as [->|Hne].
    + destruct (decide (y = ws)); cbn; [done|].
      destruct (decide (y = ws)); [done|reflexivity].
    + cbn. rewrite IH. destruct (decide (ws' = ws)) as [->|]; [|done].
      destruct (decide (y = ws)); [congruence|reflexivity].
Qed.

Lemma length_list_remove ws l :
  ws ∈ l -> S (length (list_remove ws l)) = length l.
Proof.
  induction l as [|y l IH]; cbn; [by intros ?%elem_of_nil|].
  intros H. destruct (decide (ws = y)); [done|].
  apply elem_of_cons in H as [?|H]; [done|]. cbn. by rewrite IH.
Qed.

(** On a free lock, [connect] with a successful handshake appends the
    connection, whether or not it is already listed. *)
Lemma connect_appends ws r :
  lock_held r = false ->
  connect ws None r =
  Returned tt {| active_connections := active_connections r ++ [ws];
                 lock_held := false;
                 delivered := delivered r |}.
Proof. intros H. unfold connect, with_lock. by rewrite H. Qed.

Lemma connect_refused ws e r : connect ws (Some e) r = Raised e r.
Proof. reflexivity. Qed.

Lemma disconnect_present ws r :
  lock_held r = false -> ws ∈ active_connections r ->
  disconnect ws r =
  Returned tt {| active_connections := list_remove ws (active_connections r);
                 lock_held := false;
                 delivered := delivered r |}.
Proof.
  intros H Hin. unfold disconnect, with_lock. rewrite H. cbn.
  by rewrite decide_True.
Qed.

Lemma disconnect_absent ws r :
  lock_held r = false -> ws ∉ active_connections r ->
  disconnect ws r = Returned tt r.
Proof.
  intros H Hin. unfold disconnect, with_lock. rewrite H. cbn.
  rewrite decide_False by done. destruct r; cbn in *. by rewrite H.
Qed.

(** An operation that finds the lock held never returns. *)
Lemma connect_on_held_lock ws r :
  lock_held r = true -> connect ws None r = Blocked r.
Proof. intros H. unfold connect, with_lock. by rewrite H. Qed.

Lemma disconnect_on_held_lock ws r :
  lock_held r = true -> disconnect ws r = Blocked r.
Proof. intros H. unfold disconnect, with_lock. by rewrite H. Qed.

Lemma broadcast_on_held_lock T (m : Message) r :
  lock_held r = true -> broadcast T m r = Blocked r.
Proof. intros H. unfold broadcast, with_lock. by rewrite H. Qed.

Lemma multiplicity_present ws l : ws ∈ l -> 1 <= multiplicity ws l.
Proof.
  induction l as [|y l IH]; cbn; [by intros ?%elem_of_nil|].
  intros [->|H]%elem_of_cons; [by rewrite decide_True; [lia|]|].
  specialize (IH H). lia.
Qed.

Lemma multiplicity_NoDup ws l : NoDup l -> multiplicity ws l <= 1.
Proof.
  induction 1 as [|y l Hy _ IH]; cbn; [lia|].
  destruct (decide (y = ws)) as [->|]; [|lia].
  rewrite multiplicity_absent by done. lia.
Qed.

Lemma list_remove_sublist ws l : sublist (list_remove ws l) l.
Proof.
  induction l as [|y l IH]; cbn; [constructor|].
  destruct (decide (ws = y)); [by apply sublist_cons|by apply sublist_skip].
Qed.

Lemma elem_of_list_remove w ws l : w ∈ list_remove ws l -> w ∈ l.
Proof.
  induction l as [|y l IH]; cbn; [done|].
  destruct (decide (ws = y)); [by apply list_elem_of_further|].
  intros [->|H]%elem_of_cons; [apply list_elem_of_here|].
  by apply list_elem_of_further, IH.
Qed.

(** [list.remove] takes out the first occurrence: what stands before it
    does not hold the connection. *)
Lemma list_remove_first ws l :
  ws ∈ l ->
  exists l1 l2, l = l1 ++ ws :: l2 /\ (ws ∉ l1) /\ list_remove ws l = l1 ++ l2.
Proof.
  induction l as [|y l IH]; [by intros ?%elem_of_nil|]. cbn.
  destruct (decide (ws = y)) as [->|Hne].
  - intros _. exists [], l. split; [done|]. split; [apply not_elem_of_nil|done].
  - intros [?|H]%elem_of_cons; [done|].
    destruct (IH H) as (l1 & l2 & -> & Hnin & ->).
    exists (y :: l1), l2. split; [done|]. split; [|done].
    by apply not_elem_of_cons.
Qed.

(** ** Sequences of [connect] and [disconnect] calls *)

(** [connect] on a connection that has been accepted raises before the
    lock is taken: nothing changes. *)
Lemma run_call_connect_accepted ws failure (s : run_state Message) :
  ws ∈ s.2 ->
  exists e, run_call (Connect ws failure) s = (Raised e s.1, s.2).
Proof.
  intros H. cbn. unfold accept. rewrite decide_True by done. eauto.
Qed.

Lemma step_connect_accepted ws failure (s : run_state Message) :
  ws ∈ s.2 -> step (Connect ws failure) s = s /\ appends (Connect ws failure) s = false.
Proof.
  intros H. unfold step, appends. cbn. unfold accept. rewrite decide_True by done.
  split; [by destruct s|done].
Qed.

Lemma step_connect_refused ws e (s : run_state Message) :
  step (Connect ws (Some e)) s = s /\ appends (Connect ws (Some e)) s = false.
Proof.
  unfold step, appends. cbn. unfold accept.
  destruct (decide (ws ∈ s.2)); (split; [by destruct s|done]).
Qed.

Lemma step_connect_fresh ws (s : run_state Message) :
  lock_held s.1 = false -> ws ∉ s.2 ->
  step (Connect ws None) s =
  ({| active_connections := active_connections s.1 ++ [ws];
      lock_held := false;
      delivered := delivered s.1 |}, {[ws]} ∪ s.2) /\
  appends (Connect ws None) s = true.
Proof.
  intros Hl H. unfold step, appends. cbn. unfold accept.
  rewrite decide_False by done. by rewrite connect_appends.
Qed.

Lemma step_disconnect ws (s : run_state Message) :
  lock_held s.1 = false ->
  step (Disconnect ws) s =
  ({| active_connections := list_remove ws (active_connections s.1);
      lock_held := false;
      delivered := delivered s.1 |}, s.2) /\
  (ws ∉ active_connections s.1 ->
   list_remove ws (active_connections s.1) = active_connections s.1).
Proof.
  intros Hl. unfold step. cbn.
  assert (forall l, ws ∉ l -> list_remove ws l = l) as Hid.
  { induction l as [|y l IH]; [done|]. intros [? ?]%not_elem_of_cons. cbn.
    rewrite decide_False by done. by rewrite IH. }
  split; [|apply Hid].
  destruct (decide (ws ∈ active_connections s.1)) as [Hin|Hin].
  - by rewrite disconnect_present.
  - rewrite disconnect_absent by done. cbn. rewrite Hid by done.
    destruct s as [[? ? ?] ?]. cbn in *. by rewrite Hl.
Qed.

Lemma step_invariant c (s : run_state Message) :
  run_invariant s -> run_invariant (step c s).
Proof.
  intros (Hl & Hnd & Hacc). destruct c as [ws [e|]|ws].
  - by rewrite (proj1 (step_connect_refused ws e s)).
  - destruct (decide (ws ∈ s.2)) as [Hin|Hin].
    + by rewrite (proj1 (step_connect_accepted ws None s Hin)).
    + rewrite (proj1 (step_connect_fresh ws s Hl Hin)). split; [done|]. cbn. split.
      * apply NoDup_app. split; [done|]. split; [|apply NoDup_singleton].
        intros w Hw ->%list_elem_of_singleton. by apply Hin, Hacc.
      * intros w [Hw| ->%list_elem_of_singleton]%elem_of_app.
        -- apply elem_of_union. right. by apply Hacc.
        -- apply elem_of_union. left. by apply elem_of_singleton.
  - rewrite (proj1 (step_disconnect ws s Hl)). split; [done|]. cbn. split.
    + by eapply sublist_NoDup; [|apply list_remove_sublist].
    + intros w Hw. by eapply Hacc, elem_of_list_remove.
Qed.

Lemma run_calls_invariant cs (s : run_state Message) :
  run_invariant s -> run_invariant (run_calls cs s).
Proof.
  revert s. induction cs as [|c cs IH]; intros s H; [done|].
  cbn. apply IH. by apply step_invariant.
Qed.

(** One call changes the number of entries of a connection by what it
    appends and what it removes. *)
Lemma step_multiplicity ws c (s : run_state Message) :
  run_invariant s ->
  multiplicity ws (active_connections (step c s).1)
  + (if bool_decide (call_websocket c = ws) && removes c s then 1 else 0)
  = multiplicity ws (active_connections s.1)
    + (if bool_decide (call_websocket c = ws) && appends c s then 1 else 0).
Proof.
  intros (Hl & Hnd & Hacc). destruct c as [w [e|]|w].
  - destruct (step_connect_refused w e s) as [-> ->]. cbn [removes].
    by rewrite !andb_false_r.
  - cbn [removes]. rewrite andb_false_r. destruct (decide (w ∈ s.2)) as [Hin|Hin].
    + destruct (step_connect_accepted w None s Hin) as [-> ->]. by rewrite andb_false_r.
    + destruct (step_connect_fresh w s Hl Hin) as [-> ->]. cbn.
      rewrite multiplicity_app, andb_true_r. cbn.
      destruct (decide (w = ws)) as [->|Hne].
      * rewrite bool_decide_eq_true_2 by done. lia.
      * rewrite bool_decide_eq_false_2 by done. lia.
  - destruct (step_disconnect w s Hl) as [-> Hid]. cbn.
    rewrite andb_false_r, multiplicity_remove.
    destruct (decide (w = ws)) as [->|Hne].
    + rewrite bool_decide_eq_true_2 by done. cbn.
      destruct (bool_decide_reflect (ws ∈ active_connections s.1)) as [Hin|Hin].
      * pose proof (multiplicity_present ws _ Hin). lia.
      * rewrite multiplicity_absent by done. reflexivity.
    + rewrite bool_decide_eq_false_2 by done. cbn. lia.
Qed.

Lemma step_length c (s : run_state Message) :
  run_invariant s ->
  length (active_connections (step c s).1) + (if removes c s then 1 else 0)
  = length (active_connections s.1) + (if appends c s then 1 else 0).
Proof.
  intros (Hl & Hnd & Hacc). destruct c as [w [e|]|w].
  - by destruct (step_connect_refused w e s) as [-> ->].
  - cbn [removes]. destruct (decide (w ∈ s.2)) as [Hin|Hin].
    + by destruct (step_connect_accepted w None s Hin) as [-> ->].
    + destruct (step_connect_fresh w s Hl Hin) as [-> ->]. cbn.
      rewrite length_app. cbn. lia.
  - destruct (step_disconnect w s Hl) as [-> Hid]. cbn.
    destruct (bool_decide_reflect (w ∈ active_connections s.1)) as [Hin|Hin].
    + pose proof (length_list_remove w _ Hin). lia.
    + rewrite Hid by done. lia.
Qed.

Lemma run_calls_multiplicity ws cs (s : run_state Message) :
  run_invariant s ->
  multiplicity ws (active_connections (run_calls cs s).1)
  + removals (fun w => bool_decide (w = ws)) cs s
  = multiplicity ws (active_connections s.1)
    + connects (fun w => bool_decide (w = ws)) cs s.
Proof.
  revert s. induction cs as [|c cs IH]; intros s H; cbn; [lia|].
  specialize (IH (step c s) (step_invariant c s H)).
  pose proof (step_multiplicity ws c s H). unfold run_calls in IH. lia.
Qed.

Lemma run_calls_length cs (s : run_state Message) :
  run_invariant s ->
  length (active_connections (run_calls cs s).1) + removals (fun _ => true) cs s
  = length (active_connections s.1) + connects (fun _ => true) cs s.
Proof.
  revert s. induction cs as [|c cs IH]; intros s H; cbn; [lia|].
  specialize (IH (step c s) (step_invariant c s H)).
  pose proof (step_length c s H). unfold run_calls in IH. lia.
Qed.

(** ** [broadcast] *)

Lemma no_cancelling T (m : Message) l :
  (forall ws e, ws ∈ l -> client_state T ws = CONNECTED ->
                send_json T ws m = Some e -> is_Exception e = true) ->
  List.filter (cancelling T m) l = [].
Proof.
  induction l as [|c l IH]; intros H; [done|]. cbn.
  rewrite IH by (intros ws e Hws; apply H; by apply list_elem_of_further).
  unfold cancelling.
  destruct (bool_decide_reflect (client_state T c = CONNECTED)) as [Hc|]; [|done].
  destruct (send_json T c m) as [e|] eqn:Hs; [|done].
  by rewrite (H c e (list_elem_of_here _ _) Hc Hs).
Qed.

Lemma filter_cancelling_cons T (m : Message) c l :
  List.filter (cancelling T m) (c :: l) = [] ->
  cancelling T m c = false /\ List.filter (cancelling T m) l = [].
Proof. cbn. by destruct (cancelling T m c). Qed.

Lemma sent_to_nil T (m : Message) r : sent_to T m [] r = r.
Proof. unfold sent_to. cbn. rewrite app_nil_r. by destruct r. Qed.

Lemma sent_to_cons_healthy T (m : Message) c l r :
  client_state T c = CONNECTED -> send_json T c m = None ->
  sent_to T m l (deliver Message c m r) = sent_to T m (c :: l) r.
Proof.
  intros Hc Hs. unfold sent_to, deliver. cbn.
  rewrite !bool_decide_eq_true_2 by done. cbn. by rewrite <- app_assoc.
Qed.

Lemma sent_to_cons_skipped T (m : Message) c l r :
  client_state T c ≠ CONNECTED \/ send_json T c m ≠ None ->
  sent_to T m (c :: l) r = sent_to T m l r.
Proof.
  intros H. unfold sent_to. cbn.
  destruct H as [H|H]; rewrite (bool_decide_eq_false_2 _ H);
    by rewrite ?andb_false_r.
Qed.

(** The first loop, when no send raises anything but an [Exception]: the
    healthy connections get the message and the failing ones are queued. *)
Lemma broadcast_send_spec T (m : Message) conns dis r :
  List.filter (cancelling T m) conns = [] ->
  broadcast_send Message T m conns dis r =
  Returned (dis ++ List.filter (failing T m) conns) (sent_to T m conns r).
Proof.
  revert dis r. induction conns as [|c conns IH]; intros dis r Hn.
  - cbn. by rewrite app_nil_r, sent_to_nil.
  - apply filter_cancelling_cons in Hn as [Hc Hn]. cbn [broadcast_send List.filter].
    unfold cancelling in Hc. unfold failing at 1.
    destruct (decide (client_state T c = CONNECTED)) as [Hst|Hst].
    + rewrite (bool_decide_eq_true_2 _ Hst) in *. cbn in *.
      destruct (send_json T c m) as [e|] eqn:Hs.
      * apply negb_false_iff in Hc. rewrite Hc. rewrite IH by done.
        rewrite sent_to_cons_skipped by (right; by rewrite Hs).
        by rewrite <- app_assoc.
      * rewrite IH by done. by rewrite sent_to_cons_healthy.
    + rewrite (bool_decide_eq_false_2 _ Hst). cbn. rewrite IH by done.
      by rewrite sent_to_cons_skipped by (by left).
Qed.

(** The first loop, when a send raises what is not an [Exception]: the
    loop is left at that connection; the connections behind it get
    nothing. *)
Lemma broadcast_send_cancelled T (m : Message) l1 c l2 e dis r :
  List.filter (cancelling T m) l1 = [] ->
  client_state T c = CONNECTED -> send_json T c m = Some e -> is_Exception e = false ->
  broadcast_send Message T m (l1 ++ c :: l2) dis r = Raised e (sent_to T m l1 r).
Proof.
  intros Hn Hst Hs He. revert dis r.
  induction l1 as [|c1 l1 IH]; intros dis r.
  - cbn. rewrite decide_True by done. by rewrite Hs, He, sent_to_nil.
  - apply filter_cancelling_cons in Hn as [Hc Hn]. cbn [app broadcast_send].
    unfold cancelling in Hc.
    destruct (decide (client_state T c1 = CONNECTED)) as [Hst1|Hst1].
    + rewrite (bool_decide_eq_true_2 _ Hst1) in Hc. cbn in Hc.
      destruct (send_json T c1 m) as [e1|] eqn:Hs1.
      * apply negb_false_iff in Hc. rewrite Hc. rewrite IH by done.
        by rewrite sent_to_cons_skipped by (right; by rewrite Hs1).
      * rewrite IH by done. by rewrite sent_to_cons_healthy.
    + rewrite IH by done. by rewrite sent_to_cons_skipped by (by left).
Qed.

(** A list has no cancelling connection, or it has a first one. *)
Lemma first_cancelling T (m : Message) l :
  List.filter (cancelling T m) l = [] \/
  exists l1 c l2 e,
    l = l1 ++ c :: l2 /\ List.filter (cancelling T m) l1 = [] /\
    client_state T c = CONNECTED /\ send_json T c m = Some e /\ is_Exception e = false.
Proof.
  induction l as [|c l IH]; [by left|].
  destruct (cancelling T m c) eqn:Hc.
  - right. exists [], c, l. unfold cancelling in Hc.
    apply andb_true_iff in Hc as [Hst%bool_decide_eq_true_1 Hs].
    destruct (send_json T c m) as [e|]; [|done]. exists e.
    by apply negb_true_iff in Hs.
  - destruct IH as [IH|(l1 & c' & l2 & e & -> & Hn & Hst & Hs & He)].
    + left. cbn. by rewrite Hc.
    + right. exists (c :: l1), c', l2, e. split; [done|]. split; [|done].
      cbn. by rewrite Hc.
Qed.

(** The removal pass runs with the lock held, so its first [disconnect]
    waits for the lock of its own caller. *)
Lemma broadcast_cleanup_locked dis r :
  lock_held r = true ->
  broadcast_cleanup Message dis r =
  match dis with [] => Returned tt r | _ => Blocked r end.
Proof.
  intros H. destruct dis as [|c dis]; [done|].
  cbn [broadcast_cleanup]. by rewrite disconnect_on_held_lock.
Qed.

(** What [broadcast] does on a free lock when no send raises anything but
    an [Exception]: every healthy connection gets the message; when no send
    raised, the call returns and the registry is as before; when a send
    raised, the call never returns, the lock stays held and no connection is
    removed. *)
Lemma broadcast_spec T (m : Message) r :
  lock_held r = false ->
  List.filter (cancelling T m) (active_connections r) = [] ->
  let sent := delivered r ++
              map (fun ws => (ws, m)) (List.filter (healthy T m) (active_connections r)) in
  broadcast T m r =
  match List.filter (failing T m) (active_connections r) with
  | [] => Returned tt {| active_connections := active_connections r;
                         lock_held := false;
                         delivered := sent |}
  | _ => Blocked {| active_connections := active_connections r;
                    lock_held := true;
                    delivered := sent |}
  end.
Proof.
  intros H Hn. unfold broadcast, with_lock. rewrite H.
  cbn [set_lock active_connections]. rewrite broadcast_send_spec by done. cbn [app].
  rewrite broadcast_cleanup_locked by done.
  by destruct (List.filter (failing T m) (active_connections r)).
Qed.

(** What [broadcast] does on a free lock when a send raises what is not an
    [Exception]: the exception leaves [broadcast], which releases the lock;
    the healthy connections before that one have the message. *)
Lemma broadcast_cancelled T (m : Message) r l1 c l2 e :
  lock_held r = false ->
  active_connections r = l1 ++ c :: l2 ->
  List.filter (cancelling T m) l1 = [] ->
  client_state T c = CONNECTED -> send_json T c m = Some e -> is_Exception e = false ->
  broadcast T m r =
  Raised e {| active_connections := active_connections r;
              lock_held := false;
              delivered := delivered r ++
                           map (fun ws => (ws, m)) (List.filter (healthy T m) l1) |}.
Proof.
  intros H Hl Hn Hst Hs He. destruct r as [l lk d]. cbn in H, Hl. subst l lk.
  unfold broadcast, with_lock. cbn [lock_held set_lock active_connections].
  by rewrite (broadcast_send_cancelled T m l1 c l2 e) by done.
Qed.

(** The outcomes of [broadcast]. *)
Lemma broadcast_cases T (m : Message) r :
  (exists l, l `prefix_of` active_connections r /\
     final_registry (broadcast T m r) =
     {| active_connections := active_connections r;
        lock_held := lock_held (final_registry (broadcast T m r));
        delivered := delivered r ++
                     map (fun ws => (ws, m)) (List.filter (healthy T m) l) |}) /\
  match broadcast T m r with
  | Returned _ r' => lock_held r' = false
  | Raised e r' => lock_held r' = false /\ is_Exception e = false
  | Blocked r' => lock_held r' = true
  end.
Proof.
  destruct (lock_held r) eqn:H.
  - rewrite broadcast_on_held_lock by done. cbn. split; [|done].
    exists []. split; [apply prefix_nil|]. cbn. rewrite app_nil_r. by destruct r.
  - destruct (first_cancelling T m (active_connections r))
      as [Hn|(l1 & c & l2 & e & Hl & Hn & Hst & Hs & He)].
    + rewrite broadcast_spec by done.
      destruct (List.filter (failing T m) (active_connections r)); cbn;
        (split; [|done]); exists (active_connections r); by split.
    + rewrite (broadcast_cancelled T m r l1 c l2 e) by done. cbn. split; [|done].
      exists l1. split; [|done]. rewrite Hl. by apply prefix_app_r.
Qed.

Lemma broadcast_blocked_holds_lock T (m : Message) r r' :
  broadcast T m r = Blocked r' -> lock_held r' = true.
Proof.
  intros H. pose proof (proj2 (broadcast_cases T m r)) as Hc. by rewrite H in Hc.
Qed.

Lemma broadcast_raises_no_error T (m : Message) r e r' :
  broadcast T m r = Raised e r' -> is_Exception e = false.
Proof.
  intros H. pose proof (proj2 (broadcast_cases T m r)) as Hc. rewrite H in Hc. tauto.
Qed.

(** A failing subscriber does not stop delivery to the others. *)
Lemma broadcast_reaches_healthy T (m : Message) r ws :
  lock_held r = false ->
  List.filter (cancelling T m) (active_connections r) = [] ->
  ws ∈ active_connections r ->
  client_state T ws = CONNECTED ->
  send_json T ws m = None ->
  (ws, m) ∈ delivered (final_registry (broadcast T m r)).
Proof.
  intros H Hn Hin Hc Hs. rewrite broadcast_spec by done.
  assert ((ws, m) ∈ map (fun ws => (ws, m))
            (List.filter (healthy T m) (active_connections r))) as Hm.
  { apply list_elem_of_In, (in_map (fun w => (w, m))), filter_In.
    split; [by apply list_elem_of_In|].
    unfold healthy. by rewrite !bool_decide_eq_true_2. }
  destruct (List.filter (failing T m) (active_connections r)); cbn;
    apply elem_of_app; by right.
Qed.

(** A subscriber that reports a state other than [CONNECTED] is skipped:
    nothing is sent to it and it stays in the registry. *)
Lemma broadcast_keeps_connections T (m : Message) r :
  active_connections (final_registry (broadcast T m r)) = active_connections r.
Proof.
  destruct (proj1 (broadcast_cases T m r)) as (l & _ & ->). reflexivity.
Qed.

(** Once a send has failed with an [Exception], the registry lock is never
    released. *)
Lemma broadcast_failure_holds_lock T (m : Message) r ws :
  lock_held r = false ->
  List.filter (cancelling T m) (active_connections r) = [] ->
  ws ∈ active_connections r ->
  failing T m ws = true ->
  exists r', broadcast T m r = Blocked r' /\ lock_held r' = true.
Proof.
  intros H Hn Hin Hf. rewrite broadcast_spec by done.
  destruct (List.filter (failing T m) (active_connections r)) as [|c l] eqn:Hl.
  - assert (In ws []) as []. rewrite <- Hl. apply filter_In.
    split; [by apply list_elem_of_In|done].
  - eauto.
Qed.

Lemma filter_failing_none T (m : Message) l :
  (forall ws, ws ∈ l -> send_json T ws m = None) ->
  List.filter (failing T m) l = [].
Proof.
  induction l as [|c l IH]; intros Hsend; [done|]. cbn.
  unfold failing at 1. rewrite (Hsend c) by apply list_elem_of_here.
  rewrite andb_false_r.
  apply IH. intros ws Hws. apply Hsend. by apply list_elem_of_further.
Qed.

Lemma filter_cancelling_none T (m : Message) l :
  (forall ws, ws ∈ l -> send_json T ws m = None) ->
  List.filter (cancelling T m) l = [].
Proof.
  intros Hsend. apply no_cancelling. intros ws e Hws _ Hs.
  rewrite (Hsend ws Hws) in Hs. discriminate.
Qed.

Lemma filter_healthy_connected T (m : Message) l :
  (forall ws, ws ∈ l -> send_json T ws m = None) ->
  List.filter (healthy T m) l
  = List.filter (fun ws => bool_decide (client_state T ws = CONNECTED)) l.
Proof.
  intros Hsend. apply List.filter_ext_in. intros ws Hws. unfold healthy.
  rewrite (Hsend ws) by (by apply list_elem_of_In).
  rewrite (bool_decide_eq_true_2 (None = None)) by done. apply andb_true_r.
Qed.

(** When no send raises, [broadcast] returns. *)
Lemma broadcast_all_sent T (m : Message) r :
  lock_held r = false ->
  (forall ws, ws ∈ active_connections r -> send_json T ws m = None) ->
  broadcast T m r =
  Returned tt
    {| active_connections := active_connections r;
       lock_held := false;
       delivered :=
         delivered r ++
         map (fun ws => (ws, m))
             (List.filter (fun ws => bool_decide (client_state T ws = CONNECTED))
                          (active_connections r)) |}.
Proof.
  intros Hl Hsend. rewrite broadcast_spec by (done || by apply filter_cancelling_none).
  rewrite filter_failing_none, filter_healthy_connected by done. reflexivity.
Qed.

(** A send that raises an [Exception] is a failing one. *)
Lemma failing_intro T (m : Message) ws e :
  client_state T ws = CONNECTED -> send_json T ws m = Some e ->
  is_Exception e = true -> failing T m ws = true.
Proof.
  intros Hc Hs He. unfold failing. by rewrite (bool_decide_eq_true_2 _ Hc), Hs.
Qed.

End RegistryFacts.

(** C1 (the code departs from the claim).  A registry holds the failing
    subscriber [1] and the healthy subscriber [2].  [broadcast] delivers the
    message to [2] and catches the error of [1], but the removal pass calls
    [disconnect], which waits for the lock that [broadcast] itself holds: the
    call never returns, both subscribers are still registered and the lock
    stays held. *)
Theorem broadcast_failing_subscriber_blocks (Message : Type) (m : Message) :
  broadcast (one_failing Message CONNECTED) m
    {| active_connections := [1; 2]; lock_held := false; delivered := [] |} =
  Blocked {| active_connections := [1; 2]; lock_held := true; delivered := [(2, m)] |}.
Proof. reflexivity. Qed.

(** A subscriber already in state [DISCONNECTED] is skipped without an
    error: delivery to the other goes on, and the subscriber stays
    registered. *)
Lemma broadcast_disconnected_subscriber_stays (Message : Type) (m : Message) :
  broadcast (one_failing Message DISCONNECTED) m
    {| active_connections := [1; 2]; lock_held := false; delivered := [] |} =
  Returned tt {| active_connections := [1; 2]; lock_held := false; delivered := [(2, m)] |}.
Proof. reflexivity. Qed.

(** After the blocked broadcast every later registry operation blocks too. *)
Lemma registry_unusable_after_failed_broadcast (Message : Type) (m : Message) ws :
  let r := final_registry
             (broadcast (one_failing Message CONNECTED) m
                {| active_connections := [1; 2]; lock_held := false; delivered := [] |}) in
  connect ws None r = Blocked r /\ disconnect ws r = Blocked r /\
  broadcast (one_failing Message CONNECTED) m r = Blocked r.
Proof. cbn. repeat split. Qed.

(** C3.  For every sequence of [connect] and [disconnect] calls on a fresh
    manager, the number of entries of a connection is the number of its
    connects that listed it minus the number of its disconnects that found
    it listed, and it is 0 or 1: no connection is listed twice and no
    disconnect takes the count below zero.  The length of the list is the
    number of connects that listed a connection minus the number of
    disconnects that removed one.  [connect] on a connection that is listed
    raises at the handshake, before the list is touched: the connection is
    not duplicated, and the manager is as before. *)
Theorem registry_count_is_connects_minus_disconnects
    (Message : Type) (cs : list call) (ws : WebSocket) :
  let s0 : run_state Message := (ConnectionManager_init, ∅) in
  let s := run_calls cs s0 in
  let this := fun w => bool_decide (w = ws) in
  multiplicity ws (active_connections s.1) + removals this cs s0 = connects this cs s0 /\
  multiplicity ws (active_connections s.1) <= 1 /\
  NoDup (active_connections s.1) /\
  length (active_connections s.1) + removals (fun _ => true) cs s0
    = connects (fun _ => true) cs s0 /\
  lock_held s.1 = false /\
  (ws ∈ active_connections s.1 ->
   forall failure,
     (exists e, run_call (Connect ws failure) s = (Raised e s.1, s.2)) /\
     run_calls (cs ++ [Connect ws failure]) s0 = s).
Proof.
  cbn zeta.
  assert (run_invariant (Message := Message) (ConnectionManager_init, ∅)) as H0.
  { split; [done|]. split; [apply NoDup_nil_2|]. by intros w ?%elem_of_nil. }
  pose proof (run_calls_invariant cs _ H0) as (Hl & Hnd & Hacc).
  pose proof (run_calls_multiplicity ws cs _ H0) as Hm.
  pose proof (run_calls_length cs _ H0) as Hn. cbn in Hm, Hn.
  split; [exact Hm|]. split; [by apply multiplicity_NoDup|]. split; [done|].
  split; [exact Hn|]. split; [done|].
  intros Hin failure. split; [by apply run_call_connect_accepted, Hacc|].
  unfold run_calls. rewrite fold_left_app. cbn.
  by apply step_connect_accepted, Hacc.
Qed.

(** Connection [7] connects twice and leaves once: the second [connect]
    raises and lists nothing, so one [disconnect] empties the list. *)
Lemma connect_twice_lists_once :
  let s0 : run_state unit := (ConnectionManager_init, ∅) in
  active_connections (run_calls [Connect 7 None; Connect 7 None] s0).1 = [7] /\
  (exists e,
     (run_call (Connect 7 None) (run_calls [Connect 7 None] s0)).1
     = Raised e (run_calls [Connect 7 None] s0).1) /\
  active_connections
    (run_calls [Connect 7 None; Connect 7 None; Disconnect 7] s0).1 = [].
Proof.
  cbn zeta. split; [reflexivity|]. split; [|reflexivity].
  destruct (run_call_connect_accepted (Message := unit) 7 None
              (run_calls [Connect 7 None] (ConnectionManager_init, ∅))) as [e He].
  { apply elem_of_union. left. by apply elem_of_singleton. }
  exists e. by rewrite He.
Qed.

(** * Python strings *)

Section StringFacts.

Lemma append_nil_l s : "" +:+ s = s.
Proof. reflexivity. Qed.

Lemma append_cons c s t : String c s +:+ t = String c (s +:+ t).
Proof. reflexivity. Qed.

Lemma append_empty_r s : s +:+ "" = s.
Proof. induction s as [|c s IH]; [done|]. by rewrite append_cons, IH. Qed.

Lemma append_assoc s1 s2 s3 : (s1 +:+ s2) +:+ s3 = s1 +:+ (s2 +:+ s3).
Proof. induction s1 as [|c s1 IH]; [done|]. by rewrite !append_cons, IH. Qed.

Lemma length_append s1 s2 :
  String.length (s1 +:+ s2) = String.length s1 + String.length s2.
Proof. induction s1 as [|c s1 IH]; [done|]. rewrite append_cons. cbn. by rewrite IH. Qed.

Lemma rev_app_append s1 s2 s3 :
  String.rev_app (s1 +:+ s2) s3 = String.rev_app s2 (String.rev_app s1 s3).
Proof.
  revert s3. induction s1 as [|c s1 IH]; intros s3; [done|].
  rewrite append_cons. cbn. apply IH.
Qed.

Lemma rev_app_rev_app s1 s2 s3 :
  String.rev_app (String.rev_app s1 s2) s3 = String.rev_app s2 (s1 +:+ s3).
Proof.
  revert s2 s3. induction s1 as [|c s1 IH]; intros s2 s3; [done|].
  cbn [String.rev_app]. by rewrite IH.
Qed.

Lemma rev_involutive s : String.rev (String.rev s) = s.
Proof.
  unfold String.rev. rewrite rev_app_rev_app. cbn [String.rev_app].
  apply append_empty_r.
Qed.

Lemma rev_snoc s c : String.rev (s +:+ String c "") = String c (String.rev s).
Proof. unfold String.rev. by rewrite rev_app_append. Qed.

(** Stripping leaves alone a text that begins and ends with a character
    that is not white space. *)
Lemma str_strip_tight c s c' :
  is_space c = false -> is_space c' = false ->
  str_strip (String c (s +:+ String c' "")) = String c (s +:+ String c' "").
Proof.
  intros Hc Hc'. unfold str_strip. cbn [str_lstrip]. rewrite Hc.
  unfold str_rstrip. rewrite <- append_cons.
  rewrite rev_snoc. cbn [str_lstrip]. rewrite Hc'.
  rewrite <- rev_snoc. apply rev_involutive.
Qed.

Lemma str_endswith_snoc c s : str_endswith (String c "") (s +:+ String c "") = true.
Proof.
  unfold str_endswith. rewrite rev_snoc.
  change (String.rev (String c "")) with (String c ""). cbn [String.prefix].
  destruct (ascii_dec c c); [by destruct (String.rev s)|done].
Qed.

Lemma substring_all s1 s2 : substring 0 (String.length s1) (s1 +:+ s2) = s1.
Proof.
  induction s1 as [|c s1 IH]; [by destruct s2|].
  rewrite append_cons. cbn. by rewrite IH.
Qed.

Lemma str_map_append f s1 s2 : str_map f (s1 +:+ s2) = str_map f s1 +:+ str_map f s2.
Proof.
  induction s1 as [|c s1 IH]; [done|].
  rewrite append_cons. cbn [str_map]. by rewrite IH, append_cons.
Qed.

Lemma str_replace_plain s : plain_chars s = true -> str_replace ","%char " "%char s = s.
Proof.
  unfold str_replace. induction s as [|c s IH]; cbn; [done|].
  intros [[_ Hc]%andb_true_iff Hs]%andb_true_iff.
  apply negb_true_iff, bool_decide_eq_false in Hc.
  rewrite decide_False by done. by rewrite IH.
Qed.

Lemma str_split_go_word w cur rest :
  plain_chars w = true -> w ≠ "" ->
  str_split_go cur (w +:+ rest)
  = str_split_go (Some (String.rev_app w (default "" cur))) rest.
Proof.
  revert cur. induction w as [|c w IH]; intros cur Hw Hne; [done|].
  cbn in Hw. apply andb_true_iff in Hw as [[Hc _]%andb_true_iff Hw].
  apply negb_true_iff in Hc.
  rewrite append_cons. cbn [str_split_go]. rewrite Hc.
  destruct w as [|c' w]; [reflexivity|].
  rewrite IH by done. reflexivity.
Qed.

Lemma str_split_two a b :
  is_word a = true -> is_word b = true ->
  str_split (a +:+ String " "%char b) = [a; b].
Proof.
  unfold is_word. intros [Ha1 Ha2]%andb_true_iff [Hb1 Hb2]%andb_true_iff.
  apply negb_true_iff, String.eqb_neq in Ha1, Hb1.
  unfold str_split. rewrite str_split_go_word by done.
  cbn [str_split_go]. change (is_space " ") with true. cbn iota.
  rewrite <- (append_empty_r b) at 1.
  rewrite str_split_go_word by done. cbn [str_split_go].
  change (String.rev_app a (default "" None)) with (String.rev a).
  change (String.rev_app b (default "" None)) with (String.rev b).
  by rewrite !rev_involutive.
Qed.

End StringFacts.

(** * Properties of the insights query engine *)

Section InsightsFacts.

Context {RT : Runtime}.

(** ** Summary modes *)

Lemma fold_append_new l acc :
  fold_left append_new l acc = acc ++ first_seen acc l.
Proof.
  revert acc. induction l as [|m l IH]; intros acc; cbn.
  - by rewrite app_nil_r.
  - unfold append_new at 2. destruct (bool_decide (m ∈ acc)); rewrite IH; [done|].
    by rewrite <- app_assoc.
Qed.

Lemma first_seen_elem_of seen l x :
  x ∈ first_seen seen l <-> x ∈ l /\ x ∉ seen.
Proof.
  revert seen. induction l as [|m l IH]; intros seen; cbn.
  - split; [by intros ?%elem_of_nil|by intros [?%elem_of_nil _]].
  - destruct (bool_decide_reflect (m ∈ seen)) as [Hm|Hm].
    + rewrite IH, elem_of_cons. split; [tauto|]. intros [[->|?] ?]; tauto.
    + rewrite !elem_of_cons, IH, elem_of_app, list_elem_of_singleton.
      destruct (decide (x = m)) as [->|]; tauto.
Qed.

Lemma first_seen_NoDup seen l : NoDup (first_seen seen l).
Proof.
  revert seen. induction l as [|m l IH]; intros seen; cbn; [constructor|].
  destruct (bool_decide (m ∈ seen)); [apply IH|].
  constructor; [|apply IH].
  rewrite first_seen_elem_of, elem_of_app, list_elem_of_singleton. tauto.
Qed.

Lemma first_seen_sublist seen l : sublist (first_seen seen l) l.
Proof.
  revert seen. induction l as [|m l IH]; intros seen; cbn; [constructor|].
  destruct (bool_decide (m ∈ seen)); [apply sublist_cons|apply sublist_skip]; apply IH.
Qed.

Lemma active_modes_eq_spec p : active_modes p = spec_active_modes p.
Proof.
  unfold active_modes, spec_active_modes.
  destruct (summary_modes p) as [[|m l]|]; cbn [list_truthy negb default];
    rewrite ?andb_true_r, ?andb_false_r; try (destruct (summary p); reflexivity).
  by rewrite fold_append_new.
Qed.

Lemma active_modes_allowed p m :
  m ∈ active_modes p -> m = "timeseries" \/ m = "stats".
Proof.
  unfold active_modes. intros H%list_elem_of_In%filter_In. destruct H as [_ H].
  apply bool_decide_eq_true_1 in H. unfold SUMMARY_MODES_ALLOWED in H. set_solver.
Qed.

(** C5.  The active modes computed by [fetch_insights] are the ones the
    specification describes: [timeseries] alone when [summary] is set and no
    mode list is given, otherwise the client's list without repetitions, in
    first-seen order, restricted to the allowed modes.  Unknown modes are
    dropped; the request [summary_modes=["stats","timeseries","bogus"]] with
    [summary=false] activates [stats] then [timeseries]. *)
Theorem active_modes_as_specified (p : InsightParams) :
  active_modes p = spec_active_modes p /\
  (forall m, m ∈ active_modes p -> m = "timeseries" \/ m = "stats") /\
  NoDup (active_modes p) /\
  active_modes (with_modes true None p) = ["timeseries"] /\
  active_modes (with_modes false (Some ["stats"; "timeseries"; "bogus"]) p)
    = ["stats"; "timeseries"].
Proof.
  split; [apply active_modes_eq_spec|].
  split; [apply active_modes_allowed|].
  split; [|split; reflexivity].
  rewrite active_modes_eq_spec. unfold spec_active_modes.
  destruct (summary p && negb (list_truthy (summary_modes p))).
  - apply NoDup_singleton.
  - apply NoDup_ListNoDup, List.NoDup_filter, NoDup_ListNoDup, first_seen_NoDup.
Qed.

(** ** The pagination cursor *)

Lemma str_find_ge c s : (-1 <= str_find c s)%Z.
Proof.
  induction s as [|c' s IH]; cbn; [lia|].
  destruct (decide (c = c')); [lia|].
  destruct (Z.ltb_spec (str_find c s) 0); lia.
Qed.

Lemma str_find_cons_absent c c' s :
  str_find c (String c' s) = (-1)%Z -> c ≠ c' /\ str_find c s = (-1)%Z.
Proof.
  cbn. destruct (decide (c = c')); [discriminate|].
  pose proof (str_find_ge c s).
  destruct (Z.ltb_spec (str_find c s) 0); intros; split; [done|lia|done|lia].
Qed.

Lemma str_split_once_at_first c s rest :
  str_find c s = (-1)%Z ->
  str_split_once c (s +:+ String c rest) = Some (s, rest).
Proof.
  induction s as [|c' s IH].
  - intros _. change ("" +:+ String c rest) with (String c rest).
    cbn [str_split_once]. by rewrite decide_True.
  - intros [Hne Hs]%str_find_cons_absent.
    change (String c' s +:+ String c rest) with (String c' (s +:+ String c rest)).
    cbn [str_split_once]. rewrite decide_False by congruence. by rewrite IH.
Qed.

Lemma decode_cursor_encoded t id :
  decode_cursor (isoformat t +:+ "|" +:+ str_int id) = Ok (t, id).
Proof.
  unfold decode_cursor.
  change ("|" +:+ str_int id) with (String "|"%char (str_int id)).
  rewrite str_split_once_at_first by apply isoformat_no_bar.
  cbn. rewrite fromisoformat_isoformat. cbn. rewrite py_int_str_int. done.
Qed.

Lemma decode_cursor_malformed c :
  malformed_cursor c -> exists msg, decode_cursor c = Raise (ValueError msg).
Proof.
  unfold malformed_cursor, decode_cursor.
  destruct (str_split_once "|"%char c) as [[c_time c_id]|]; cbn; [|eauto].
  intros [H|H].
  - rewrite H. cbn. eauto.
  - destruct (fromisoformat c_time); cbn; [|eauto]. rewrite H. cbn. eauto.
Qed.

Lemma decode_cursor_wellformed c :
  ~ malformed_cursor c -> exists t id, decode_cursor c = Ok (t, id).
Proof.
  unfold malformed_cursor, decode_cursor.
  destruct (str_split_once "|"%char c) as [[c_time c_id]|]; cbn; [|tauto].
  destruct (fromisoformat c_time); cbn; [|tauto].
  destruct (py_int c_id); cbn; [eauto|tauto].
Qed.

Lemma decode_cursor_raises_Exception c e :
  decode_cursor c = Raise e -> is_Exception e = true.
Proof.
  unfold decode_cursor.
  destruct (str_split_once "|"%char c) as [[c_time c_id]|]; cbn; [|by intros [= <-]].
  destruct (fromisoformat c_time); cbn; [|by intros [= <-]].
  destruct (py_int c_id); cbn; [discriminate|by intros [= <-]].
Qed.

(** [build_filters] never raises. *)
Lemma build_filters_ok p : exists fs, build_filters p = Ok fs.
Proof.
  unfold build_filters. destruct (str_truthy (cursor p)); [|eauto].
  destruct (decode_cursor (default "" (cursor p))) as [[t id]|e] eqn:Hd; cbn; [eauto|].
  rewrite (decode_cursor_raises_Exception _ _ Hd). eauto.
Qed.

Lemma build_filters_malformed p c :
  cursor p = Some c -> malformed_cursor c ->
  build_filters p = build_filters (with_cursor None p).
Proof.
  intros Hc Hm. unfold build_filters at 1. rewrite Hc.
  change (default "" (Some c)) with c.
  destruct (decode_cursor_malformed c Hm) as [msg ->].
  by destruct (str_truthy (Some c)).
Qed.

Lemma fetch_insights_malformed db now p c :
  cursor p = Some c -> malformed_cursor c ->
  (fetch_insights db now p).2 = (fetch_insights db now (with_cursor None p)).2.
Proof.
  intros Hc Hm. unfold fetch_insights. cbn [snd].
  change (normalize (with_cursor None p)) with (with_cursor None (normalize p)).
  unfold fetch_insights_body.
  rewrite (build_filters_malformed (normalize p) c Hc Hm). reflexivity.
Qed.

(** A structurally invalid cursor adds no predicate. *)
Lemma build_filters_malformed_no_predicate p c :
  cursor p = Some c -> malformed_cursor c ->
  exists fs, build_filters p = Ok fs /\
             build_filters (with_cursor None p) = Ok fs /\
             forall t id, before_cursor t id ∉ fs.
Proof.
  intros Hc Hm. rewrite (build_filters_malformed p c Hc Hm).
  unfold build_filters. cbn [with_cursor cursor str_truthy auv_id type since].
  eexists. split; [reflexivity|]. split; [reflexivity|].
  intros t id H.
  destruct (str_truthy (auv_id p)), (str_truthy (type p)), (since p);
    cbn in H;
    repeat (apply elem_of_cons in H as [H|H]; [discriminate|]);
    by apply elem_of_nil in H.
Qed.

(** ** Rows of the two queries *)

Lemma mapM_map_ok {A B C} (f : B -> result C) (h : A -> B) (g : A -> C) (l : list A) :
  (forall x, f (h x) = Ok (g x)) -> mapM f (map h l) = Ok (map g l).
Proof.
  intros H. induction l as [|x l IH]; [reflexivity|].
  cbn. rewrite H. cbn. rewrite IH. reflexivity.
Qed.

Lemma parse_point_wkt_stored wkt :
  _parse_point_wkt (of_option_str wkt) = Ok (decoded_location wkt).
Proof.
  destruct wkt as [s|]; [|reflexivity].
  unfold _parse_point_wkt, decoded_location. cbn.
  by destruct (String.eqb s "").
Qed.

Lemma isoformat_or_None_stored o :
  isoformat_or_None (of_option_time o) = Ok (iso_or_null o).
Proof. by destruct o. Qed.

Lemma set_if_requested_ok rf key x (pt : gmap string value) :
  set_if_requested rf key (Ok x) pt =
  Ok (if bool_decide (key ∈ rf) then <[key := x]> pt else pt).
Proof. unfold set_if_requested. by destruct (bool_decide (key ∈ rf)). Qed.

(** [make_point] never raises on a row of the telemetry query. *)
Lemma make_point_stored rf t :
  make_point rf (telemetry_row t) = Ok (point_of_reading rf t).
Proof.
  unfold make_point.
  change (getattr (telemetry_row t) "location_wkt")
    with (Ok (of_option_str (tm_location_wkt t))).
  change (getattr (telemetry_row t) "timestamp")
    with (Ok (of_option_time (tm_timestamp t))).
  change (getattr (telemetry_row t) "temperature_c")
    with (Ok (of_option_float (tm_temperature_c t))).
  change (getattr (telemetry_row t) "depth_m")
    with (Ok (of_option_float (tm_depth_m t))).
  change (getattr (telemetry_row t) "velocity_knots")
    with (Ok (of_option_float (tm_velocity_knots t))).
  cbn [mbind result_bind]. rewrite parse_point_wkt_stored.
  cbn [mbind result_bind]. rewrite isoformat_or_None_stored.
  repeat (cbn [mbind result_bind]; rewrite set_if_requested_ok).
  reflexivity.
Qed.

(** ** Points of the timeseries summary *)

Ltac case_requested :=
  repeat match goal with
         | |- context [bool_decide (?k ∈ ?rf)] => destruct (bool_decide (k ∈ rf))
         end.

Lemma point_timestamp rf t :
  point_of_reading rf t !! "timestamp" = Some (iso_or_null (tm_timestamp t)).
Proof.
  unfold point_of_reading. case_requested;
    repeat (rewrite lookup_insert_ne by done); apply lookup_insert_eq.
Qed.

Lemma point_location rf t :
  "location" ∈ rf ->
  point_of_reading rf t !! "location"
  = Some (location_of (decoded_location (tm_location_wkt t))).
Proof.
  intros H. unfold point_of_reading. rewrite (bool_decide_eq_true_2 _ H).
  apply lookup_insert_eq.
Qed.

Lemma point_location_not_requested rf t :
  "location" ∉ rf -> point_of_reading rf t !! "location" = None.
Proof.
  intros H. unfold point_of_reading. rewrite (bool_decide_eq_false_2 _ H).
  case_requested; repeat (rewrite lookup_insert_ne by done); apply lookup_empty.
Qed.

(** The location encoding touches the [location] entry only. *)
Lemma point_frame rf t wkt k :
  k ≠ "location" ->
  point_of_reading rf (with_location wkt t) !! k = point_of_reading rf t !! k.
Proof.
  intros Hk. unfold point_of_reading. cbn [with_location tm_timestamp
    tm_temperature_c tm_depth_m tm_velocity_knots tm_location_wkt].
  destruct (bool_decide ("location" ∈ rf)); [|reflexivity].
  by rewrite !(lookup_insert_ne _ "location" k) by done.
Qed.

Lemma execute_timeseries_rows db auv ws n :
  exists readings, execute_timeseries db auv ws n = map telemetry_row readings.
Proof. unfold execute_timeseries. eauto. Qed.

(** The timeseries block is always built: no row makes it fail, and it has
    one point per row of the query. *)
Lemma timeseries_summary_ok db ws p :
  exists readings d,
    execute_timeseries db (default "" (auv_id p)) ws (timeseries_limit p)
      = map telemetry_row readings /\
    timeseries_summary db ws p = Ok (VDict d) /\
    d !! "points" =
      Some (VList (VDict <$> map (point_of_reading (requested_fields_of p)) readings)) /\
    d !! "count" = Some (VInt (Z.of_nat (length readings))).
Proof.
  destruct (execute_timeseries_rows db (default "" (auv_id p)) ws (timeseries_limit p))
    as [readings Hr].
  exists readings. unfold timeseries_summary. rewrite Hr.
  rewrite (mapM_map_ok _ _ (point_of_reading (requested_fields_of p)))
    by apply make_point_stored.
  cbn [mbind result_bind]. eexists. split; [reflexivity|]. split; [reflexivity|].
  split.
  - rewrite lookup_insert_ne by done. apply lookup_insert_eq.
  - rewrite lookup_insert_eq, length_map. reflexivity.
Qed.

(** C10.  The point built for a telemetry row always has a [timestamp]
    entry, whatever fields are requested: the ISO text of the row's
    timestamp, or null when the row has none; no row raises.  So every point
    of the timeseries block has the entry. *)
Theorem timeseries_point_always_has_timestamp :
  (forall (requested_fields : list string) (t : Telemetry),
     exists pt,
       make_point requested_fields (telemetry_row t) = Ok pt /\
       pt !! "timestamp" =
         Some (match tm_timestamp t with
               | Some ts => VStr (isoformat ts)
               | None => VNone
               end)) /\
  (forall db window_start p,
     exists d points,
       timeseries_summary db window_start p = Ok (VDict d) /\
       d !! "points" = Some (VList (VDict <$> points)) /\
       Forall (fun pt : gmap string value => is_Some (pt !! "timestamp")) points).
Proof.
  split.
  - intros rf t. exists (point_of_reading rf t).
    split; [apply make_point_stored|apply point_timestamp].
  - intros db ws p.
    destruct (timeseries_summary_ok db ws p) as (readings & d & _ & Hs & Hp & _).
    exists d, (map (point_of_reading (requested_fields_of p)) readings).
    split; [exact Hs|]. split; [exact Hp|].
    apply Forall_forall. intros pt Hpt.
    apply list_elem_of_In, in_map_iff in Hpt as (t & <- & _).
    rewrite point_timestamp. eauto.
Qed.

(** ** Decoding of the location *)

(** A text is decoded only when, stripped, it starts with [POINT(] in any
    letter case and ends with a closing parenthesis. *)
Lemma point_of_text_shape s ll :
  point_of_text s = Some ll ->
  str_startswith "POINT(" (str_upper (str_strip s)) = true /\
  str_endswith ")" (str_strip s) = true.
Proof.
  unfold point_of_text.
  destruct (str_startswith "POINT(" (str_upper (str_strip s)));
    destruct (str_endswith ")" (str_strip s)); cbn; (discriminate || done).
Qed.

(** [_parse_point_wkt] never raises on a stored encoding. *)
Lemma parse_point_wkt_total (wkt : option string) :
  exists ll, _parse_point_wkt (of_option_str wkt) = Ok ll.
Proof. rewrite parse_point_wkt_stored. eauto. Qed.

Lemma parse_point_wkt_example lon lat :
  py_float "12.5" = Some lon -> py_float "-3.2" = Some lat ->
  _parse_point_wkt (VStr "POINT(12.5 -3.2)") = Ok (Some (lon, lat)).
Proof.
  intros Hlon Hlat. unfold _parse_point_wkt. cbn [truthy String.eqb Ascii.eqb negb].
  f_equal.
  assert (point_of_text "POINT(12.5 -3.2)" =
          match py_float "12.5" with
          | Some lon =>
              match py_float "-3.2" with
              | Some lat => Some (lon, lat)
              | None => None
              end
          | None => None
          end) as -> by reflexivity.
  by rewrite Hlon, Hlat.
Qed.

(** The text [POINT(a b)] decodes for all float literals [a] and [b]. *)
Lemma point_of_text_wellformed a b lon lat :
  is_word a = true -> is_word b = true ->
  py_float a = Some lon -> py_float b = Some lat ->
  point_of_text ("POINT(" +:+ a +:+ " " +:+ b +:+ ")") = Some (lon, lat).
Proof.
  intros Ha Hb Hlon Hlat. unfold point_of_text.
  set (x := a +:+ String " "%char b).
  assert ("POINT(" +:+ a +:+ " " +:+ b +:+ ")"
          = String "P" (("OINT(" +:+ x) +:+ String ")"%char "")) as ->.
  { unfold x. by rewrite !append_assoc. }
  rewrite str_strip_tight by reflexivity.
  assert (str_startswith "POINT("
            (str_upper (String "P" (("OINT(" +:+ x) +:+ String ")"%char ""))) = true) as ->.
  { rewrite append_assoc. unfold str_startswith, str_upper.
    change (String "P" ("OINT(" +:+ x +:+ String ")"%char ""))
      with ("POINT(" +:+ (x +:+ String ")"%char "")).
    rewrite str_map_append. apply String.prefix_correct.
    change (str_map upper_ascii "POINT(") with "POINT(".
    apply (substring_all "POINT("). }
  rewrite <- (append_cons "P"). rewrite str_endswith_snoc. cbn [negb orb].
  assert (str_find "("%char (String "P" ("OINT(" +:+ x) +:+ String ")"%char "") = 5%Z) as ->
    by reflexivity.
  assert (str_slice_to_last (5 + 1) (String "P" ("OINT(" +:+ x) +:+ String ")"%char "") = x)
    as ->.
  { change (String "P" ("OINT(" +:+ x) +:+ String ")"%char "")
      with ("POINT(" +:+ (x +:+ String ")"%char "")).
    unfold str_slice_to_last. rewrite !length_append.
    change (Z.to_nat (5 + 1)) with 6.
    change (String.length "POINT(") with 6. change (String.length ")") with 1.
    replace (6 + (String.length x + 1) - 1 - 6) with (String.length x) by lia.
    change (substring 6 (String.length x) ("POINT(" +:+ (x +:+ String ")"%char "")))
      with (substring 0 (String.length x) (x +:+ String ")"%char "")).
    apply substring_all. }
  assert (str_replace ","%char " "%char x = x) as ->.
  { unfold is_word in Ha, Hb. apply andb_true_iff in Ha as [_ Ha], Hb as [_ Hb].
    pose proof (str_replace_plain a Ha) as Ea.
    pose proof (str_replace_plain b Hb) as Eb.
    unfold x, str_replace in *. rewrite str_map_append. cbn [str_map].
    rewrite decide_False by done. by rewrite Ea, Eb. }
  unfold x. rewrite str_split_two by done.
  by rewrite Hlon, Hlat.
Qed.

Lemma parse_point_wkt_wellformed a b lon lat :
  is_word a = true -> is_word b = true ->
  py_float a = Some lon -> py_float b = Some lat ->
  _parse_point_wkt (VStr ("POINT(" +:+ a +:+ " " +:+ b +:+ ")")) = Ok (Some (lon, lat)).
Proof.
  intros Ha Hb Hlon Hlat. unfold _parse_point_wkt.
  change (truthy (VStr ("POINT(" +:+ a +:+ " " +:+ b +:+ ")"))) with true.
  cbn [negb]. f_equal. by apply point_of_text_wellformed.
Qed.

Lemma parse_point_wkt_garbage : _parse_point_wkt (VStr "GARBAGE") = Ok None.
Proof. reflexivity. Qed.

Lemma upper_ascii_letter c d :
  upper_ascii c = d -> is_space d = false -> d ≠ "("%char ->
  is_space c = false /\ c ≠ "("%char.
Proof.
  intros <- Hs Hp. split.
  - destruct (is_space c) eqn:Hc; [|done]. rewrite <- Hs. clear Hs Hp.
    destruct c as [[] [] [] [] [] [] [] []]; try discriminate Hc; reflexivity.
  - intros ->. by apply Hp.
Qed.

Lemma upper_ascii_paren c : upper_ascii c = "("%char -> c = "("%char.
Proof. destruct c as [[] [] [] [] [] [] [] []]; intros H; try discriminate H; reflexivity. Qed.

Lemma str_split_word w : is_word w = true -> str_split w = [w].
Proof.
  unfold is_word. intros [Hw1 Hw2]%andb_true_iff.
  apply negb_true_iff, String.eqb_neq in Hw1.
  unfold str_split. rewrite <- (append_empty_r w) at 1.
  rewrite str_split_go_word by done. cbn [str_split_go].
  change (String.rev_app w (default "" None)) with (String.rev w).
  by rewrite rev_involutive.
Qed.

Lemma str_split_word_space w rest :
  is_word w = true -> str_split (w +:+ String " "%char rest) = w :: str_split rest.
Proof.
  unfold is_word. intros [Hw1 Hw2]%andb_true_iff.
  apply negb_true_iff, String.eqb_neq in Hw1.
  unfold str_split. rewrite str_split_go_word by done.
  cbn [str_split_go]. change (is_space " ") with true. cbn iota.
  change (String.rev_app w (default "" None)) with (String.rev w).
  by rewrite rev_involutive.
Qed.

Lemma str_split_space rest : str_split (String " "%char rest) = str_split rest.
Proof. reflexivity. Qed.

Lemma str_replace_append s1 s2 :
  str_replace ","%char " "%char (s1 +:+ s2)
  = str_replace ","%char " "%char s1 +:+ str_replace ","%char " "%char s2.
Proof. apply str_map_append. Qed.

Lemma str_replace_word w :
  is_word w = true -> str_replace ","%char " "%char w = w.
Proof. intros [_ ?]%andb_true_iff. by apply str_replace_plain. Qed.

(** Between a prefix that reads [POINT(] in any letter case and the closing
    parenthesis, only the words of the inner text count, commas being
    white space. *)
Lemma point_of_text_inner pre inner :
  str_upper pre = "POINT(" ->
  point_of_text (pre +:+ inner +:+ ")") =
  match str_split (str_replace ","%char " "%char inner) with
  | [p0; p1] =>
      match py_float p0 with
      | Some lon =>
          match py_float p1 with
          | Some lat => Some (lon, lat)
          | None => None
          end
      | None => None
      end
  | _ => None
  end.
Proof.
  intros Hpre. pose proof Hpre as Hup.
  destruct pre as [|c0 [|c1 [|c2 [|c3 [|c4 [|c5 [|c6 pre]]]]]]]; try discriminate Hpre.
  injection Hpre as H0 H1 H2 H3 H4 H5.
  apply upper_ascii_letter in H0 as [S0 P0]; [|done..].
  apply upper_ascii_letter in H1 as [_ P1]; [|done..].
  apply upper_ascii_letter in H2 as [_ P2]; [|done..].
  apply upper_ascii_letter in H3 as [_ P3]; [|done..].
  pose proof H4 as U4. apply upper_ascii_letter in H4 as [_ P4]; [|done..].
  apply upper_ascii_paren in H5 as ->.
  unfold point_of_text.
  set (pre := String c0 (String c1 (String c2 (String c3 (String c4 "("))))).
  assert (pre +:+ inner +:+ ")" = String c0 (
            (String c1 (String c2 (String c3 (String c4 (String "(" inner)))))
            +:+ String ")"%char "")) as E.
  { unfold pre. by rewrite !append_cons. }
  rewrite E. rewrite str_strip_tight by done. rewrite <- E.
  assert (str_startswith "POINT(" (str_upper (pre +:+ inner +:+ ")")) = true) as ->.
  { unfold str_startswith, str_upper. rewrite str_map_append.
    fold (str_upper pre). unfold pre. rewrite Hup.
    apply String.prefix_correct. apply (substring_all "POINT("). }
  assert (str_endswith ")" (pre +:+ inner +:+ ")") = true) as ->.
  { rewrite <- append_assoc. apply str_endswith_snoc. }
  cbn [negb orb].
  assert (str_find "("%char (pre +:+ inner +:+ ")") = 5%Z) as ->.
  { unfold pre. rewrite !append_cons. cbn [str_find].
    rewrite !(decide_False (P := "("%char = _)) by congruence.
    by rewrite decide_True. }
  assert (str_slice_to_last (5 + 1) (pre +:+ inner +:+ ")") = inner) as ->.
  { unfold str_slice_to_last. rewrite !length_append.
    change (Z.to_nat (5 + 1)) with 6.
    change (String.length pre) with 6. change (String.length ")") with 1.
    replace (6 + (String.length inner + 1) - 1 - 6) with (String.length inner) by lia.
    change (substring 6 (String.length inner) (pre +:+ inner +:+ ")"))
      with (substring 0 (String.length inner) (inner +:+ ")")).
    apply substring_all. }
  reflexivity.
Qed.

(** [_parse_point_wkt] on a text that is not empty. *)
Lemma parse_point_wkt_text s :
  s ≠ "" -> _parse_point_wkt (VStr s) = Ok (point_of_text s).
Proof. intros H. unfold _parse_point_wkt. by destruct s. Qed.

Lemma prefix_not_empty pre inner : str_upper pre = "POINT(" -> pre +:+ inner ≠ "".
Proof. by destruct pre. Qed.

(** A text is decoded exactly when, stripped, it has the shape and holds
    two words that [float] reads. *)
Lemma decoded_location_iff s lon lat :
  decoded_location (Some s) = Some (lon, lat) <->
  s ≠ "" /\
  str_startswith "POINT(" (str_upper (str_strip s)) = true /\
  str_endswith ")" (str_strip s) = true /\
  exists p0 p1,
    str_split (str_replace ","%char " "%char
                 (str_slice_to_last (str_find "("%char (str_strip s) + 1) (str_strip s)))
    = [p0; p1] /\
    py_float p0 = Some lon /\ py_float p1 = Some lat.
Proof.
  unfold decoded_location, point_of_text.
  destruct (String.eqb_spec s "") as [->|Hs].
  { split; [discriminate|]. by intros [? _]. }
  destruct (str_startswith "POINT(" (str_upper (str_strip s))); cbn [negb orb];
    [|split; [discriminate|by intros (_ & ? & _)]].
  destruct (str_endswith ")" (str_strip s)); cbn [negb orb];
    [|split; [discriminate|by intros (_ & _ & ? & _)]].
  destruct (str_split _) as [|p0 [|p1 [|p2 l]]];
    try (split; [discriminate|by intros (_ & _ & _ & ? & ? & ? & _)]).
  split.
  - destruct (py_float p0) as [x|] eqn:H0; [|discriminate].
    destruct (py_float p1) as [y|] eqn:H1; [|discriminate].
    intros [= <- <-]. split; [done|]. split; [done|]. split; [done|].
    exists p0, p1. by rewrite H0, H1.
  - intros (_ & _ & _ & q0 & q1 & [= <- <-] & -> & ->). reflexivity.
Qed.

(** C7.  The encoding [POINT(12.5 -3.2)] decodes to the longitude and
    latitude that [float] reads from [12.5] and [-3.2], and the point carries
    them under [lon] and [lat]; so does every text [POINT(a b)] whose [a] and
    [b] are read by [float].  A text is decoded exactly when, stripped of
    white space, it starts with [POINT(] in any letter case, ends with a
    closing parenthesis and holds between them two words, separated by white
    space or commas, that [float] reads.  Every other encoding decodes to no
    location, without an exception: a missing one, the text [GARBAGE], a
    text with one coordinate or with three, a text whose coordinate [float]
    rejects.  The row still yields its point, whose [location] is then null,
    and the other entries of the point do not depend on the encoding; the
    timeseries block is built whatever the encodings are.  White space
    includes the no-break space. *)
Theorem location_decoding :
  (forall lon lat,
     py_float "12.5" = Some lon -> py_float "-3.2" = Some lat ->
     _parse_point_wkt (VStr "POINT(12.5 -3.2)") = Ok (Some (lon, lat)) /\
     location_of (Some (lon, lat))
       = VDict (<["lat" := VFloat lat]> (<["lon" := VFloat lon]> ∅))) /\
  (forall a b lon lat,
     is_word a = true -> is_word b = true ->
     py_float a = Some lon -> py_float b = Some lat ->
     _parse_point_wkt (VStr ("POINT(" +:+ a +:+ " " +:+ b +:+ ")"))
       = Ok (Some (lon, lat))) /\
  _parse_point_wkt (VStr "GARBAGE") = Ok None /\
  _parse_point_wkt VNone = Ok None /\
  (forall wkt : option string,
     _parse_point_wkt (of_option_str wkt) = Ok (decoded_location wkt)) /\
  (forall s ll,
     decoded_location (Some s) = Some ll ->
     str_startswith "POINT(" (str_upper (str_strip s)) = true /\
     str_endswith ")" (str_strip s) = true) /\
  (forall requested_fields t,
     exists pt,
       make_point requested_fields (telemetry_row t) = Ok pt /\
       ("location" ∈ requested_fields ->
        pt !! "location" = Some (location_of (decoded_location (tm_location_wkt t)))) /\
       (decoded_location (tm_location_wkt t) = None ->
        "location" ∈ requested_fields -> pt !! "location" = Some VNone) /\
       (forall wkt' pt' k,
          make_point requested_fields (telemetry_row (with_location wkt' t)) = Ok pt' ->
          k ≠ "location" -> pt' !! k = pt !! k)) /\
  (forall db window_start p,
     exists block, timeseries_summary db window_start p = Ok block) /\
  (forall s lon lat,
     decoded_location (Some s) = Some (lon, lat) <->
     s ≠ "" /\
     str_startswith "POINT(" (str_upper (str_strip s)) = true /\
     str_endswith ")" (str_strip s) = true /\
     exists p0 p1,
       str_split (str_replace ","%char " "%char
                    (str_slice_to_last (str_find "("%char (str_strip s) + 1) (str_strip s)))
       = [p0; p1] /\
       py_float p0 = Some lon /\ py_float p1 = Some lat) /\
  (forall pre inner,
     str_upper pre = "POINT(" ->
     length (str_split (str_replace ","%char " "%char inner)) ≠ 2 ->
     _parse_point_wkt (VStr (pre +:+ inner +:+ ")")) = Ok None) /\
  (forall pre inner p0 p1,
     str_upper pre = "POINT(" ->
     str_split (str_replace ","%char " "%char inner) = [p0; p1] ->
     py_float p0 = None \/ py_float p1 = None ->
     _parse_point_wkt (VStr (pre +:+ inner +:+ ")")) = Ok None) /\
  _parse_point_wkt (VStr "POINT(12.5 -3.2 GARBAGE)") = Ok None /\
  _parse_point_wkt (VStr "POINT(12.5)") = Ok None /\
  _parse_point_wkt (VStr "POINT()") = Ok None /\
  _parse_point_wkt (VStr "POINT 12.5 -3.2") = Ok None /\
  _parse_point_wkt (VStr "(12.5 -3.2)") = Ok None /\
  _parse_point_wkt (VStr "") = Ok None /\
  (forall lon lat,
     py_float "1" = Some lon -> py_float "2" = Some lat ->
     _parse_point_wkt (VStr ("POINT(1 2)" +:+ String no_break_space "")) = Ok (Some (lon, lat)) /\
     _parse_point_wkt (VStr ("POINT(1" +:+ String no_break_space "2)")) = Ok (Some (lon, lat))).
Proof.
  split. { intros lon lat Hlon Hlat. split; [by apply parse_point_wkt_example|done]. }
  split; [apply parse_point_wkt_wellformed|].
  split; [apply parse_point_wkt_garbage|]. split; [reflexivity|].
  split; [apply parse_point_wkt_stored|]. split.
  { intros s ll H. apply (point_of_text_shape s ll). cbn in H.
    by destruct (String.eqb s ""). }
  split.
  - intros rf t. exists (point_of_reading rf t).
    split; [apply make_point_stored|]. split; [apply point_location|]. split.
    + intros Hnone Hin. rewrite point_location by done. by rewrite Hnone.
    + intros wkt' pt' k Hpt' Hk. rewrite make_point_stored in Hpt'.
      injection Hpt' as <-. by apply point_frame.
  - split.
    { intros db ws p.
      destruct (timeseries_summary_ok db ws p) as (readings & d & _ & Hs & _). eauto. }
    split; [apply decoded_location_iff|]. split.
    { intros pre inner Hpre Hlen.
      rewrite parse_point_wkt_text by (by apply prefix_not_empty).
      rewrite point_of_text_inner by done.
      by destruct (str_split _) as [|p0 [|p1 [|p2 l]]]. }
    split.
    { intros pre inner p0 p1 Hpre Hsplit Hfloat.
      rewrite parse_point_wkt_text by (by apply prefix_not_empty).
      rewrite point_of_text_inner, Hsplit by done.
      destruct Hfloat as [-> | ->]; [done|]. by destruct (py_float p0). }
    do 6 (split; [reflexivity|]).
    intros lon lat Hlon Hlat.
    assert (forall s,
              s ≠ "" ->
              point_of_text s =
              match py_float "1" with
              | Some x => match py_float "2" with Some y => Some (x, y) | None => None end
              | None => None
              end ->
              _parse_point_wkt (VStr s) = Ok (Some (lon, lat))) as Hdec.
    { intros s Hs Hp. rewrite parse_point_wkt_text by done. by rewrite Hp, Hlon, Hlat. }
    split; apply Hdec; (discriminate || reflexivity).
Qed.

(** ** The alert listing *)

Lemma alert_dict_stored a : alert_dict (alert_row a) = Ok (dict_of_alert a).
Proof.
  unfold alert_dict.
  change (getattr (alert_row a) "auv_id") with (Ok (VStr (alert_auv_id a))).
  change (getattr (alert_row a) "type") with (Ok (VStr (alert_type a))).
  change (getattr (alert_row a) "severity") with (Ok (alert_severity a)).
  change (getattr (alert_row a) "status") with (Ok (alert_status a)).
  change (getattr (alert_row a) "message") with (Ok (alert_message a)).
  change (getattr (alert_row a) "started_at")
    with (Ok (of_option_time (alert_started_at a))).
  cbn [mbind result_bind]. rewrite isoformat_or_None_stored. reflexivity.
Qed.

(** The listing query does not select [id]: asking the last row for it
    raises. *)
Lemma getattr_id_raises a : getattr (alert_row a) "id" = Raise no_id_column.
Proof. reflexivity. Qed.

Lemma cursor_fstring_raises a t :
  alert_started_at a = Some t -> cursor_fstring (alert_row a) = Raise no_id_column.
Proof.
  intros H. unfold cursor_fstring.
  change (getattr (alert_row a) "started_at")
    with (Ok (of_option_time (alert_started_at a))).
  rewrite H. reflexivity.
Qed.

(** Lines 121-124 on a page of the listing: no cursor when the page is not
    full or its last row has no timestamp, an exception otherwise. *)
Lemma next_cursor_of_listing l n :
  next_cursor_of (map alert_row l) n =
  if cursor_due l n then Raise no_id_column else Ok None.
Proof.
  unfold next_cursor_of, cursor_due. rewrite length_map.
  assert (bool_decide (map alert_row l = []) = bool_decide (l = [])) as ->.
  { apply bool_decide_ext. by destruct l. }
  destruct (negb (bool_decide (l = [])) && (Z.of_nat (length l) =? n)%Z); [|reflexivity].
  cbn [andb]. change (map alert_row l) with (alert_row <$> l). rewrite fmap_last.
  destruct (last l) as [a|]; [|reflexivity]. cbn [fmap option_fmap option_map].
  change (getattr (alert_row a) "started_at")
    with (Ok (of_option_time (alert_started_at a))).
  cbn [mbind result_bind].
  destruct (alert_started_at a) as [t|] eqn:Ht; cbn [of_option_time].
  - rewrite (cursor_fstring_raises a t Ht).
    rewrite bool_decide_eq_true_2 by eauto. reflexivity.
  - rewrite bool_decide_eq_false_2 by (by intros [? ?]). reflexivity.
Qed.

(** [fetch_insights] after normalisation, in terms of the page of alerts. *)
Lemma fetch_insights_body_listing db now q :
  exists fs,
    build_filters q = Ok fs /\
    fetch_insights_body db now q =
      if cursor_due (page db fs (limit q)) (limit q) then Raise no_id_column
      else
        let out : gmap string value :=
          <["alerts" := VList (VDict <$> map dict_of_alert (page db fs (limit q)))]> ∅ in
        if bool_decide (active_modes q = []) then Ok out
        else add_summaries db now q (active_modes q) out.
Proof.
  destruct (build_filters_ok q) as [fs Hfs]. exists fs. split; [done|].
  unfold fetch_insights_body. rewrite Hfs. cbn [mbind result_bind].
  unfold execute_listing. fold (page db fs (limit q)).
  change (select_row alert_column listing_columns) with alert_row.
  rewrite (mapM_map_ok _ _ dict_of_alert) by apply alert_dict_stored.
  cbn [mbind result_bind]. rewrite next_cursor_of_listing.
  destruct (cursor_due (page db fs (limit q)) (limit q)); reflexivity.
Qed.

(** Whenever the page is full and ends with a timestamped alert,
    [fetch_insights] raises. *)
Lemma fetch_insights_full_page_raises db now p fs :
  build_filters (normalize p) = Ok fs ->
  cursor_due (page db fs (limit (normalize p))) (limit (normalize p)) = true ->
  (fetch_insights db now p).2 = Raise no_id_column.
Proof.
  intros Hfs Hdue. unfold fetch_insights. cbn [snd].
  destruct (fetch_insights_body_listing db now (normalize p)) as (fs' & Hfs' & ->).
  rewrite Hfs in Hfs'. injection Hfs' as <-. by rewrite Hdue.
Qed.

Lemma add_summaries_keeps db now q modes (out out' : gmap string value) k :
  add_summaries db now q modes out = Ok out' ->
  k ≠ "summaries" -> out' !! k = out !! k.
Proof.
  unfold add_summaries. intros H Hk.
  destruct (window_start_of now q) as [ws|]; [|discriminate].
  cbn [mbind result_bind] in H.
  destruct (if bool_decide ("timeseries" ∈ modes) then _ else _) as [s1|];
    [|discriminate].
  cbn [mbind result_bind] in H.
  destruct (if bool_decide ("stats" ∈ modes) then _ else _) as [s2|];
    [|discriminate].
  cbn [mbind result_bind] in H. injection H as <-.
  by rewrite lookup_insert_ne.
Qed.

(** No answer of [fetch_insights] carries a [pagination] entry. *)
Lemma fetch_insights_never_paginates db now p out :
  (fetch_insights db now p).2 = Ok out -> out !! "pagination" = None.
Proof.
  unfold fetch_insights. cbn [snd].
  destruct (fetch_insights_body_listing db now (normalize p)) as (fs & _ & ->).
  destruct (cursor_due _ _); [discriminate|]. cbn zeta.
  destruct (bool_decide (active_modes (normalize p) = [])).
  - intros [= <-]. by rewrite lookup_insert_ne.
  - intros H. rewrite (add_summaries_keeps _ _ _ _ _ _ "pagination" H) by done.
    by rewrite lookup_insert_ne.
Qed.

(** The page has at most [limit] alerts, the clamped limit. *)
Lemma page_bounded db fs p :
  (Z.of_nat (length (page db fs (limit (normalize p)))) <= limit (normalize p))%Z /\
  (1 <= limit (normalize p) <= 100)%Z.
Proof.
  unfold page, sql_limit. rewrite length_take. cbn [normalize limit]. lia.
Qed.

(** ** The pagination cursor is never built *)

(** Line 124 raises on every row of the listing. *)
Lemma cursor_fstring_row_raises a : exists e, cursor_fstring (alert_row a) = Raise e.
Proof.
  destruct (alert_started_at a) as [t|] eqn:Ht.
  - rewrite (cursor_fstring_raises a t Ht). eauto.
  - unfold cursor_fstring.
    change (getattr (alert_row a) "started_at")
      with (Ok (of_option_time (alert_started_at a))).
    rewrite Ht. cbn. eauto.
Qed.

(** C4 (the code departs from the claim).  The code never encodes a
    cursor: on every row that the listing query returns, line 124 raises
    (the row has no [id]), so lines 121-124 give no cursor or raise, and no
    answer of [fetch_insights] carries one; there is no emitted cursor to
    decode.  The decoding side is as claimed: the text [<iso>|<id>] of a
    timestamp and an identifier decodes to that pair, and a cursor that is
    structurally invalid raises nothing and adds no predicate: the filters,
    and the whole answer, are those of the request without a cursor. *)
Theorem cursor_is_never_encoded_and_malformed_ignored :
  (forall a, exists e, cursor_fstring (alert_row a) = Raise e) /\
  (forall a t,
     alert_started_at a = Some t -> cursor_fstring (alert_row a) = Raise no_id_column) /\
  (forall db fs n,
     next_cursor_of (execute_listing db fs n) n =
     if cursor_due (page db fs n) n then Raise no_id_column else Ok None) /\
  (forall db fs n c, next_cursor_of (execute_listing db fs n) n ≠ Ok (Some c)) /\
  (forall db now p out,
     (fetch_insights db now p).2 = Ok out -> out !! "pagination" = None) /\
  (forall (t : datetime) (id : Z),
     decode_cursor (isoformat t +:+ "|" +:+ str_int id) = Ok (t, id)) /\
  (forall db now p c,
     cursor p = Some c -> malformed_cursor c ->
     (exists fs, build_filters p = Ok fs /\
                 build_filters (with_cursor None p) = Ok fs /\
                 forall t id, before_cursor t id ∉ fs) /\
     (fetch_insights db now p).2 = (fetch_insights db now (with_cursor None p)).2).
Proof.
  assert (forall db fs n,
            next_cursor_of (execute_listing db fs n) n =
            if cursor_due (page db fs n) n then Raise no_id_column else Ok None) as Hnext.
  { intros db fs n. unfold execute_listing. fold (page db fs n).
    change (select_row alert_column listing_columns) with alert_row.
    apply next_cursor_of_listing. }
  split; [apply cursor_fstring_row_raises|]. split; [apply cursor_fstring_raises|].
  split; [exact Hnext|]. split.
  { intros db fs n c. rewrite Hnext. by destruct (cursor_due _ _). }
  split; [apply fetch_insights_never_paginates|].
  split; [apply decode_cursor_encoded|].
  intros db now p c Hc Hm.
  split; [by eapply build_filters_malformed_no_predicate|by eapply fetch_insights_malformed].
Qed.

(** ** The timeseries mode without a vehicle *)

(** When [fetch_insights] answers such a request, the answer has
    [timeseries_error], has no [timeseries], and lists the alerts that the
    same request without summaries lists. *)
Lemma timeseries_error_when_answered db now p out :
  "timeseries" ∈ active_modes (normalize p) ->
  str_truthy (auv_id p) = false ->
  (fetch_insights db now p).2 = Ok out ->
  exists summaries out0,
    out !! "summaries" = Some (VDict summaries) /\
    summaries !! "timeseries_error" = Some (VStr "timeseries summary requires auv_id") /\
    summaries !! "timeseries" = None /\
    (fetch_insights db now (with_modes false None p)).2 = Ok out0 /\
    out !! "alerts" = out0 !! "alerts".
Proof.
  intros Hmode Hauv. unfold fetch_insights. cbn [snd].
  change (normalize (with_modes false None p))
    with (with_modes false None (normalize p)).
  destruct (fetch_insights_body_listing db now (normalize p)) as (fs & Hfs & ->).
  destruct (fetch_insights_body_listing db now (with_modes false None (normalize p)))
    as (fs' & Hfs' & ->).
  change (build_filters (with_modes false None (normalize p)))
    with (build_filters (normalize p)) in Hfs'.
  rewrite Hfs in Hfs'. injection Hfs' as <-.
  change (limit (with_modes false None (normalize p))) with (limit (normalize p)).
  destruct (cursor_due _ _); [discriminate|]. cbn zeta.
  rewrite (bool_decide_eq_false_2 (active_modes (normalize p) = [])).
  2:{ intros Heq. rewrite Heq in Hmode. by apply elem_of_nil in Hmode. }
  change (active_modes (with_modes false None (normalize p))) with (@nil string).
  rewrite bool_decide_eq_true_2 by done.
  unfold add_summaries.
  destruct (window_start_of now (normalize p)) as [ws|]; [|discriminate].
  cbn [mbind result_bind]. rewrite (bool_decide_eq_true_2 _ Hmode).
  change (auv_id (normalize p)) with (auv_id p). rewrite Hauv. cbn [negb].
  cbn [mbind result_bind].
  destruct (bool_decide ("stats" ∈ active_modes (normalize p))).
  - destruct (stats_summary db ws (normalize p)) as [st|]; [|discriminate].
    cbn [mbind result_bind]. intros [= <-]. eexists _, _.
    split; [apply lookup_insert_eq|].
    split; [by rewrite lookup_insert_ne, lookup_insert_eq|].
    split; [by rewrite !lookup_insert_ne|]. split; [reflexivity|].
    by rewrite lookup_insert_ne.
  - cbn [mbind result_bind]. intros [= <-]. eexists _, _.
    split; [apply lookup_insert_eq|].
    split; [apply lookup_insert_eq|].
    split; [by rewrite lookup_insert_ne|]. split; [reflexivity|].
    by rewrite lookup_insert_ne.
Qed.

(** C6 (the code departs from the claim).  One alert is stored; the request
    asks for one alert per page with [summary] set and no vehicle, so the
    timeseries mode is active without a vehicle filter.  The page is full,
    and [fetch_insights] raises [AttributeError] while it builds the cursor:
    no [timeseries_error] and no listing are returned. *)
Theorem timeseries_without_vehicle_raises_on_full_page (t now : datetime) :
  let db := {| db_alerts := [alert_at 1 t]; db_telemetry := [];
               db_nulls_largest := true |} in
  let p := with_modes true None (with_limits 1 30 default_params) in
  active_modes (normalize p) = ["timeseries"] /\
  auv_id (normalize p) = None /\
  (fetch_insights db now p).2 = Raise no_id_column.
Proof. cbn zeta. split; [reflexivity|]. split; reflexivity. Qed.

(** ** The caller's request object *)

Lemma normalize_fixed p :
  normalize p = p <->
  (1 <= limit p <= 100)%Z /\ (10 <= timeseries_limit p <= 2000)%Z.
Proof.
  destruct p as [a ty l s sm wm tl tf si c]. unfold normalize. cbn. split.
  - intros [= Hl Htl]. lia.
  - intros [Hl Htl]. f_equal; lia.
Qed.

(** C9, as the code has it.  [fetch_insights] writes the clamped limits into
    the caller's object: after the call [limit] is [max(1, min(limit, 100))]
    and [timeseries_limit] is [max(10, min(timeseries_limit, 2000))]; every
    other field is as before; the object is unchanged exactly when both
    limits were within their bounds. *)
Theorem fetch_insights_clamps_request_in_place db now (p : InsightParams) :
  let p' := (fetch_insights db now p).1 in
  limit p' = Z.max 1 (Z.min (limit p) 100) /\
  timeseries_limit p' = Z.max 10 (Z.min (timeseries_limit p) 2000) /\
  auv_id p' = auv_id p /\ type p' = type p /\ summary p' = summary p /\
  summary_modes p' = summary_modes p /\ window_minutes p' = window_minutes p /\
  timeseries_fields p' = timeseries_fields p /\ since p' = since p /\
  cursor p' = cursor p /\
  (p' = p <-> (1 <= limit p <= 100)%Z /\ (10 <= timeseries_limit p <= 2000)%Z).
Proof.
  cbn zeta. unfold fetch_insights. cbn [fst].
  repeat (split; [reflexivity|]). apply normalize_fixed.
Qed.

End InsightsFacts.

(** * Properties of the ingestion loop *)

Section IngestionFacts.

Context {Reading AlertData Message : Type}.
Context (json_loads : string -> result Reading).
Context (check_thresholds : Reading -> result (option AlertData)).
Context (envelope : AlertData -> Message).
Context (T : Transport Message).

(** The collaborators raise errors only: cancellation does not come from
    the decoder, from the threshold check or from a send. *)
Hypothesis json_loads_errors :
  forall s e, json_loads s = Raise e -> is_Exception e = true.
Hypothesis check_thresholds_errors :
  forall r e, check_thresholds r = Raise e -> is_Exception e = true.
Hypothesis send_json_errors :
  forall ws m e, send_json T ws m = Some e -> is_Exception e = true.

#[local] Abbreviation state := (loop_state AlertData Message).
#[local] Abbreviation check_for_alert' := (check_for_alert Reading AlertData Message check_thresholds envelope T).
#[local] Abbreviation handle_text' := (handle_text Reading AlertData Message json_loads check_thresholds envelope T).
#[local] Abbreviation consume' := (consume Reading AlertData Message json_loads check_thresholds envelope T).
#[local] Abbreviation iteration' := (iteration Reading AlertData Message json_loads check_thresholds envelope T).
#[local] Abbreviation monitor := (monitor_telemetry Reading AlertData Message json_loads check_thresholds envelope T).
#[local] Abbreviation flow_state' := (flow_state AlertData Message).
#[local] Abbreviation errors_only_flow := (flow_raises_errors_only AlertData Message).
#[local] Abbreviation flow_lock := (flow_lock AlertData Message).
#[local] Abbreviation flow_free := (flow_free AlertData Message).

(** [broadcast] catches the errors of the sends: it returns or blocks. *)
Lemma broadcast_never_raises (m : Message) r e r' : broadcast T m r ≠ Raised e r'.
Proof.
  destruct (lock_held r) eqn:H.
  - by rewrite broadcast_on_held_lock.
  - rewrite broadcast_spec;
      [|done|apply no_cancelling; intros ws e0 _ _; apply send_json_errors].
    by destruct (List.filter (failing T m) (active_connections r)).
Qed.

Lemma check_for_alert_flow telemetry (st : state) :
  errors_only_flow (check_for_alert' telemetry st) /\
  flow_lock (check_for_alert' telemetry st) /\
  exists alerts,
    trace (flow_state' (check_for_alert' telemetry st))
    = trace st ++ map EvBroadcast alerts.
Proof.
  unfold check_for_alert.
  destruct (check_thresholds telemetry) as [[alert|]|e] eqn:Hc; cbn.
  - destruct (broadcast T (envelope alert) (manager st)) as [[] r|e r|r] eqn:Hb.
    + split; [done|]. split; [done|]. by exists [alert].
    + by apply broadcast_never_raises in Hb.
    + split; [done|]. split; [by eapply broadcast_blocked_holds_lock|].
      by exists [alert].
  - split; [done|]. split; [done|]. exists []. by rewrite app_nil_r.
  - split; [by eapply check_thresholds_errors|]. split; [done|].
    exists []. by rewrite app_nil_r.
Qed.

Lemma handle_text_flow data (st : state) :
  errors_only_flow (handle_text' data st) /\
  flow_lock (handle_text' data st) /\
  exists alerts,
    trace (flow_state' (handle_text' data st)) = trace st ++ map EvBroadcast alerts.
Proof.
  unfold handle_text. destruct (json_loads data) as [telemetry|e] eqn:Hj.
  - destruct (check_for_alert_flow telemetry st) as (He & Hk & Ht).
    destruct (check_for_alert' telemetry st) as [st'|e st'|st']; cbn in *; [done| |done].
    destruct (is_JSONDecodeError e); done.
  - destruct (is_JSONDecodeError e); cbn.
    + split; [done|]. split; [done|]. exists []. by rewrite app_nil_r.
    + split; [by eapply json_loads_errors|]. split; [done|].
      exists []. by rewrite app_nil_r.
Qed.

Lemma consume_flow frames (st : state) :
  forallb frame_is_error frames = true ->
  errors_only_flow (consume' frames st) /\
  flow_lock (consume' frames st) /\
  exists alerts,
    trace (flow_state' (consume' frames st)) = trace st ++ map EvBroadcast alerts.
Proof.
  revert st. induction frames as [|f frames IH]; intros st Hf; cbn.
  - split; [done|]. split; [done|]. exists []. by rewrite app_nil_r.
  - cbn in Hf. apply andb_true_iff in Hf as [Hf1 Hf2].
    destruct f as [msg|e]; cbn.
    + assert (forall st0 : state, exists alerts,
                trace st0 = trace st0 ++ map (EvBroadcast (Alert:=AlertData)) alerts) as Hnil.
      { intros st0. exists []. by rewrite app_nil_r. }
      destruct (msg_type msg); try (by apply IH);
        try (split; [done|split; [done|apply Hnil]]).
      destruct (handle_text_flow (msg_data msg) st) as (He & Hk & a1 & Ht).
      destruct (handle_text' (msg_data msg) st) as [st'|e st'|st']; cbn in *;
        [|by eauto|by eauto].
      destruct (IH st' Hf2) as (He' & Hk' & a2 & Ht'). split; [done|]. split; [done|].
      exists (a1 ++ a2). rewrite Ht', Ht, map_app. by rewrite app_assoc.
    + split; [done|]. split; [done|]. exists []. by rewrite app_nil_r.
Qed.

(** One pass through the [try] statement ends at line 150 or blocks in
    [broadcast]; it has made one connection attempt and some broadcasts. *)
Lemma iteration_flow u (st : state) :
  match u with
  | ConnectFails e => is_Exception e = true
  | Session frames => forallb frame_is_error frames = true
  end ->
  (forall e st', iteration' u st ≠ Throw e st') /\
  flow_lock (iteration' u st) /\
  exists alerts,
    trace (flow_state' (iteration' u st))
    = trace st ++ EvConnect :: map EvBroadcast alerts.
Proof.
  intros Hu. unfold iteration. destruct u as [e|frames].
  - rewrite Hu. split; [by destruct (is_ClientError e)|].
    split; [by destruct (is_ClientError e)|].
    exists []. by destruct (is_ClientError e).
  - destruct (consume_flow frames (record_event AlertData Message EvConnect st) Hu)
      as (He & Hk & alerts & Ht).
    destruct (consume' frames _) as [st'|e st'|st']; cbn in *.
    + split; [done|]. split; [done|]. exists alerts. by rewrite Ht, <- app_assoc.
    + rewrite He. split; [by destruct (is_ClientError e)|].
      split; [by destruct (is_ClientError e)|].
      exists alerts. destruct (is_ClientError e); cbn; by rewrite Ht, <- app_assoc.
    + split; [done|]. split; [done|]. exists alerts. by rewrite Ht, <- app_assoc.
Qed.

(** ** When no send raises *)

Lemma check_for_alert_free telemetry (st : state) :
  (forall ws m, send_json T ws m = None) ->
  lock_held (manager st) = false ->
  flow_free (check_for_alert' telemetry st).
Proof.
  intros Hsend Hl. unfold check_for_alert.
  destruct (check_thresholds telemetry) as [[alert|]|e]; cbn; [|done..].
  by rewrite broadcast_all_sent by done.
Qed.

Lemma handle_text_free data (st : state) :
  (forall ws m, send_json T ws m = None) ->
  lock_held (manager st) = false ->
  flow_free (handle_text' data st).
Proof.
  intros Hsend Hl. unfold handle_text. destruct (json_loads data) as [telemetry|e].
  - pose proof (check_for_alert_free telemetry st Hsend Hl) as H.
    destruct (check_for_alert' telemetry st) as [st'|e st'|st']; [done| |done].
    by destruct (is_JSONDecodeError e).
  - by destruct (is_JSONDecodeError e).
Qed.

Lemma consume_free frames (st : state) :
  (forall ws m, send_json T ws m = None) ->
  lock_held (manager st) = false ->
  flow_free (consume' frames st).
Proof.
  intros Hsend. revert st. induction frames as [|f frames IH]; intros st Hl; [done|].
  destruct f as [msg|e]; [|done]. cbn [consume].
  destruct (msg_type msg); try (by apply IH); try done.
  pose proof (handle_text_free (msg_data msg) st Hsend Hl) as H.
  destruct (handle_text' (msg_data msg) st) as [st'|e st'|st']; [by apply IH|done..].
Qed.

Lemma iteration_free u (st : state) :
  (forall ws m, send_json T ws m = None) ->
  lock_held (manager st) = false ->
  flow_free (iteration' u st).
Proof.
  intros Hsend Hl. unfold iteration. destruct u as [e|frames].
  - destruct (is_ClientError e); [done|]. by destruct (is_Exception e).
  - pose proof (consume_free frames (record_event AlertData Message EvConnect st) Hsend Hl)
      as H.
    destruct (consume' frames _) as [st'|e st'|st']; [done| |done].
    destruct (is_ClientError e); [done|]. by destruct (is_Exception e).
Qed.

Lemma errors_only_upstream a :
  errors_only a = true ->
  att_cancelled_in_sleep a = false /\
  match att_upstream a with
  | ConnectFails e => is_Exception e = true
  | Session frames => forallb frame_is_error frames = true
  end.
Proof.
  unfold errors_only. intros [H1 H2]%andb_true_iff.
  split; [by apply negb_true_iff|]. by destruct (att_upstream a).
Qed.

Lemma monitor_rounds feed k n (st : state) :
  (forall j, errors_only (feed j) = true) ->
  match monitor feed k n st with
  | Running st' =>
      exists rounds, length rounds = n /\
        trace st' = trace st ++ concat (map round_events rounds)
  | Suspended st' =>
      exists rounds alerts, length rounds < n /\
        trace st' = trace st ++ concat (map round_events rounds)
                      ++ EvConnect :: map EvBroadcast alerts
  | Terminated _ _ => False
  end.
Proof.
  intros Hfeed. revert k st. induction n as [|n IH]; intros k st; cbn.
  - exists []. by rewrite app_nil_r.
  - destruct (errors_only_upstream _ (Hfeed k)) as [Hsleep Hup].
    destruct (iteration_flow (att_upstream (feed k)) st Hup) as (Hthrow & _ & alerts & Ht).
    destruct (iteration' (att_upstream (feed k)) st) as [st1|e st1|st1]; cbn in Ht.
    + rewrite Hsleep. specialize (IH (S k) (record_event AlertData Message
                                               (EvSleep reconnect_delay) st1)).
      destruct (monitor feed (S k) n _) as [st'|e st'|st']; [| done |].
      * destruct IH as (rounds & Hlen & Htr). exists (alerts :: rounds).
        split; [cbn; lia|]. rewrite Htr. cbn [record_event trace]. rewrite Ht.
        cbn [map concat]. unfold round_events at 2.
        rewrite <- !app_assoc. cbn. by rewrite <- !app_assoc.
      * destruct IH as (rounds & alerts' & Hlen & Htr). exists (alerts :: rounds), alerts'.
        split; [cbn; lia|]. rewrite Htr. cbn [record_event trace]. rewrite Ht.
        cbn [map concat]. unfold round_events at 2.
        rewrite <- !app_assoc. cbn. by rewrite <- !app_assoc.
    + by destruct (Hthrow e st1).
    + exists [], alerts. split; [cbn; lia|]. by rewrite Ht.
Qed.

(** When no send raises, no round waits: every round ends and the next
    one follows. *)
Lemma monitor_runs feed k n (st : state) :
  (forall j, errors_only (feed j) = true) ->
  (forall ws m, send_json T ws m = None) ->
  lock_held (manager st) = false ->
  exists st', monitor feed k n st = Running st' /\ lock_held (manager st') = false.
Proof.
  intros Hfeed Hsend. revert k st. induction n as [|n IH]; intros k st Hl; cbn; [eauto|].
  destruct (errors_only_upstream _ (Hfeed k)) as [Hsleep Hup].
  destruct (iteration_flow (att_upstream (feed k)) st Hup) as (Hthrow & _).
  pose proof (iteration_free (att_upstream (feed k)) st Hsend Hl) as Hfree.
  destruct (iteration' (att_upstream (feed k)) st) as [st1|e st1|st1].
  - rewrite Hsleep. by apply IH.
  - by destruct (Hthrow e st1).
  - done.
Qed.

(** What follows a pass through the [try] statement. *)
Lemma monitor_round feed k n (st : state) :
  (forall j, errors_only (feed j) = true) ->
  match iteration' (att_upstream (feed k)) st with
  | Next st1 =>
      (exists alerts, trace st1 = trace st ++ EvConnect :: map EvBroadcast alerts) /\
      monitor feed k (S n) st =
      monitor feed (S k) n
        {| manager := manager st1; trace := trace st1 ++ [EvSleep 5%Z] |}
  | Throw _ _ => False
  | Stuck st1 =>
      lock_held (manager st1) = true /\ monitor feed k (S n) st = Suspended st1
  end.
Proof.
  intros Hfeed. destruct (errors_only_upstream _ (Hfeed k)) as [Hsleep Hup].
  destruct (iteration_flow (att_upstream (feed k)) st Hup) as (Hthrow & Hk & Ht).
  cbn [monitor_telemetry].
  destruct (iteration' (att_upstream (feed k)) st) as [st1|e st1|st1].
  - split; [exact Ht|]. by rewrite Hsleep.
  - by destruct (Hthrow e st1).
  - done.
Qed.

Lemma round_events_sleeps (rounds : list (list AlertData)) :
  sleeps_fixed (concat (map round_events rounds)).
Proof.
  unfold sleeps_fixed. induction rounds as [|alerts rounds IH]; cbn; [constructor|].
  constructor; [done|]. rewrite <- app_assoc. apply Forall_app. split.
  - apply Forall_forall. intros ev Hev.
    apply list_elem_of_In, in_map_iff in Hev as (a & <- & _). done.
  - by constructor.
Qed.

(** A feed that refuses every connection: every round is a connection
    attempt followed by the sleep. *)
Lemma monitor_refused feed k n (st : state) :
  (forall j, exists e, att_upstream (feed j) = ConnectFails e) ->
  (forall j, errors_only (feed j) = true) ->
  monitor feed k n st =
  Running {| manager := manager st;
             trace := trace st ++
                      concat (repeat [EvConnect; EvSleep reconnect_delay] n) |}.
Proof.
  intros Hfail Hfeed. revert k st. induction n as [|n IH]; intros k st; cbn.
  - rewrite app_nil_r. by destruct st.
  - destruct (Hfail k) as [e He].
    destruct (errors_only_upstream _ (Hfeed k)) as [Hsleep Hup].
    rewrite He in Hup. rewrite He. unfold iteration. rewrite Hup, Hsleep.
    assert ((if is_ClientError e
             then Next (record_event AlertData Message EvConnect st)
             else Next (record_event AlertData Message EvConnect st))
            = Next (record_event AlertData Message EvConnect st)) as ->
      by (by destruct (is_ClientError e)).
    rewrite IH. cbn. by rewrite <- !app_assoc.
Qed.

(** C8.  Against an environment that raises errors only (no cancellation
    comes from the feed, the decoder, the threshold check or a send), the
    loop never terminates.  Every pass through the [try] statement that
    ends, cleanly or with an error, is followed by a sleep of the fixed
    delay, which is 5 seconds in every round, and by the next connection
    attempt; the only pass that does not end is one that waits for the
    registry lock inside a broadcast.  When no send raises, every pass
    ends, whatever the sessions are: [n] rounds are [n] connection attempts,
    each with the broadcasts of its session and a sleep of 5 seconds.
    Against a feed that refuses every connection, [n] rounds are [n]
    attempts, each followed by a sleep of 5 seconds. *)
Theorem monitor_telemetry_reconnects_forever
    (feed : nat -> attempt) (n : nat) (st : state) :
  (forall j, errors_only (feed j) = true) ->
  reconnect_delay = 5%Z /\
  (forall e st', monitor feed 0 n st ≠ Terminated e st') /\
  (forall st', monitor feed 0 n st = Running st' ->
     exists rounds,
       length rounds = n /\
       trace st' = trace st ++ concat (map round_events rounds) /\
       sleeps_fixed (concat (map round_events rounds))) /\
  (forall k (st0 : state),
     match iteration' (att_upstream (feed k)) st0 with
     | Next st1 =>
         (exists alerts, trace st1 = trace st0 ++ EvConnect :: map EvBroadcast alerts) /\
         monitor feed k (S n) st0 =
         monitor feed (S k) n
           {| manager := manager st1; trace := trace st1 ++ [EvSleep 5%Z] |}
     | Throw _ _ => False
     | Stuck st1 =>
         lock_held (manager st1) = true /\ monitor feed k (S n) st0 = Suspended st1
     end) /\
  ((forall ws m, send_json T ws m = None) ->
   lock_held (manager st) = false ->
   exists st' rounds,
     monitor feed 0 n st = Running st' /\
     length rounds = n /\
     trace st' = trace st ++ concat (map round_events rounds) /\
     sleeps_fixed (concat (map round_events rounds)) /\
     lock_held (manager st') = false) /\
  ((forall j, exists e, att_upstream (feed j) = ConnectFails e) ->
   exists st',
     monitor feed 0 n st = Running st' /\
     trace st' = trace st ++ concat (repeat [EvConnect; EvSleep 5%Z] n)).
Proof.
  intros Hfeed. split; [reflexivity|].
  pose proof (monitor_rounds feed 0 n st Hfeed) as H.
  split; [|split; [|split; [|split]]].
  - intros e st' Heq. by rewrite Heq in H.
  - intros st' Heq. rewrite Heq in H. destruct H as (rounds & Hlen & Htr).
    exists rounds. split; [done|]. split; [done|]. apply round_events_sleeps.
  - intros k st0. by apply monitor_round.
  - intros Hsend Hl. destruct (monitor_runs feed 0 n st Hfeed Hsend Hl) as (st' & Hrun & Hl').
    rewrite Hrun in H. destruct H as (rounds & Hlen & Htr).
    exists st', rounds. split; [done|]. split; [done|]. split; [done|].
    split; [apply round_events_sleeps|done].
  - intros Hfail. rewrite (monitor_refused feed 0 n st Hfail Hfeed). eauto.
Qed.

End IngestionFacts.

(** * The specification's examples, run on the plain runtime *)

(** C2 (the code departs from the claim).  On the example of the
    specification the query selects the alerts 40, 30, 20 in that order, the
    page is full, and [fetch_insights] raises [AttributeError] at [last.id]
    instead of returning the page with a cursor: the listing query does not
    select the [id] column.  The cursor text for [(T2, 20)] would decode to
    that pair, and the query with that cursor predicate continues at alert
    10. *)
Theorem listing_example_raises_instead_of_cursor :
  let p := with_limits 3 30 (default_params (RT := PlainRuntime.runtime)) in
  build_filters p = Ok [] /\
  map alert_id (page example_db [] (limit (normalize p))) = [40; 30; 20]%Z /\
  (fetch_insights example_db PlainRuntime.T3 p).2 = Raise no_id_column /\
  decode_cursor "2024-01-01T00:00:02|20" = Ok (PlainRuntime.T2, 20%Z) /\
  build_filters (with_cursor (Some "2024-01-01T00:00:02|20") p)
    = Ok [before_cursor PlainRuntime.T2 20] /\
  map alert_id (page example_db [before_cursor PlainRuntime.T2 20] (limit (normalize p)))
    = [10%Z].
Proof. cbn zeta. repeat split; reflexivity. Qed.

(** C9, the claim as stated fails: a request with [limit=500] and
    [timeseries_limit=5] comes back with [limit=100] and
    [timeseries_limit=10]. *)
Lemma fetch_insights_rewrites_caller_limits :
  let p := with_limits 500 5 (default_params (RT := PlainRuntime.runtime)) in
  let p' := (fetch_insights empty_db PlainRuntime.T1 p).1 in
  limit p = 500%Z /\ limit p' = 100%Z /\
  timeseries_limit p = 5%Z /\ timeseries_limit p' = 10%Z /\
  p' ≠ p.
Proof. cbn zeta. repeat (split; [reflexivity|]). discriminate. Qed.

(** On the example of the specification with [limit=3] the page is full
    and no cursor is built; the cursor [GARBAGE] is ignored. *)
Lemma cursor_is_never_encoded_witness :
  next_cursor_of (execute_listing example_db [] 3) 3 = Raise no_id_column /\
  malformed_cursor (RT := PlainRuntime.runtime) "GARBAGE" /\
  (fetch_insights example_db PlainRuntime.T3
     (with_cursor (Some "GARBAGE") default_params)).2
  = (fetch_insights example_db PlainRuntime.T3
       (with_cursor None (with_cursor (Some "GARBAGE") default_params))).2.
Proof.
  destruct (cursor_is_never_encoded_and_malformed_ignored (RT := PlainRuntime.runtime))
    as (_ & _ & Hnext & _ & _ & _ & Hmalformed).
  split; [apply Hnext|]. split; [exact I|].
  exact (proj2 (Hmalformed example_db PlainRuntime.T3
                  (with_cursor (Some "GARBAGE") default_params) "GARBAGE" eq_refl I)).
Defined.

(** The decoding of [POINT(12.5 -3.2)] on the plain runtime, where [12.5] is
    25/2 and [-3.2] is -16/5. *)
Lemma location_decoding_witness :
  py_float (Runtime := PlainRuntime.runtime) "12.5" = Some (25, 2)%Z /\
  py_float (Runtime := PlainRuntime.runtime) "-3.2" = Some (-16, 5)%Z /\
  _parse_point_wkt (RT := PlainRuntime.runtime) (VStr "POINT(12.5 -3.2)")
    = Ok (Some ((25, 2)%Z, (-16, 5)%Z)).
Proof.
  split; [reflexivity|]. split; [reflexivity|].
  exact (proj1 (proj1 (location_decoding (RT := PlainRuntime.runtime))
                  (25, 2)%Z (-16, 5)%Z eq_refl eq_refl)).
Defined.

(** Three rounds against the mixed feed: a refused connection, a session
    that broadcasts the alert 1 and is lost, and a session that the upstream
    closes.  Each round ends with the sleep of 5 seconds. *)
Lemma monitor_telemetry_reconnects_forever_witness :
  monitor_telemetry nat nat nat length_loads odd_alerts id two_not_connected
    mixed_feed 0 3 three_listed =
  Running
    {| manager := {| active_connections := [1; 2; 3]; lock_held := false;
                     delivered := [(1, 1); (3, 1)] |};
       trace := [EvConnect; EvSleep 5%Z;
                 EvConnect; EvBroadcast 1; EvSleep 5%Z;
                 EvConnect; EvSleep 5%Z] |} /\
  exists st' rounds,
    monitor_telemetry nat nat nat length_loads odd_alerts id two_not_connected
      mixed_feed 0 3 three_listed = Running st' /\
    length rounds = 3 /\
    trace st' = trace three_listed ++ concat (map round_events rounds) /\
    sleeps_fixed (concat (map round_events rounds)) /\
    lock_held (manager st') = false.
Proof.
  split; [reflexivity|].
  refine (proj1 (proj2 (proj2 (proj2 (proj2
    (monitor_telemetry_reconnects_forever length_loads odd_alerts id two_not_connected
       _ _ _ mixed_feed 3 three_listed _))))) _ _).
  - intros s e. unfold length_loads. destruct (String.eqb s ""); [|discriminate].
    by intros [= <-].
  - intros r e [=].
  - intros ws m e [=].
  - intros [|[|j]]; reflexivity.
  - reflexivity.
  - reflexivity.
Defined.

(** * Further properties of the subscriber registry *)

Section RegistryLaws.

Context {Message : Type}.
Implicit Types (r : Registry Message) (ws : WebSocket) (l : list WebSocket).

#[local] Arguments connect : simpl never.
#[local] Arguments disconnect : simpl never.
#[local] Arguments broadcast : simpl never.

Lemma list_remove_snoc_absent ws l : ws ∉ l -> list_remove ws (l ++ [ws]) = l.
Proof.
  induction l as [|y l IH]; cbn; intros H.
  - by rewrite decide_True.
  - apply not_elem_of_cons in H as [Hne Hnin].
    rewrite decide_False by done. by rewrite IH.
Qed.

(** Registering a connection that is not yet listed and deregistering it
    again gives back the registry as it was. *)
Theorem connect_then_disconnect_restores ws r :
  lock_held r = false -> ws ∉ active_connections r ->
  exists r1,
    connect ws None r = Returned tt r1 /\
    ws ∈ active_connections r1 /\
    disconnect ws r1 = Returned tt r.
Proof.
  intros Hl Hnin. eexists. split; [by apply connect_appends|].
  split; [cbn; apply elem_of_app; right; apply list_elem_of_here|].
  rewrite disconnect_present; cbn; [|done|apply elem_of_app; right; apply list_elem_of_here].
  rewrite list_remove_snoc_absent by done. destruct r; cbn in *. by rewrite Hl.
Qed.

(** [disconnect] returns on a free lock and removes at most one entry, the
    first one of the connection: the list splits at the first occurrence of
    the connection, and what stands before and behind it stays, in order.  A
    connection that is not listed leaves the registry as it is. *)
Theorem disconnect_removes_first_entry_only ws r :
  lock_held r = false ->
  exists r',
    disconnect ws r = Returned tt r' /\
    lock_held r' = false /\ delivered r' = delivered r /\
    sublist (active_connections r') (active_connections r) /\
    (forall ws', multiplicity ws' (active_connections r') =
                 if decide (ws = ws') then pred (multiplicity ws' (active_connections r))
                 else multiplicity ws' (active_connections r)) /\
    (ws ∈ active_connections r ->
     exists l1 l2,
       active_connections r = l1 ++ ws :: l2 /\ (ws ∉ l1) /\
       active_connections r' = l1 ++ l2) /\
    (ws ∉ active_connections r -> r' = r).
Proof.
  intros Hl. destruct (decide (ws ∈ active_connections r)) as [Hin|Hin].
  - eexists. split; [by apply disconnect_present|]. cbn.
    split; [done|]. split; [done|]. split; [apply list_remove_sublist|].
    split; [intros ws'; apply multiplicity_remove|].
    split; [intros _; by apply list_remove_first|done].
  - exists r. split; [by apply disconnect_absent|].
    split; [done|]. split; [done|]. split; [done|]. split; [|done].
    intros ws'. destruct (decide (ws = ws')) as [<-|]; [|done].
    by rewrite multiplicity_absent.
Qed.

(** When no send raises, [broadcast] returns with the lock released and the
    connections as they were, and it has sent the message once to each listed
    connection in state [CONNECTED], in the order of the list. *)
Theorem broadcast_without_failure_delivers_in_order (T : Transport Message)
    (m : Message) r :
  lock_held r = false ->
  (forall ws, ws ∈ active_connections r -> send_json T ws m = None) ->
  broadcast T m r =
  Returned tt
    {| active_connections := active_connections r;
       lock_held := false;
       delivered :=
         delivered r ++
         map (fun ws => (ws, m))
             (List.filter (fun ws => bool_decide (client_state T ws = CONNECTED))
                          (active_connections r)) |}.
Proof.
  intros Hl Hsend. by apply broadcast_all_sent.
Qed.

(** As soon as one send raises an [Exception], and no send raises what is
    not one, [broadcast] never returns: the cleanup waits for the lock that
    [broadcast] holds.  No connection is removed, the lock stays held, and
    from then on [connect], [disconnect] and [broadcast] all wait forever. *)
Theorem broadcast_with_failure_never_returns (T : Transport Message) (m : Message) r ws e :
  lock_held r = false ->
  (forall ws' e', ws' ∈ active_connections r -> client_state T ws' = CONNECTED ->
                  send_json T ws' m = Some e' -> is_Exception e' = true) ->
  ws ∈ active_connections r ->
  client_state T ws = CONNECTED ->
  send_json T ws m = Some e ->
  exists r',
    broadcast T m r = Blocked r' /\
    lock_held r' = true /\
    active_connections r' = active_connections r /\
    (forall ws', connect ws' None r' = Blocked r') /\
    (forall ws', disconnect ws' r' = Blocked r') /\
    (forall T' m', broadcast T' m' r' = Blocked r').
Proof.
  intros Hl Hall Hin Hc Hs.
  destruct (broadcast_failure_holds_lock T m r ws Hl (no_cancelling T m _ Hall) Hin)
    as (r' & Hb & Hl'); [by eapply failing_intro, Hall|].
  exists r'. split; [done|]. split; [done|]. split.
  { pose proof (broadcast_keeps_connections T m r) as Hk. by rewrite Hb in Hk. }
  split; [intros; by apply connect_on_held_lock|].
  split; [intros; by apply disconnect_on_held_lock|].
  intros; by apply broadcast_on_held_lock.
Qed.

(** A send that raises what is not an [Exception] (the cancellation of the
    task) leaves [broadcast] at once: the exception goes to the caller, the
    lock is released, no connection is removed, the healthy connections
    before that one have the message and those behind it get nothing.  The
    registry can be used afterwards. *)
Theorem broadcast_cancelled_send_releases_lock (T : Transport Message) (m : Message)
    r l1 c l2 e :
  lock_held r = false ->
  active_connections r = l1 ++ c :: l2 ->
  (forall ws e', ws ∈ l1 -> client_state T ws = CONNECTED ->
                 send_json T ws m = Some e' -> is_Exception e' = true) ->
  client_state T c = CONNECTED ->
  send_json T c m = Some e ->
  is_Exception e = false ->
  exists r',
    broadcast T m r = Raised e r' /\
    lock_held r' = false /\
    active_connections r' = active_connections r /\
    delivered r' =
      delivered r ++
      map (fun ws => (ws, m))
          (List.filter (fun ws => bool_decide (client_state T ws = CONNECTED) &&
                                  bool_decide (send_json T ws m = None)) l1) /\
    (forall ws, exists r'', connect ws None r' = Returned tt r'').
Proof.
  intros Hl Hact Hall Hc Hs He.
  pose proof (broadcast_cancelled T m r l1 c l2 e Hl Hact (no_cancelling T m l1 Hall)
                Hc Hs He) as Hb.
  eexists. split; [exact Hb|].
  split; [done|]. split; [done|]. split; [done|].
  intros ws. eexists. by apply connect_appends.
Qed.

(** [broadcast] sends nothing but the message, and only to listed
    connections that are in state [CONNECTED]: what was delivered before
    stays, and every new delivery is such a one. *)
Theorem broadcast_delivers_only_to_connected_members (T : Transport Message)
    (m : Message) r :
  exists sent,
    delivered (final_registry (broadcast T m r)) = delivered r ++ sent /\
    Forall (fun d => d.2 = m /\ d.1 ∈ active_connections r /\
                     client_state T d.1 = CONNECTED /\ send_json T d.1 m = None) sent.
Proof.
  destruct (proj1 (broadcast_cases T m r)) as (l & [k Hk] & ->). cbn.
  exists (map (fun ws => (ws, m)) (List.filter (healthy T m) l)). split; [done|].
  apply Forall_forall. intros d Hd.
  apply list_elem_of_In, in_map_iff in Hd as (ws & <- & Hws).
  apply filter_In in Hws as [Hin Hh]. unfold healthy in Hh.
  apply andb_true_iff in Hh as [H1%bool_decide_eq_true_1 H2%bool_decide_eq_true_1].
  cbn. split; [done|]. split; [|done].
  rewrite Hk. apply elem_of_app. left. by apply list_elem_of_In.
Qed.

End RegistryLaws.

(** * Further properties of the ingestion loop *)

Section IngestionLaws.

Context {Reading AlertData Message : Type}.
Context (json_loads : string -> result Reading).
Context (check_thresholds : Reading -> result (option AlertData)).
Context (envelope : AlertData -> Message).
Context (T : Transport Message).

#[local] Abbreviation state := (loop_state AlertData Message).
#[local] Abbreviation consume' :=
  (consume Reading AlertData Message json_loads check_thresholds envelope T).
#[local] Abbreviation iteration' :=
  (iteration Reading AlertData Message json_loads check_thresholds envelope T).
#[local] Abbreviation monitor :=
  (monitor_telemetry Reading AlertData Message json_loads check_thresholds envelope T).
#[local] Abbreviation quiet :=
  (quiet_frame Reading AlertData json_loads check_thresholds).

Lemma iteration_throws_no_error u (st st' : state) e :
  iteration' u st = Throw e st' -> is_Exception e = false.
Proof.
  unfold iteration.
  destruct (match u with ConnectFails e0 => _ | Session frames => _ end)
    as [s1|e1 s1|s1]; [discriminate| |discriminate].
  destruct (is_ClientError e1); [discriminate|].
  destruct (is_Exception e1) eqn:He; [discriminate|]. by intros [= <- _].
Qed.

(** The loop ends only with an exception that is not an [Exception]: the
    cancellation of the task.  No error of the feed, of the decoding or of
    the threshold check ends it. *)
Theorem monitor_telemetry_ends_only_when_cancelled
    (feed : nat -> attempt) (k n : nat) (st st' : state) (e : exn) :
  monitor feed k n st = Terminated e st' -> is_Exception e = false.
Proof.
  revert k st. induction n as [|n IH]; intros k st; cbn; [discriminate|].
  destruct (iteration' (att_upstream (feed k)) st) as [s1|e1 s1|s1] eqn:Hit.
  - destruct (att_cancelled_in_sleep (feed k)); [by intros [= <- _]|apply IH].
  - intros [= <- _]. by eapply iteration_throws_no_error.
  - discriminate.
Qed.

(** A session of quiet frames ends cleanly and changes nothing: text that
    is not JSON is skipped, and nothing is broadcast. *)
Theorem quiet_session_changes_nothing (frames : list frame) (st : state) :
  Forall quiet frames -> consume' frames st = Next st.
Proof.
  induction 1 as [|f frames Hf _ IH]; [reflexivity|].
  destruct f as [msg|e]; [|done]. cbn [consume]. unfold quiet_frame in Hf.
  destruct (msg_type msg); try exact IH; try reflexivity.
  unfold handle_text, check_for_alert.
  destruct Hf as [[why ->]|(reading & -> & ->)]; exact IH.
Qed.

(** When every send succeeds, a session of decodable readings hands each
    alert, in the order of the frames, to every listed connection in state
    [CONNECTED], in the order of the list; it records one broadcast per
    alert and leaves the connections and the lock as they were. *)
Theorem session_alerts_fan_out_in_order
    (items : list (string * Reading * option AlertData)) (st : state) :
  lock_held (manager st) = false ->
  (forall ws m, send_json T ws m = None) ->
  Forall (fun i => json_loads i.1.1 = Ok i.1.2 /\ check_thresholds i.1.2 = Ok i.2) items ->
  let alerts := omap snd items in
  let connected :=
    List.filter (fun ws => bool_decide (client_state T ws = CONNECTED))
                (active_connections (manager st)) in
  consume' (map (fun i => text_frame i.1.1) items) st =
  Next {| manager :=
            {| active_connections := active_connections (manager st);
               lock_held := false;
               delivered :=
                 delivered (manager st) ++
                 flat_map (fun alert => map (fun ws => (ws, envelope alert)) connected)
                          alerts |};
          trace := trace st ++ map EvBroadcast alerts |}.
Proof.
  intros Hl Hsend Hitems. cbn zeta. revert st Hl.
  induction Hitems as [|[[data reading] alert] items [Hj Hc] _ IH]; intros st Hl.
  - cbn. rewrite !app_nil_r. destruct st as [[? ? ?] ?]. cbn in *. by rewrite Hl.
  - cbn [map consume text_frame msg_type msg_data fst snd].
    cbn [fst snd] in Hj, Hc. unfold handle_text, check_for_alert. rewrite Hj, Hc.
    destruct alert as [alert|].
    + cbn [record_event manager trace].
      rewrite broadcast_all_sent by (done || intros; apply Hsend).
      cbn [is_JSONDecodeError]. rewrite IH by done. cbn.
      rewrite <- !app_assoc. reflexivity.
    + rewrite IH by done. reflexivity.
Qed.

Lemma consume_until_close (frames rest : list frame) (msg : WSMessage) (st : state) :
  Forall quiet frames ->
  msg_type msg = CLOSED \/ msg_type msg = ERROR ->
  consume' (frames ++ Msg msg :: rest) st = Next st.
Proof.
  intros Hq Hty. induction Hq as [|f frames Hf _ IH].
  - cbn [app consume]. by destruct Hty as [-> | ->].
  - destruct f as [msg'|e]; [|done]. cbn [app consume]. unfold quiet_frame in Hf.
    destruct (msg_type msg'); try exact IH; try reflexivity.
    unfold handle_text, check_for_alert.
    destruct Hf as [[why ->]|(reading & -> & ->)]; exact IH.
Qed.

(** A frame of type [CLOSED] or [ERROR] ends the session: the frames that
    would follow are not read, and the round goes on to the sleep and to the
    next connection attempt. *)
Theorem close_or_error_frame_ends_session (feed : nat -> attempt) (k n : nat)
    (frames rest : list frame) (msg : WSMessage) (st : state) :
  Forall quiet frames ->
  msg_type msg = CLOSED \/ msg_type msg = ERROR ->
  att_upstream (feed k) = Session (frames ++ Msg msg :: rest) ->
  att_cancelled_in_sleep (feed k) = false ->
  consume' (frames ++ Msg msg :: rest) st = Next st /\
  monitor feed k (S n) st =
  monitor feed (S k) n
    {| manager := manager st;
       trace := trace st ++ [EvConnect; EvSleep reconnect_delay] |}.
Proof.
  intros Hq Hty Hfeed Hsleep.
  assert (forall st0 : state, consume' (frames ++ Msg msg :: rest) st0 = Next st0) as Hc.
  { intros st0. by apply consume_until_close. }
  split; [apply Hc|].
  cbn [monitor_telemetry]. unfold iteration. rewrite Hfeed, Hc, Hsleep.
  unfold record_event. cbn [manager trace]. by rewrite <- app_assoc.
Qed.

(** One send that raises an [Exception] stops the ingestion for good: the
    round in which an alert meets a listed, connected subscriber whose send
    raises never ends, whatever the number of rounds asked for; the registry
    lock stays held and no sleep or further connection attempt follows.  (No
    send raises what is not an [Exception].) *)
Theorem monitor_telemetry_hangs_after_failed_send (feed : nat -> attempt) (k n : nat)
    (data : string) (reading : Reading) (alert : AlertData) (rest : list frame)
    (bad : WebSocket) (e : exn) (st : state) :
  att_upstream (feed k) = Session (text_frame data :: rest) ->
  json_loads data = Ok reading ->
  check_thresholds reading = Ok (Some alert) ->
  lock_held (manager st) = false ->
  (forall ws e', ws ∈ active_connections (manager st) -> client_state T ws = CONNECTED ->
                 send_json T ws (envelope alert) = Some e' -> is_Exception e' = true) ->
  bad ∈ active_connections (manager st) ->
  client_state T bad = CONNECTED ->
  send_json T bad (envelope alert) = Some e ->
  exists st',
    monitor feed k (S n) st = Suspended st' /\
    lock_held (manager st') = true /\
    active_connections (manager st') = active_connections (manager st) /\
    trace st' = trace st ++ [EvConnect; EvBroadcast alert].
Proof.
  intros Hfeed Hj Hc Hl Hall Hin Hstate Hsend.
  destruct (broadcast_failure_holds_lock T (envelope alert) (manager st) bad Hl
              (no_cancelling T _ _ Hall) Hin)
    as (r' & Hb & Hl'); [by eapply failing_intro, Hall|].
  pose proof (broadcast_keeps_connections T (envelope alert) (manager st)) as Hk.
  rewrite Hb in Hk. cbn [final_registry] in Hk.
  eexists. cbn [monitor_telemetry]. unfold iteration. rewrite Hfeed.
  cbn [consume text_frame msg_type msg_data]. unfold handle_text, check_for_alert.
  rewrite Hj, Hc. unfold record_event. cbn [manager trace]. rewrite Hb.
  split; [reflexivity|]. cbn [manager trace]. split; [done|]. split; [done|].
  by rewrite <- app_assoc.
Qed.

(** A send that raises [CancelledError] ends the task: the exception leaves
    [broadcast], which releases the lock, and none of the handlers of the
    loop catches it. *)
Theorem monitor_telemetry_ends_at_cancelled_send (feed : nat -> attempt) (k n : nat)
    (data : string) (reading : Reading) (alert : AlertData) (rest : list frame)
    (l1 l2 : list WebSocket) (c : WebSocket) (st : state) :
  att_upstream (feed k) = Session (text_frame data :: rest) ->
  json_loads data = Ok reading ->
  check_thresholds reading = Ok (Some alert) ->
  lock_held (manager st) = false ->
  active_connections (manager st) = l1 ++ c :: l2 ->
  (forall ws e', ws ∈ l1 -> client_state T ws = CONNECTED ->
                 send_json T ws (envelope alert) = Some e' -> is_Exception e' = true) ->
  client_state T c = CONNECTED ->
  send_json T c (envelope alert) = Some CancelledError ->
  exists st',
    monitor feed k (S n) st = Terminated CancelledError st' /\
    lock_held (manager st') = false /\
    active_connections (manager st') = active_connections (manager st) /\
    trace st' = trace st ++ [EvConnect; EvBroadcast alert].
Proof.
  intros Hfeed Hj Hc Hl Hact Hall Hstate Hsend.
  eexists. cbn [monitor_telemetry]. unfold iteration. rewrite Hfeed.
  cbn [consume text_frame msg_type msg_data]. unfold handle_text, check_for_alert.
  rewrite Hj, Hc. unfold record_event. cbn [manager trace].
  rewrite (broadcast_cancelled T (envelope alert) (manager st) l1 c l2 CancelledError)
    by (done || by apply no_cancelling).
  cbn. split; [reflexivity|]. cbn. split; [done|]. split; [done|].
  by rewrite <- app_assoc.
Qed.

End IngestionLaws.

(** * Properties of the alert control channel *)

Section ControlChannelLaws.

Context {Payload Message : Type}.
Implicit Types (r : Registry Message) (ws : WebSocket) (t : turn Payload).

#[local] Arguments connect : simpl never.
#[local] Arguments disconnect : simpl never.

Lemma receive_loop_answered (turns rest : list (turn Payload)) acts :
  forallb answered turns = true ->
  receive_loop (turns ++ rest) acts =
  receive_loop rest (acts ++ map Sent (omap reply_to turns)).
Proof.
  revert acts. induction turns as [|t turns IH]; intros acts H.
  - cbn. by rewrite app_nil_r.
  - cbn in H. apply andb_true_iff in H as [Ht H].
    change (omap reply_to (t :: turns))
      with (match reply_to t with
            | Some y => y :: omap reply_to turns
            | None => omap reply_to turns
            end).
    cbn [app receive_loop]. unfold answered in Ht. unfold reply_to at 1.
    destruct (received t) as [data|e].
    + apply bool_decide_eq_true_1 in Ht. rewrite Ht. rewrite IH by done.
      cbn [map]. by rewrite <- app_assoc.
    + destruct e; try discriminate.
      apply bool_decide_eq_true_1 in Ht. rewrite Ht. rewrite IH by done.
      cbn [map]. by rewrite <- app_assoc.
Qed.

Lemma answered_replies (turns : list (turn Payload)) :
  forallb answered turns = true ->
  length (omap reply_to turns) = length turns.
Proof.
  induction turns as [|t turns IH]; [done|]. cbn [forallb].
  intros [Ht H]%andb_true_iff.
  change (omap reply_to (t :: turns))
    with (match reply_to t with
          | Some y => y :: omap reply_to turns
          | None => omap reply_to turns
          end).
  unfold answered in Ht. unfold reply_to at 1.
  destruct (received t) as [data|e]; [cbn; by rewrite IH|].
  destruct e; try discriminate. cbn. by rewrite IH.
Qed.

(** The pass raises [e] out of the receive loop. *)
Lemma receive_loop_raising t e (rest : list (turn Payload)) acts :
  receive_loop [t] [] = ([], LoopRaised e) ->
  receive_loop (t :: rest) acts = (acts, LoopRaised e).
Proof.
  cbn. destruct (received t) as [data|e0].
  - destruct (echo_send t) as [e1|]; [|discriminate].
    destruct e1; try (by intros [= <-]);
      destruct (error_send t); (discriminate || by intros [= <-]).
  - destruct e0; try (by intros [= <-]);
      destruct (error_send t); (discriminate || by intros [= <-]).
Qed.

Lemma connected_then_removed ws r :
  lock_held r = false -> ws ∉ active_connections r ->
  exists r1, connect ws None r = Returned tt r1 /\ disconnect ws r1 = Returned tt r.
Proof.
  intros Hl Hnin. eexists. split; [by apply connect_appends|].
  rewrite disconnect_present; cbn; [|done|apply elem_of_app; right; apply list_elem_of_here].
  rewrite list_remove_snoc_absent by done. destruct r; cbn in *. by rewrite Hl.
Qed.

(** A client connects, sends messages and leaves.  Every message is
    answered in order, JSON with an echo of its payload and anything else
    with the error reply, which does not close the connection; when the
    client disconnects the handler returns and the registry is as it was
    before the client came. *)
Theorem control_channel_answers_then_deregisters ws (c : client Payload)
    (turns : list (turn Payload)) r :
  lock_held r = false -> ws ∉ active_connections r ->
  cl_accept c = None ->
  cl_turns c = turns ++ [raising_turn WebSocketDisconnect] ->
  forallb answered turns = true ->
  websocket_endpoint ws c r = Finished r (map Sent (omap reply_to turns)) /\
  length (omap reply_to turns) = length turns.
Proof.
  intros Hl Hnin Hacc Hturns Hans. split; [|by apply answered_replies].
  destruct (connected_then_removed ws r Hl Hnin) as (r1 & Hc & Hd).
  unfold websocket_endpoint. rewrite Hacc, Hc, Hturns.
  rewrite receive_loop_answered by done. cbn. by rewrite Hd.
Qed.

(** An exception other than a disconnect, raised while receiving or while
    replying, ends the handler: the connection is closed with code 1011 if it
    still reports [CONNECTED], it is deregistered, and the passes that would
    follow are not played. *)
Theorem control_channel_error_closes_and_deregisters ws (c : client Payload)
    (turns later : list (turn Payload)) t e r :
  lock_held r = false -> ws ∉ active_connections r ->
  cl_accept c = None ->
  cl_turns c = turns ++ t :: later ->
  forallb answered turns = true ->
  receive_loop [t] [] = ([], LoopRaised e) ->
  is_Exception e = true -> e ≠ WebSocketDisconnect ->
  cl_close c = None ->
  websocket_endpoint ws c r =
  Finished r (map Sent (omap reply_to turns) ++
              if decide (cl_state c = CONNECTED) then [Closed 1011] else []).
Proof.
  intros Hl Hnin Hacc Hturns Hans Ht He Hne Hclose.
  destruct (connected_then_removed ws r Hl Hnin) as (r1 & Hc & Hd).
  unfold websocket_endpoint. rewrite Hacc, Hc, Hturns.
  rewrite receive_loop_answered by done.
  rewrite (receive_loop_raising t e later _ Ht). cbn [app].
  rewrite He, Hclose, Hd.
  destruct e; try done;
    destruct (decide (cl_state c = CONNECTED)); cbn; by rewrite ?app_nil_r.
Qed.

(** After a broadcast in which a send raised an [Exception] (and no send
    raised what is not one), a client that connects is accepted and then
    waits forever: it is never registered and gets no answer. *)
Theorem control_channel_dead_after_failed_broadcast (T : Transport Message)
    (m : Message) r bad e ws (c : client Payload) :
  lock_held r = false ->
  (forall ws' e', ws' ∈ active_connections r -> client_state T ws' = CONNECTED ->
                  send_json T ws' m = Some e' -> is_Exception e' = true) ->
  bad ∈ active_connections r ->
  client_state T bad = CONNECTED ->
  send_json T bad m = Some e ->
  cl_accept c = None ->
  exists r',
    broadcast T m r = Blocked r' /\
    websocket_endpoint ws c r' = Pending r' [] /\
    active_connections r' = active_connections r.
Proof.
  intros Hl Hall Hin Hc Hs Hacc.
  destruct (broadcast_failure_holds_lock T m r bad Hl (no_cancelling T m _ Hall) Hin)
    as (r' & Hb & Hl'); [by eapply failing_intro, Hall|].
  exists r'. split; [done|]. split.
  - unfold websocket_endpoint. rewrite Hacc. by rewrite connect_on_held_lock.
  - pose proof (broadcast_keeps_connections T m r) as Hk. by rewrite Hb in Hk.
Qed.

(** While a client is connected and every message it sent has been
    answered, the handler waits for the next message with the connection
    listed, so a broadcast in which no send raises what is not an
    [Exception] reaches the client if it reports [CONNECTED] and takes the
    message.  A client whose handshake fails is never listed. *)
Theorem connected_client_is_listed_and_reached (T : Transport Message) (m : Message)
    ws (c : client Payload) r :
  lock_held r = false ->
  cl_accept c = None ->
  forallb answered (cl_turns c) = true ->
  exists r1,
    websocket_endpoint ws c r = Pending r1 (map Sent (omap reply_to (cl_turns c))) /\
    active_connections r1 = active_connections r ++ [ws] /\
    lock_held r1 = false /\
    ((forall ws' e, ws' ∈ active_connections r -> client_state T ws' = CONNECTED ->
                    send_json T ws' m = Some e -> is_Exception e = true) ->
     client_state T ws = CONNECTED -> send_json T ws m = None ->
     (ws, m) ∈ delivered (final_registry (broadcast T m r1))) /\
    (forall e (c' : client Payload),
       cl_accept c' = Some e -> websocket_endpoint ws c' r = Escaped e r []).
Proof.
  intros Hl Hacc Hans. eexists. split; [|split; [|split; [|split]]].
  - unfold websocket_endpoint. rewrite Hacc, connect_appends by done.
    rewrite <- (app_nil_r (cl_turns c)) at 1.
    rewrite receive_loop_answered by done. reflexivity.
  - reflexivity.
  - reflexivity.
  - intros Hall Hc Hs. apply broadcast_reaches_healthy; [done| | |done..].
    + apply no_cancelling. cbn. intros ws' e [Hw| ->%list_elem_of_singleton]%elem_of_app.
      * by apply Hall.
      * intros _ Hs'. rewrite Hs in Hs'. discriminate.
    + cbn. apply elem_of_app. right. apply list_elem_of_here.
  - intros e c' Hacc'. unfold websocket_endpoint. by rewrite Hacc', connect_refused.
Qed.

End ControlChannelLaws.

(** * Further properties of the insights query engine *)

Section InsightsLaws.

Context {RT : Runtime}.

#[local] Set Warnings "-clear-no-such-hyp".

(** ** Normalisation *)

Lemma normalize_idempotent (p : InsightParams) : normalize (normalize p) = normalize p.
Proof. apply normalize_fixed. cbn [normalize limit timeseries_limit]. lia. Qed.

(** After a call the limits of the request object are within their bounds,
    and a second call with the same object leaves it as it is and gives the
    same answer. *)
Theorem fetch_insights_normalises_once db now (p : InsightParams) :
  let p' := (fetch_insights db now p).1 in
  (1 <= limit p' <= 100)%Z /\ (10 <= timeseries_limit p' <= 2000)%Z /\
  fetch_insights db now p' = (p', (fetch_insights db now p).2).
Proof.
  cbn zeta. unfold fetch_insights. cbn [fst snd].
  split; [cbn [normalize limit]; lia|]. split; [cbn [normalize timeseries_limit]; lia|].
  by rewrite normalize_idempotent.
Qed.

(** ** Filters *)

Lemma build_filters_base (p : InsightParams) :
  build_filters (with_cursor None p) = Ok (base_filters p).
Proof.
  unfold build_filters, base_filters. cbn [with_cursor cursor str_truthy auv_id type since].
  destruct (str_truthy (auv_id p)), (str_truthy (type p)), (since p); reflexivity.
Qed.

Lemma str_truthy_with_bar a b : str_truthy (Some (a +:+ String "|"%char b)) = true.
Proof. by destruct a. Qed.

Lemma build_filters_decoded (p : InsightParams) c t id :
  str_truthy (Some c) = true -> decode_cursor c = Ok (t, id) ->
  build_filters (with_cursor (Some c) p) = Ok (base_filters p ++ [before_cursor t id]).
Proof.
  intros Hc Hd. unfold build_filters, base_filters.
  cbn [with_cursor cursor auv_id type since]. rewrite Hc.
  change (default "" (Some c)) with c. rewrite Hd.
  cbn [mbind result_bind try_except_Exception].
  destruct (str_truthy (auv_id p)), (str_truthy (type p)), (since p); reflexivity.
Qed.

(** A cursor built from a timestamp and an identifier adds exactly one
    predicate, placed last, that carries this pair; empty vehicle and type
    filters add none. *)
Theorem valid_cursor_becomes_last_predicate (p : InsightParams) (t : datetime) (id : Z) :
  build_filters (with_cursor (Some (isoformat t +:+ "|" +:+ str_int id)) p)
  = Ok (base_filters p ++ [before_cursor t id]) /\
  build_filters (with_cursor None p) = Ok (base_filters p) /\
  (auv_id p = Some "" -> type p = Some "" ->
   base_filters p = match since p with Some s => [started_after s] | None => [] end).
Proof.
  split; [|split; [apply build_filters_base|]].
  - apply build_filters_decoded; [|apply decode_cursor_encoded].
    change ("|" +:+ str_int id) with (String "|"%char (str_int id)).
    apply str_truthy_with_bar.
  - intros Ha Hty. unfold base_filters. rewrite Ha, Hty. reflexivity.
Qed.

(** ** What an answer holds *)

(** An answer never has a [pagination] entry: [fetch_insights] answers only
    when the page is not full or its last alert has no start timestamp. *)
Theorem answer_has_no_pagination db now (p : InsightParams) out :
  (fetch_insights db now p).2 = Ok out ->
  out !! "pagination" = None /\
  exists fs,
    build_filters (normalize p) = Ok fs /\
    cursor_due (page db fs (limit (normalize p))) (limit (normalize p)) = false /\
    out !! "alerts"
    = Some (VList (VDict <$> map dict_of_alert (page db fs (limit (normalize p))))).
Proof.
  intros H. split; [by eapply fetch_insights_never_paginates|].
  unfold fetch_insights in H. cbn [snd] in H.
  destruct (fetch_insights_body_listing db now (normalize p)) as (fs & Hfs & Hbody).
  rewrite Hbody in H. exists fs. split; [done|].
  destruct (cursor_due _ _); [discriminate|]. split; [done|]. cbn zeta in H.
  destruct (bool_decide (active_modes (normalize p) = [])).
  - injection H as <-. apply lookup_insert_eq.
  - rewrite (add_summaries_keeps _ _ _ _ _ _ "alerts" H) by done. apply lookup_insert_eq.
Qed.

(** Without an active summary mode the answer is the listing alone, and it
    does not depend on the clock or on the options of the summaries. *)
Theorem answer_without_modes_is_the_listing db now now' (p : InsightParams)
    (wm tl : Z) (tf : option (list string)) :
  active_modes (normalize p) = [] ->
  (fetch_insights db now p).2
  = (fetch_insights db now' (with_summary_options wm tl tf p)).2 /\
  forall out, (fetch_insights db now p).2 = Ok out ->
              forall k, is_Some (out !! k) <-> k = "alerts".
Proof.
  intros Hm. unfold fetch_insights. cbn [snd].
  destruct (fetch_insights_body_listing db now (normalize p)) as (fs & Hfs & ->).
  destruct (fetch_insights_body_listing db now'
              (normalize (with_summary_options wm tl tf p))) as (fs' & Hfs' & ->).
  change (build_filters (normalize (with_summary_options wm tl tf p)))
    with (build_filters (normalize p)) in Hfs'.
  rewrite Hfs in Hfs'. injection Hfs' as <-.
  change (limit (normalize (with_summary_options wm tl tf p))) with (limit (normalize p)).
  change (active_modes (normalize (with_summary_options wm tl tf p)))
    with (active_modes (normalize p)).
  rewrite Hm. rewrite !bool_decide_eq_true_2 by done. split; [reflexivity|].
  intros out. destruct (cursor_due _ _); [discriminate|]. cbn zeta. intros [= <-] k.
  destruct (decide (k = "alerts")) as [->|Hk].
  - rewrite lookup_insert_eq. split; eauto.
  - rewrite lookup_insert_ne, lookup_empty by done. split; [by intros [? ?]|done].
Qed.

(** ** The entries of the listing *)

(** The entry built for a row of the listing has the six selected columns
    for keys and no other: the identifier of the alert is not in it.  The
    start timestamp is an ISO text, or null when the alert has none. *)
Theorem alert_entry_has_the_selected_columns (a : Alert) :
  exists d,
    alert_dict (alert_row a) = Ok d /\
    (forall k, is_Some (d !! k) <-> k ∈ listing_columns) /\
    d !! "id" = None /\
    d !! "auv_id" = Some (VStr (alert_auv_id a)) /\
    d !! "type" = Some (VStr (alert_type a)) /\
    d !! "started_at" =
      Some (match alert_started_at a with
            | Some t => VStr (isoformat t)
            | None => VNone
            end).
Proof.
  exists (dict_of_alert a). split; [apply alert_dict_stored|].
  unfold dict_of_alert, listing_columns. split.
  { intros k. rewrite !lookup_insert, lookup_empty. rewrite !elem_of_cons, elem_of_nil.
    repeat case_decide; subst; split; intros Hk; eauto 10;
      try (by destruct Hk); naive_solver. }
  split; [reflexivity|]. split; [reflexivity|]. split; [reflexivity|].
  rewrite lookup_insert_eq. by destruct (alert_started_at a).
Qed.

(** ** The rows that a query selects *)

Lemma insert_by_Permutation {A} (before : A -> A -> bool) x l :
  insert_by before x l ≡ₚ x :: l.
Proof.
  induction l as [|y l IH]; cbn; [done|].
  destruct (before x y); [done|]. rewrite IH. apply Permutation_swap.
Qed.

Lemma sort_by_Permutation {A} (before : A -> A -> bool) l : sort_by before l ≡ₚ l.
Proof.
  unfold sort_by. induction l as [|x l IH]; cbn; [done|].
  rewrite insert_by_Permutation. by rewrite IH.
Qed.

(** [WHERE pred ORDER BY before LIMIT n] gives rows of the table that
    satisfy [pred], at most [n] of them, and all of them when they are at
    most [n]. *)
Lemma select_where_order_limit {A} (pred : A -> bool) (before : A -> A -> bool)
    (n : Z) (l : list A) :
  let rows := sql_limit n (sort_by before (List.filter pred l)) in
  (forall x, x ∈ rows -> x ∈ l /\ pred x = true) /\
  length rows <= Z.to_nat n /\
  rows ⊆+ List.filter pred l /\
  (length (List.filter pred l) <= Z.to_nat n -> rows ≡ₚ List.filter pred l).
Proof.
  cbn zeta. unfold sql_limit. split; [|split; [|split]].
  - intros x Hx. apply elem_of_take in Hx as (i & Hx & _).
    apply list_elem_of_lookup_2 in Hx. rewrite sort_by_Permutation in Hx.
    apply list_elem_of_In, filter_In in Hx as [Hx Hp]. by apply list_elem_of_In in Hx.
  - rewrite length_take. lia.
  - rewrite <- (sort_by_Permutation before (List.filter pred l)) at 2.
    apply sublist_submseteq, sublist_take.
  - intros Hlen. rewrite take_ge; [apply sort_by_Permutation|].
    by rewrite (Permutation_length (sort_by_Permutation before (List.filter pred l))).
Qed.

(** The listing query returns stored alerts that satisfy every predicate
    of the request, each at most as often as it is stored, never more than
    the limit, and all the matching alerts when they are at most the
    limit. *)
Theorem listing_page_selects_matching_alerts db (fs : list clause) (n : Z) :
  execute_listing db fs n = map alert_row (page db fs n) /\
  (forall a, a ∈ page db fs n ->
             a ∈ db_alerts db /\ Forall (fun c => clause_holds c a = true) fs) /\
  length (page db fs n) <= Z.to_nat n /\
  page db fs n ⊆+ satisfying db fs /\
  (length (satisfying db fs) <= Z.to_nat n -> page db fs n ≡ₚ satisfying db fs).
Proof.
  split; [reflexivity|].
  destruct (select_where_order_limit
              (fun a => forallb (fun c => clause_holds c a) fs)
              (listing_before (db_nulls_largest db)) n (db_alerts db))
    as (Hin & Hlen & Hsub & Hall).
  split; [|split; [exact Hlen|split; [exact Hsub|exact Hall]]].
  intros a Ha. destruct (Hin a Ha) as [Hdb Hp]. split; [done|].
  apply Forall_forall. intros c Hc. rewrite forallb_forall in Hp.
  apply Hp. by apply list_elem_of_In.
Qed.

(** A reading that passes the WHERE clause of the telemetry query has a
    timestamp. *)
Lemma telemetry_in_window_timestamp auv ws t :
  telemetry_in_window auv ws t = true ->
  tm_auv_id t = auv /\
  exists ts, tm_timestamp t = Some ts /\ dt_compare ts ws ≠ Lt.
Proof.
  unfold telemetry_in_window. intros [Ha Ht]%andb_true_iff.
  apply String.eqb_eq in Ha. split; [done|].
  destruct (tm_timestamp t) as [ts|]; [|discriminate].
  exists ts. split; [done|]. by destruct (dt_compare ts ws).
Qed.

(** The timeseries block has one point per selected reading, in the order
    of the query.  The readings are stored readings of the vehicle, inside
    the window, at most [timeseries_limit] of them; [count] is their
    number.  A reading without a timestamp is never selected, so the
    [timestamp] of every point is an ISO text. *)
Theorem timeseries_block_points db window_start (p : InsightParams) :
  let readings := selected_readings db (default "" (auv_id p)) window_start
                    (timeseries_limit p) in
  (exists d,
     timeseries_summary db window_start p = Ok (VDict d) /\
     d !! "points"
       = Some (VList (VDict <$> map (point_of_reading (requested_fields_of p)) readings)) /\
     d !! "count" = Some (VInt (Z.of_nat (length readings)))) /\
  length readings <= Z.to_nat (timeseries_limit p) /\
  Forall (fun t =>
            t ∈ db_telemetry db /\
            tm_auv_id t = default "" (auv_id p) /\
            exists ts,
              tm_timestamp t = Some ts /\ dt_compare ts window_start ≠ Lt /\
              point_of_reading (requested_fields_of p) t !! "timestamp"
                = Some (VStr (isoformat ts)))
         readings.
Proof.
  cbn zeta. split; [|split].
  - unfold timeseries_summary, execute_timeseries.
    fold (selected_readings db (default "" (auv_id p)) window_start (timeseries_limit p)).
    change (select_row telemetry_column telemetry_columns) with telemetry_row.
    rewrite (mapM_map_ok _ _ (point_of_reading (requested_fields_of p)))
      by apply make_point_stored.
    cbn [mbind result_bind]. eexists. split; [reflexivity|]. split.
    + rewrite lookup_insert_ne by done. apply lookup_insert_eq.
    + rewrite lookup_insert_eq, length_map. reflexivity.
  - apply select_where_order_limit.
  - apply Forall_forall. intros t Ht.
    apply select_where_order_limit in Ht as [Hdb Hw].
    apply telemetry_in_window_timestamp in Hw as (Hauv & ts & Hts & Hcmp).
    split; [done|]. split; [done|]. exists ts. split; [done|]. split; [done|].
    rewrite point_timestamp, Hts. reflexivity.
Qed.

(** ** The fields of a point *)

Lemma requested_fields_of_spec (p : InsightParams) k :
  k ∈ requested_fields_of p <->
  k ∈ TIMESERIES_ALLOWED_FIELDS /\
  (list_truthy (timeseries_fields p) = false \/ k ∈ default [] (timeseries_fields p)).
Proof.
  unfold requested_fields_of. destruct (list_truthy (timeseries_fields p)) eqn:Ht.
  - rewrite list_elem_of_In, filter_In, <- list_elem_of_In, bool_decide_eq_true.
    split; [intros [? ?]; eauto|]. intros [? [?|?]]; [done|eauto].
  - rewrite elem_of_elements. split; [eauto|tauto].
Qed.

Lemma point_of_reading_keys rf t k :
  is_Some (point_of_reading rf t !! k) <->
  k = "timestamp" \/ (k ∈ rf /\ k ∈ TIMESERIES_ALLOWED_FIELDS).
Proof.
  unfold point_of_reading, TIMESERIES_ALLOWED_FIELDS.
  repeat match goal with
         | |- context [bool_decide (?x ∈ rf)] =>
             destruct (bool_decide_reflect (x ∈ rf))
         end;
    rewrite ?lookup_insert, ?lookup_empty;
    repeat case_decide; subst;
    (split; [intros [? ?]; try discriminate; set_solver | intros; try (by eauto); set_solver]).
Qed.

(** A point has the key [timestamp] and the requested fields that are
    among the four allowed ones, and no other key; an unknown field name is
    dropped, and without a field list all four fields are present. *)
Theorem point_keys_are_timestamp_and_requested_fields (p : InsightParams) (t : Telemetry) :
  exists pt,
    make_point (requested_fields_of p) (telemetry_row t) = Ok pt /\
    forall k,
      is_Some (pt !! k) <->
      k = "timestamp" \/
      (k ∈ TIMESERIES_ALLOWED_FIELDS /\
       (list_truthy (timeseries_fields p) = false \/ k ∈ default [] (timeseries_fields p))).
Proof.
  exists (point_of_reading (requested_fields_of p) t).
  split; [apply make_point_stored|]. intros k.
  rewrite point_of_reading_keys, requested_fields_of_spec. tauto.
Qed.

(** ** The summaries *)

(** What [add_summaries] has done when it returns. *)
Lemma add_summaries_inv db now q modes (out out' : gmap string value) :
  add_summaries db now q modes out = Ok out' ->
  exists ws (s1 s : gmap string value),
    window_start_of now q = Ok ws /\
    out' = <["summaries" := VDict s]> out /\
    (if bool_decide ("timeseries" ∈ modes) then
       if str_truthy (auv_id q)
       then exists block, timeseries_summary db ws q = Ok block /\
                          s1 = <["timeseries" := block]> ∅
       else s1 = <["timeseries_error" := VStr "timeseries summary requires auv_id"]> ∅
     else s1 = ∅) /\
    (if bool_decide ("stats" ∈ modes) then
       exists st, stats_summary db ws q = Ok st /\ s = <["stats" := st]> s1
     else s = s1).
Proof.
  unfold add_summaries. intros H.
  destruct (window_start_of now q) as [ws|]; [|discriminate].
  cbn [mbind result_bind] in H.
  destruct (bool_decide ("timeseries" ∈ modes)).
  - destruct (str_truthy (auv_id q)); cbn [negb] in H.
    + destruct (timeseries_summary db ws q) as [block|] eqn:Hts; [|discriminate].
      cbn [mbind result_bind] in H.
      destruct (bool_decide ("stats" ∈ modes)).
      * destruct (stats_summary db ws q) as [st|] eqn:Hst; [|discriminate].
        cbn [mbind result_bind] in H. injection H as <-.
        eexists ws, _, _. split; [done|]. split; [done|]. split; eauto.
      * cbn [mbind result_bind] in H. injection H as <-.
        eexists ws, _, _. split; [done|]. split; [done|]. split; eauto.
    + cbn [mbind result_bind] in H.
      destruct (bool_decide ("stats" ∈ modes)).
      * destruct (stats_summary db ws q) as [st|] eqn:Hst; [|discriminate].
        cbn [mbind result_bind] in H. injection H as <-.
        eexists ws, _, _. split; [done|]. split; [done|]. split; eauto.
      * cbn [mbind result_bind] in H. injection H as <-.
        eexists ws, _, _. split; [done|]. split; [done|]. split; eauto.
  - cbn [mbind result_bind] in H.
    destruct (bool_decide ("stats" ∈ modes)).
    + destruct (stats_summary db ws q) as [st|] eqn:Hst; [|discriminate].
      cbn [mbind result_bind] in H. injection H as <-.
      eexists ws, _, _. split; [done|]. split; [done|]. split; eauto.
    + cbn [mbind result_bind] in H. injection H as <-.
      eexists ws, _, _. split; [done|]. split; [done|]. split; eauto.
Qed.

(** The answer read back as: either no mode was active and the answer is
    the listing, or the summaries were added to the listing. *)
Lemma fetch_insights_answer_inv db now (p : InsightParams) out :
  (fetch_insights db now p).2 = Ok out ->
  exists listing : gmap string value,
    listing !! "summaries" = None /\
    ((active_modes (normalize p) = [] /\ out = listing) \/
     (active_modes (normalize p) ≠ [] /\
      add_summaries db now (normalize p) (active_modes (normalize p)) listing = Ok out)).
Proof.
  unfold fetch_insights. cbn [snd].
  destruct (fetch_insights_body_listing db now (normalize p)) as (fs & _ & ->).
  destruct (cursor_due _ _); [discriminate|]. cbn zeta. intros H.
  exists (<["alerts" := VList (VDict <$> map dict_of_alert
                                    (page db fs (limit (normalize p))))]> ∅).
  split; [by rewrite lookup_insert_ne|].
  destruct (bool_decide_reflect (active_modes (normalize p) = [])).
  - injection H as <-. by left.
  - by right.
Qed.

(** The answer has [summaries] exactly when a mode is active, and then
    [summaries] has [stats] exactly when that mode is active, [timeseries]
    when that mode is active with a vehicle, [timeseries_error] when it is
    active without one, and no other key. *)
Theorem summaries_follow_active_modes db now (p : InsightParams) out :
  (fetch_insights db now p).2 = Ok out ->
  let modes := active_modes (normalize p) in
  (modes = [] /\ out !! "summaries" = None) \/
  (modes ≠ [] /\
   exists s : gmap string value,
     out !! "summaries" = Some (VDict s) /\
     forall k,
       is_Some (s !! k) <->
       (k = "stats" /\ "stats" ∈ modes) \/
       (k = "timeseries" /\ "timeseries" ∈ modes /\ str_truthy (auv_id p) = true) \/
       (k = "timeseries_error" /\ "timeseries" ∈ modes /\ str_truthy (auv_id p) = false)).
Proof.
  intros H. cbn zeta.
  destruct (fetch_insights_answer_inv db now p out H) as (listing & Hl & [[Hm ->]|[Hm Ha]]);
    [by left|right]. split; [done|].
  destruct (add_summaries_inv _ _ _ _ _ _ Ha) as (ws & s1 & s & _ & -> & H1 & H2).
  exists s. split; [apply lookup_insert_eq|]. intros k.
  change (auv_id (normalize p)) with (auv_id p) in H1.
  destruct (bool_decide_reflect ("timeseries" ∈ active_modes (normalize p))) as [Ht|Ht];
    destruct (bool_decide_reflect ("stats" ∈ active_modes (normalize p))) as [Hs|Hs];
    destruct (str_truthy (auv_id p));
    repeat match goal with
           | H : exists _, _ |- _ => destruct H as (? & _ & ?)
           end; subst;
    rewrite ?lookup_insert, ?lookup_empty; repeat case_decide; subst;
    (split; [intros [? ?]; try discriminate; naive_solver | naive_solver]).
Qed.

(** ** The stats block *)

Lemma stats_block_of_answer db now (p : InsightParams) out :
  (fetch_insights db now p).2 = Ok out ->
  stats_block out =
  if bool_decide ("stats" ∈ active_modes (normalize p)) then
    match window_start_of now (normalize p) with
    | Ok ws =>
        match stats_summary db ws (normalize p) with
        | Ok st => Some st
        | Raise _ => None
        end
    | Raise _ => None
    end
  else None.
Proof.
  intros H. unfold stats_block.
  destruct (fetch_insights_answer_inv db now p out H) as (listing & Hl & [[Hm ->]|[Hm Ha]]).
  - rewrite Hl, Hm. reflexivity.
  - destruct (add_summaries_inv _ _ _ _ _ _ Ha) as (ws & s1 & s & -> & -> & H1 & H2).
    rewrite lookup_insert_eq.
    destruct (bool_decide ("stats" ∈ active_modes (normalize p))).
    + destruct H2 as (st & -> & ->). apply lookup_insert_eq.
    + subst s.
      destruct (bool_decide ("timeseries" ∈ active_modes (normalize p)));
        [destruct (str_truthy (auv_id (normalize p)));
         [destruct H1 as (? & _ & ->)|subst s1]|subst s1];
        by rewrite ?lookup_insert_ne, ?lookup_empty.
Qed.

(** The stats block looks at the vehicle and the type only: two answers to
    requests that differ in [limit], [since] and [cursor] carry the same
    stats block. *)
Theorem stats_block_ignores_paging db now (p : InsightParams)
    (l : Z) (s : option datetime) (c : option string) out out' :
  (fetch_insights db now p).2 = Ok out ->
  (fetch_insights db now (with_paging l s c p)).2 = Ok out' ->
  stats_block out = stats_block out'.
Proof.
  intros H H'.
  rewrite (stats_block_of_answer db now p out H).
  rewrite (stats_block_of_answer db now (with_paging l s c p) out' H').
  reflexivity.
Qed.

(** The dictionary comprehension of line 215 over the rows of the grouped
    query. *)
Lemma by_type_dict_rows (count : string -> value) (tys : list string)
    (d : gmap string value) :
  exists d',
    foldl (fun acc r =>
             d ← acc;
             k ← getattr r "type";
             c ← getattr r "c";
             match k with
             | VStr s => Ok (<[s := c]> d)
             | _ => Raise (ValueError "key")
             end) (Ok d)
          (map (fun ty => [("type", VStr ty); ("c", count ty)]) tys) = Ok d' /\
    forall ty, d' !! ty = if decide (ty ∈ tys) then Some (count ty) else d !! ty.
Proof.
  revert d. induction tys as [|t tys IH]; intros d.
  - exists d. split; [reflexivity|]. intros ty. by rewrite decide_False by apply not_elem_of_nil.
  - destruct (IH (<[t := count t]> d)) as (d' & Hd' & Hl).
    exists d'. split; [exact Hd'|]. intros ty. rewrite Hl.
    destruct (decide (ty ∈ tys)) as [Hin|Hnin].
    + rewrite decide_True by (by apply list_elem_of_further). done.
    + destruct (decide (ty = t)) as [->|Hne].
      * rewrite decide_True by apply list_elem_of_here. apply lookup_insert_eq.
      * rewrite decide_False by (intros [?|?]%elem_of_cons; done).
        by rewrite lookup_insert_ne.
Qed.

Lemma of_type_nonempty ty (l : list Alert) :
  ty ∈ remove_dups (map alert_type l) <-> of_type ty l ≠ [].
Proof.
  rewrite elem_of_remove_dups. unfold of_type. split.
  - intros (a & <- & Ha)%list_elem_of_In%in_map_iff Hnil.
    assert (In a (List.filter (fun a0 => String.eqb (alert_type a0) (alert_type a)) l)) as Hin.
    { apply filter_In. split; [done|apply String.eqb_refl]. }
    by rewrite Hnil in Hin.
  - intros Hne.
    destruct (List.filter (fun a => String.eqb (alert_type a) ty) l) as [|a l'] eqn:Hf;
      [done|].
    assert (In a (List.filter (fun a => String.eqb (alert_type a) ty) l)) as Hin
      by (rewrite Hf; by left).
    apply filter_In in Hin as [Hin Hty]. apply String.eqb_eq in Hty as <-.
    apply list_elem_of_In, in_map. done.
Qed.

Lemma sum_in_window_bounds ws (l : list Alert) :
  match sum_in_window ws l with
  | VNone => l = []
  | VInt k => l ≠ [] /\ (0 <= k <= Z.of_nat (length l))%Z
  | _ => False
  end.
Proof.
  unfold sum_in_window. destruct l as [|a l]; [done|]. split; [done|].
  pose proof (List.filter_length_le
                (fun a0 => match alert_started_at a0 with
                           | Some t => match dt_compare t ws with Lt => false | _ => true end
                           | None => false
                           end) (a :: l)). lia.
Qed.

Lemma max_started_at_none (l : list Alert) acc :
  fold_left (fun acc a =>
      match acc, alert_started_at a with
      | Some m, Some t => match dt_compare t m with Gt => Some t | _ => Some m end
      | None, Some t => Some t
      | _, None => acc
      end) l acc = None ->
  acc = None /\ Forall (fun a => alert_started_at a = None) l.
Proof.
  revert acc. induction l as [|a l IH]; intros acc; cbn; [by intros ->|].
  intros H. apply IH in H as [Hacc Hl].
  destruct acc as [m|], (alert_started_at a) as [t|] eqn:Ht;
    try discriminate; try (by destruct (dt_compare t m)).
  split; [done|]. by constructor.
Qed.

Lemma max_started_at_all_none (l : list Alert) :
  Forall (fun a => alert_started_at a = None) l -> max_started_at l = None.
Proof.
  unfold max_started_at. induction 1 as [|a l Ha _ IH]; [done|].
  cbn. by rewrite Ha.
Qed.

(** The stats block is always built.  [total_alerts] is the number of
    stored alerts of the vehicle and of the type of the request;
    [alerts_by_type] has one entry per type that occurs among them, with the
    number of alerts of that type; [alerts_in_window] is a count between 0
    and the total, or null when no alert matches; [latest_alert_timestamp]
    is null exactly when no matching alert has a start timestamp. *)
Theorem stats_block_counts db window_start (p : InsightParams) :
  let l := stats_alerts db p in
  exists d by_type : gmap string value,
    stats_summary db window_start p = Ok (VDict d) /\
    d !! "total_alerts" = Some (VInt (Z.of_nat (length l))) /\
    d !! "alerts_by_type" = Some (VDict by_type) /\
    (forall ty,
       by_type !! ty =
       if decide (of_type ty l = []) then None
       else Some (VInt (Z.of_nat (length (of_type ty l))))) /\
    d !! "alerts_in_window" = Some (sum_in_window window_start l) /\
    match sum_in_window window_start l with
    | VNone => l = []
    | VInt k => l ≠ [] /\ (0 <= k <= Z.of_nat (length l))%Z
    | _ => False
    end /\
    (d !! "latest_alert_timestamp" = Some VNone <->
     Forall (fun a => alert_started_at a = None) l).
Proof.
  cbn zeta. unfold stats_summary, by_type_dict, execute_by_type, execute_stats.
  fold (stats_alerts db p).
  destruct (by_type_dict_rows
              (fun ty => VInt (Z.of_nat (length (List.filter
                 (fun a => String.eqb (alert_type a) ty) (stats_alerts db p)))))
              (remove_dups (map alert_type (stats_alerts db p))) ∅)
    as (bt & -> & Hbt).
  cbn [head mbind result_bind getattr String.eqb Ascii.eqb Bool.eqb].
  assert (exists latest,
            (if truthy (of_option_time (max_started_at (stats_alerts db p)))
             then VStr <$> call_isoformat
                             (of_option_time (max_started_at (stats_alerts db p)))
             else Ok VNone) = Ok latest /\
            (latest = VNone <->
             Forall (fun a => alert_started_at a = None) (stats_alerts db p)))
    as (latest & -> & Hlatest).
  { unfold max_started_at.
    destruct (fold_left _ (stats_alerts db p) None) as [t|] eqn:Hmax.
    - exists (VStr (isoformat t)). split; [reflexivity|]. split; [discriminate|].
      intros Hall. apply max_started_at_all_none in Hall.
      unfold max_started_at in Hall. congruence.
    - exists VNone. split; [reflexivity|]. split; [|done].
      intros _. by apply max_started_at_none in Hmax as [_ ?]. }
  cbn [mbind result_bind]. eexists _, bt. split; [reflexivity|].
  split; [by rewrite !lookup_insert_ne, lookup_insert_eq by done|].
  split; [apply lookup_insert_eq|]. split.
  { intros ty. rewrite Hbt, lookup_empty.
    destruct (decide (of_type ty (stats_alerts db p) = [])) as [He|He].
    - destruct (decide (ty ∈ remove_dups (map alert_type (stats_alerts db p))))
        as [Hin|]; [|done]. by apply of_type_nonempty in Hin.
    - destruct (decide (ty ∈ remove_dups (map alert_type (stats_alerts db p))))
        as [|Hnin]; [done|]. by apply of_type_nonempty in He. }
  split; [by rewrite !lookup_insert_ne, lookup_insert_eq by done|].
  split; [apply sum_in_window_bounds|].
  rewrite lookup_insert_ne, lookup_insert_eq by done.
  split; [intros [= ->]; by apply Hlatest|intros H; f_equal; by apply Hlatest].
Qed.

(** ** The location text *)

(** [_parse_point_wkt] reads the prefix [POINT(] in any letter case, takes
    a comma, with or without a space, for the separator as well as a space,
    and yields what [float] reads from the two words: no location when
    [float] rejects one of them.  With one coordinate or with three there
    is no location. *)
Theorem location_text_separators_and_arity (pre a b c : string) :
  str_upper pre = "POINT(" ->
  is_word a = true -> is_word b = true -> is_word c = true ->
  let read :=
    match py_float a, py_float b with
    | Some lon, Some lat => Some (lon, lat)
    | _, _ => None
    end in
  point_of_text (pre +:+ a +:+ " " +:+ b +:+ ")") = read /\
  point_of_text (pre +:+ a +:+ "," +:+ b +:+ ")") = read /\
  point_of_text (pre +:+ a +:+ ", " +:+ b +:+ ")") = read /\
  point_of_text (pre +:+ a +:+ ")") = None /\
  point_of_text (pre +:+ a +:+ " " +:+ b +:+ " " +:+ c +:+ ")") = None.
Proof.
  intros Hpre Ha Hb Hc. cbn zeta.
  assert (forall inner, pre +:+ a +:+ inner +:+ ")" = pre +:+ (a +:+ inner) +:+ ")") as E
    by (intros; by rewrite !append_assoc).
  assert (forall sep, pre +:+ a +:+ sep +:+ b +:+ ")"
                      = pre +:+ (a +:+ sep +:+ b) +:+ ")") as E2
    by (intros; by rewrite !append_assoc).
  rewrite !E2.
  replace (pre +:+ a +:+ " " +:+ b +:+ " " +:+ c +:+ ")")
    with (pre +:+ (a +:+ " " +:+ b +:+ " " +:+ c) +:+ ")") by (by rewrite !append_assoc).
  rewrite !(point_of_text_inner pre) by done.
  rewrite !str_replace_append.
  rewrite !(str_replace_word a), !(str_replace_word b), !(str_replace_word c) by done.
  change (str_replace ","%char " "%char " ") with " ".
  change (str_replace ","%char " "%char ",") with " ".
  change (str_replace ","%char " "%char ", ") with "  ".
  change (" " +:+ b) with (String " "%char b).
  change ("  " +:+ b) with (String " "%char (String " "%char b)).
  change (" " +:+ b +:+ " " +:+ c) with (String " "%char (b +:+ String " "%char c)).
  rewrite !str_split_word_space, !str_split_space, !str_split_word by done.
  repeat split; by destruct (py_float a), (py_float b).
Qed.


(** ** When [fetch_insights] answers *)

Lemma stats_summary_ok db ws (p : InsightParams) :
  exists d, stats_summary db ws p = Ok (VDict d).
Proof.
  unfold stats_summary, by_type_dict, execute_by_type, execute_stats.
  destruct (by_type_dict_rows
              (fun ty => VInt (Z.of_nat (length (List.filter
                 (fun a => String.eqb (alert_type a) ty)
                 (List.filter (fun a => forallb (fun c => clause_holds c a)
                                                (stats_filters_of p)) (db_alerts db))))))
              (remove_dups (map alert_type
                 (List.filter (fun a => forallb (fun c => clause_holds c a)
                                                (stats_filters_of p)) (db_alerts db)))) ∅)
    as (bt & -> & _).
  cbn [head mbind result_bind getattr String.eqb Ascii.eqb Bool.eqb].
  destruct (max_started_at _) as [t|]; cbn; eauto.
Qed.

(** Once the start of the window is known, the summaries are built. *)
Lemma add_summaries_ok db now q modes (out : gmap string value) ws :
  window_start_of now q = Ok ws ->
  exists out', add_summaries db now q modes out = Ok out'.
Proof.
  intros Hws. unfold add_summaries. rewrite Hws. cbn [mbind result_bind].
  destruct (timeseries_summary_ok db ws q) as (_ & dts & _ & Hts & _).
  destruct (stats_summary_ok db ws q) as (dst & Hst).
  rewrite Hts, Hst.
  destruct (bool_decide ("timeseries" ∈ modes)), (str_truthy (auv_id q)),
    (bool_decide ("stats" ∈ modes)); cbn; eauto.
Qed.

Lemma fetch_insights_returns db now (p : InsightParams) fs :
  build_filters (normalize p) = Ok fs ->
  cursor_due (page db fs (limit (normalize p))) (limit (normalize p)) = false ->
  (active_modes (normalize p) = [] \/
   exists ws, minus_minutes now (window_minutes p) = Some ws) ->
  exists out, (fetch_insights db now p).2 = Ok out.
Proof.
  intros Hfs Hdue Hm. unfold fetch_insights. cbn [snd].
  destruct (fetch_insights_body_listing db now (normalize p)) as (fs' & Hfs' & ->).
  rewrite Hfs in Hfs'. injection Hfs' as <-. rewrite Hdue. cbn zeta.
  destruct (bool_decide_reflect (active_modes (normalize p) = [])) as [|Hne]; [eauto|].
  destruct Hm as [Hm|[ws Hws]]; [done|].
  apply (add_summaries_ok _ _ _ _ _ ws). unfold window_start_of.
  change (window_minutes (normalize p)) with (window_minutes p). by rewrite Hws.
Qed.

(** [fetch_insights] answers exactly when the page is not a full page that
    ends with a timestamped alert and, if a summary mode is active, the start
    of the window can be represented.  Otherwise it raises: the
    [AttributeError] of the missing [id] column in the first case, an
    [OverflowError] in the second; it raises nothing else. *)
Theorem fetch_insights_answers_or_raises db now (p : InsightParams) :
  exists fs,
    build_filters (normalize p) = Ok fs /\
    let due := cursor_due (page db fs (limit (normalize p))) (limit (normalize p)) in
    let no_start := minus_minutes now (window_minutes p) = None in
    ((exists out, (fetch_insights db now p).2 = Ok out) <->
     due = false /\ (active_modes (normalize p) = [] \/ ~ no_start)) /\
    ((fetch_insights db now p).2 = Raise no_id_column <-> due = true) /\
    ((exists msg, (fetch_insights db now p).2 = Raise (OverflowError msg)) <->
     due = false /\ active_modes (normalize p) ≠ [] /\ no_start) /\
    (forall e, (fetch_insights db now p).2 = Raise e ->
               e = no_id_column \/ exists msg, e = OverflowError msg).
Proof.
  destruct (build_filters_ok (normalize p)) as [fs Hfs]. exists fs. split; [done|].
  cbn zeta.
  pose proof (fetch_insights_returns db now p fs Hfs) as Hret.
  unfold fetch_insights in *. cbn [snd] in *.
  destruct (fetch_insights_body_listing db now (normalize p)) as (fs' & Hfs' & Hbody).
  rewrite Hfs in Hfs'. injection Hfs' as <-. rewrite Hbody in *. clear Hbody.
  destruct (cursor_due (page db fs (limit (normalize p))) (limit (normalize p))).
  { split; [split; [by intros [? ?]|by intros [? _]]|].
    split; [done|]. split; [split; [by intros [? ?]|by intros [? _]]|].
    intros e [= <-]. by left. }
  cbn zeta in *.
  destruct (bool_decide_reflect (active_modes (normalize p) = [])) as [Hm|Hm].
  { split; [split; [eauto|eauto]|]. split; [done|].
    split; [split; [by intros [? ?]|by intros (_ & ? & _)]|]. discriminate. }
  change (window_minutes p) with (window_minutes (normalize p)).
  destruct (minus_minutes now (window_minutes (normalize p))) as [ws|] eqn:Hws.
  - destruct (Hret eq_refl (or_intror (ex_intro _ ws Hws))) as [out Hout].
    rewrite Hout. split; [split; [intros _; split; [done|by right]|eauto]|].
    split; [done|]. split; [split; [by intros [? ?]|by intros (_ & _ & ?)]|]. discriminate.
  - assert (exists msg, add_summaries db now (normalize p) (active_modes (normalize p))
                          (<["alerts" := VList (VDict <$> map dict_of_alert
                               (page db fs (limit (normalize p))))]> ∅)
                        = Raise (OverflowError msg)) as [msg Hraise].
    { unfold add_summaries, window_start_of. rewrite Hws. eauto. }
    rewrite Hraise. split.
    { split; [by intros [? ?]|]. intros [_ [?|Hn]]; [done|]. by destruct Hn. }
    split; [done|]. split; [split; eauto|].
    intros e [= <-]. right. eauto.
Qed.

End InsightsLaws.

(** * Examples of the further properties *)

Lemma not_listed_in_two (ws : WebSocket) : ws ≠ 1 -> ws ≠ 2 -> ws ∉ [1; 2].
Proof.
  intros H1 H2 H. apply elem_of_cons in H as [H|H]; [done|].
  apply elem_of_cons in H as [H|H]; [done|]. by apply elem_of_nil in H.
Qed.

(** Connection [3] comes to the registry of [1] and [2] and leaves. *)
Lemma connect_then_disconnect_restores_witness :
  exists r1,
    connect 3 None two_listed = Returned tt r1 /\
    3 ∈ active_connections r1 /\
    disconnect 3 r1 = Returned tt two_listed.
Proof.
  apply (connect_then_disconnect_restores 3 two_listed); [reflexivity|].
  by apply not_listed_in_two.
Defined.

(** Connection [1], listed twice, loses its first entry. *)
Lemma disconnect_removes_first_entry_only_witness :
  exists r',
    disconnect 1 {| active_connections := [1; 2; 1]; lock_held := false;
                    delivered := [(2, tt)] |} = Returned tt r' /\
    active_connections r' = [2; 1].
Proof.
  destruct (disconnect_removes_first_entry_only 1
              {| active_connections := [1; 2; 1]; lock_held := false;
                 delivered := [(2, tt)] |} eq_refl) as (r' & Hd & _).
  exists r'. split; [exact Hd|].
  cbn in Hd. injection Hd as <-. reflexivity.
Defined.

(** Both subscribers take the message. *)
Lemma broadcast_without_failure_delivers_in_order_witness :
  broadcast all_healthy tt two_listed =
  Returned tt {| active_connections := [1; 2]; lock_held := false;
                 delivered := [(1, tt); (2, tt)] |}.
Proof.
  exact (broadcast_without_failure_delivers_in_order all_healthy tt two_listed
           eq_refl (fun _ _ => eq_refl)).
Defined.

(** Subscriber [1] raises on send. *)
Lemma broadcast_with_failure_never_returns_witness :
  exists r',
    broadcast (one_failing unit CONNECTED) tt two_listed = Blocked r' /\
    lock_held r' = true /\
    active_connections r' = [1; 2] /\
    (forall ws', connect ws' None r' = Blocked r') /\
    (forall ws', disconnect ws' r' = Blocked r') /\
    (forall T' m', broadcast T' m' r' = Blocked r').
Proof.
  apply (broadcast_with_failure_never_returns (one_failing unit CONNECTED) tt two_listed 1
           (RuntimeError "send after close")).
  - reflexivity.
  - intros ws' e' _ _. cbn. destruct (decide (ws' = 1)); [|discriminate].
    by intros [= <-].
  - apply list_elem_of_here.
  - reflexivity.
  - reflexivity.
Defined.

(** Subscriber [2] raises [CancelledError]: subscriber [1] has the message
    and the lock is free again. *)
Lemma broadcast_cancelled_send_releases_lock_witness :
  exists r',
    broadcast two_cancels tt two_listed = Raised CancelledError r' /\
    lock_held r' = false /\
    active_connections r' = [1; 2] /\
    delivered r' = [(1, tt)] /\
    (forall ws, exists r'', connect ws None r' = Returned tt r'').
Proof.
  apply (broadcast_cancelled_send_releases_lock two_cancels tt two_listed [1] 2 []
           CancelledError); try reflexivity.
  intros ws e' ->%list_elem_of_singleton _. discriminate.
Defined.

(** One round against the cancelled feed ends the task with
    [CancelledError]. *)
Lemma monitor_telemetry_ends_only_when_cancelled_witness :
  monitor_telemetry nat nat nat length_loads odd_alerts id two_not_connected
    cancelled_feed 0 1 three_listed
  = Terminated CancelledError
      {| manager := manager three_listed; trace := [EvConnect; EvSleep 5%Z] |} /\
  is_Exception CancelledError = false.
Proof.
  split; [reflexivity|].
  apply (monitor_telemetry_ends_only_when_cancelled length_loads odd_alerts id
           two_not_connected cancelled_feed 0 1 three_listed
           {| manager := manager three_listed; trace := [EvConnect; EvSleep 5%Z] |}).
  reflexivity.
Defined.

(** A text that is not JSON, a ping and an even reading. *)
Lemma quiet_session_changes_nothing_witness :
  consume nat nat nat length_loads odd_alerts id two_not_connected
    [text_frame ""; Msg {| msg_type := PING; msg_data := "" |}; text_frame "ab"]
    three_listed
  = Next three_listed.
Proof.
  apply (quiet_session_changes_nothing length_loads odd_alerts id two_not_connected).
  constructor; [left; by exists "Expecting value"|].
  constructor; [exact I|].
  constructor; [right; by exists 2|]. constructor.
Defined.

(** Readings 1, 2 and 3: the alerts 1 and 3 go to the subscribers [1] and
    [3]. *)
Lemma session_alerts_fan_out_in_order_witness :
  consume nat nat nat length_loads odd_alerts id two_not_connected
    [text_frame "a"; text_frame "ab"; text_frame "abc"] three_listed
  = Next
      {| manager := {| active_connections := [1; 2; 3]; lock_held := false;
                       delivered := [(1, 1); (3, 1); (1, 3); (3, 3)] |};
         trace := [EvBroadcast 1; EvBroadcast 3] |}.
Proof.
  apply (session_alerts_fan_out_in_order length_loads odd_alerts id two_not_connected
           [("a", 1, Some 1); ("ab", 2, None); ("abc", 3, Some 3)] three_listed).
  - reflexivity.
  - reflexivity.
  - repeat constructor.
Defined.

(** The leaving client gets an echo and the error reply. *)
Lemma control_channel_answers_then_deregisters_witness :
  websocket_endpoint 3 leaving_client two_listed
  = Finished two_listed
      [Sent (Echo "ping" "2024-01-01T00:00:01+00:00"); Sent InvalidJson] /\
  2 = 2.
Proof.
  apply (control_channel_answers_then_deregisters 3 leaving_client
           [json_turn; text_turn] two_listed); try reflexivity.
  by apply not_listed_in_two.
Defined.

(** The broken client gets its two replies and is closed with code 1011;
    its fourth message is not read. *)
Lemma control_channel_error_closes_and_deregisters_witness :
  websocket_endpoint 3 broken_client two_listed
  = Finished two_listed
      [Sent (Echo "ping" "2024-01-01T00:00:01+00:00"); Sent InvalidJson; Closed 1011].
Proof.
  apply (control_channel_error_closes_and_deregisters 3 broken_client
           [json_turn; text_turn] [json_turn]
           (raising_turn (RuntimeError "receive failed"))
           (RuntimeError "receive failed") two_listed); try reflexivity.
  - by apply not_listed_in_two.
  - discriminate.
Defined.

(** After the broadcast that subscriber [1] fails, the leaving client is
    accepted and waits. *)
Lemma control_channel_dead_after_failed_broadcast_witness :
  exists r',
    broadcast (one_failing unit CONNECTED) tt two_listed = Blocked r' /\
    websocket_endpoint 3 leaving_client r' = Pending r' [] /\
    active_connections r' = [1; 2].
Proof.
  apply (control_channel_dead_after_failed_broadcast (one_failing unit CONNECTED) tt
           two_listed 1 (RuntimeError "send after close") 3 leaving_client).
  - reflexivity.
  - intros ws' e' _ _. cbn. destruct (decide (ws' = 1)); [|discriminate].
    by intros [= <-].
  - apply list_elem_of_here.
  - reflexivity.
  - reflexivity.
  - reflexivity.
Defined.

(** The four alerts of the example on a page of twenty. *)
Lemma answer_has_no_pagination_witness :
  exists out,
    (fetch_insights example_db PlainRuntime.T3 default_params).2 = Ok out /\
    out !! "pagination" = None.
Proof.
  eexists. split; [reflexivity|].
  refine (proj1 (answer_has_no_pagination example_db PlainRuntime.T3 default_params _ _)).
  reflexivity.
Defined.

(** The default request has no active mode. *)
Lemma answer_without_modes_is_the_listing_witness :
  (fetch_insights example_db PlainRuntime.T1 default_params).2
  = (fetch_insights example_db PlainRuntime.T3
       (with_summary_options 5 100 (Some ["depth_m"]) default_params)).2.
Proof.
  refine (proj1 (answer_without_modes_is_the_listing example_db PlainRuntime.T1
                   PlainRuntime.T3 default_params 5 100 (Some ["depth_m"]) _)).
  reflexivity.
Defined.

(** Both modes without a vehicle: [stats] and [timeseries_error]. *)
Lemma summaries_follow_active_modes_witness :
  exists out,
    (fetch_insights example_db PlainRuntime.T3 both_modes_request).2 = Ok out /\
    exists s : gmap string value,
      out !! "summaries" = Some (VDict s) /\
      is_Some (s !! "stats") /\ is_Some (s !! "timeseries_error") /\
      s !! "timeseries" = None.
Proof.
  destruct (fetch_insights_returns (RT := PlainRuntime.runtime) example_db PlainRuntime.T3 both_modes_request []
              eq_refl eq_refl) as [out Hout].
  { right. eexists. vm_compute. reflexivity. }
  exists out. split; [exact Hout|].
  destruct (summaries_follow_active_modes example_db PlainRuntime.T3 both_modes_request
              out Hout) as [[Hm _]|(_ & s & Hs & Hk)]; [discriminate Hm|].
  exists s. split; [exact Hs|]. split; [|split].
  - apply Hk. left. split; [done|]. apply list_elem_of_here.
  - apply Hk. right. right. split; [done|]. split; [|done].
    apply list_elem_of_further, list_elem_of_here.
  - apply eq_None_not_Some. intros H. apply Hk in H as [[H _]|[(_ & _ & H)|[H _]]];
      discriminate H.
Defined.

(** The stats of the example do not change with the page size, the start
    of the listing or a cursor. *)
Lemma stats_block_ignores_paging_witness :
  exists out out',
    (fetch_insights example_db PlainRuntime.T3 stats_request).2 = Ok out /\
    (fetch_insights example_db PlainRuntime.T3 paged_stats_request).2 = Ok out' /\
    stats_block out = stats_block out'.
Proof.
  destruct (fetch_insights_returns (RT := PlainRuntime.runtime) example_db PlainRuntime.T3
              stats_request [] eq_refl eq_refl) as [out Hout].
  { right. eexists. vm_compute. reflexivity. }
  destruct (fetch_insights_returns (RT := PlainRuntime.runtime) example_db PlainRuntime.T3
              paged_stats_request [started_after (RT := PlainRuntime.runtime) PlainRuntime.T2]
              eq_refl eq_refl)
    as [out' Hout'].
  { right. eexists. vm_compute. reflexivity. }
  exists out, out'. split; [exact Hout|]. split; [exact Hout'|].
  exact (stats_block_ignores_paging example_db PlainRuntime.T3 stats_request
           50 (Some PlainRuntime.T2) (Some "GARBAGE") out out' Hout Hout').
Defined.

(** [Point(12.5,-3.2)] and its variants on the plain runtime. *)
Lemma location_text_separators_and_arity_witness :
  point_of_text (RT := PlainRuntime.runtime) "Point(12.5 -3.2)"
    = Some ((25, 2)%Z, (-16, 5)%Z) /\
  point_of_text (RT := PlainRuntime.runtime) "Point(12.5,-3.2)"
    = Some ((25, 2)%Z, (-16, 5)%Z) /\
  point_of_text (RT := PlainRuntime.runtime) "Point(12.5, -3.2)"
    = Some ((25, 2)%Z, (-16, 5)%Z) /\
  point_of_text (RT := PlainRuntime.runtime) "Point(12.5)" = None /\
  point_of_text (RT := PlainRuntime.runtime) "Point(12.5 -3.2 7)" = None.
Proof.
  apply (location_text_separators_and_arity (RT := PlainRuntime.runtime)
           "Point(" "12.5" "-3.2" "7"); reflexivity.
Defined.

(** The upstream closes the session after a text that is not JSON: the odd
    reading behind the close is never read, and the round ends with the
    sleep. *)
Lemma close_or_error_frame_ends_session_witness :
  monitor_telemetry nat nat nat length_loads odd_alerts id two_not_connected
    closing_feed 0 1 three_listed
  = Running {| manager := manager three_listed; trace := [EvConnect; EvSleep 5%Z] |}.
Proof.
  refine (proj2 (close_or_error_frame_ends_session length_loads odd_alerts id
                   two_not_connected closing_feed 0 0 [text_frame ""] [text_frame "a"]
                   {| msg_type := CLOSED; msg_data := "" |} three_listed _ _ _ _)).
  - constructor; [left; by exists "Expecting value"|constructor].
  - by left.
  - reflexivity.
  - reflexivity.
Defined.

(** The alert of the reading 1 meets subscriber [3], whose send raises: five
    rounds are asked for and the first never ends. *)
Lemma monitor_telemetry_hangs_after_failed_send_witness :
  exists st',
    monitor_telemetry nat nat nat length_loads odd_alerts id three_fails
      alerting_feed 0 5 three_listed = Suspended st' /\
    lock_held (manager st') = true /\
    active_connections (manager st') = [1; 2; 3] /\
    trace st' = [EvConnect; EvBroadcast 1].
Proof.
  apply (monitor_telemetry_hangs_after_failed_send length_loads odd_alerts id three_fails
           alerting_feed 0 4 "a" 1 1 [text_frame "abc"] 3
           (RuntimeError "send after close") three_listed);
    try reflexivity.
  - intros ws e' _ _. cbn. destruct (decide (ws = 3)); [|discriminate].
    by intros [= <-].
  - apply list_elem_of_further, list_elem_of_further, list_elem_of_here.
Defined.

(** The alert of the reading 1 meets subscriber [3], whose send raises
    [CancelledError]: the task ends in the first round, the lock is free. *)
Lemma monitor_telemetry_ends_at_cancelled_send_witness :
  exists st',
    monitor_telemetry nat nat nat length_loads odd_alerts id three_cancels
      alerting_feed 0 5 three_listed = Terminated CancelledError st' /\
    lock_held (manager st') = false /\
    active_connections (manager st') = [1; 2; 3] /\
    trace st' = [EvConnect; EvBroadcast 1].
Proof.
  apply (monitor_telemetry_ends_at_cancelled_send length_loads odd_alerts id three_cancels
           alerting_feed 0 4 "a" 1 1 [text_frame "abc"] [1; 2] [] 3 three_listed);
    try reflexivity.
  intros ws e' Hin _. cbn. destruct (decide (ws = 3)) as [->|]; [|discriminate].
  apply elem_of_cons in Hin as [?|Hin]; [discriminate|].
  apply elem_of_cons in Hin as [?|Hin]; [discriminate|]. by apply elem_of_nil in Hin.
Defined.

(** The waiting client has its two replies, is listed behind [1] and [2],
    and gets the broadcast. *)
Lemma connected_client_is_listed_and_reached_witness :
  exists r1,
    websocket_endpoint 3 waiting_client two_listed
    = Pending r1 [Sent (Echo "ping" "2024-01-01T00:00:01+00:00"); Sent InvalidJson] /\
    active_connections r1 = [1; 2; 3] /\
    (3, tt) ∈ delivered (final_registry (broadcast all_healthy tt r1)).
Proof.
  destruct (connected_client_is_listed_and_reached all_healthy tt 3 waiting_client
              two_listed eq_refl eq_refl eq_refl) as (r1 & H1 & H2 & _ & H4 & _).
  exists r1. split; [exact H1|]. split; [exact H2|].
  apply H4; [|reflexivity..]. intros ws' e _ _. discriminate.
Defined.
